(** * GanttAPP: the project/task store and its persistence layer

    A shallow embedding of [src/core/stores/ProjectStore.js] (the Zustand
    store: project and task operations, [serialize] / [deserialize],
    [validateAndFixDates]), of [migrateLegacyStorage] (the start-up guard
    of the application component) and of the formatter of the chart
    ([src/modules/gantt/utils/ganttFormatter.js]), followed by the
    properties of the specification that concern them and by further
    properties of the code.

    Conventions of the embedding.
    - A JavaScript [Date] is its time value: [Some t] for [t] milliseconds
      since the epoch, [None] for NaN (an "Invalid Date").  Every
      construction of a Date goes through [TimeClip], as in ECMAScript.
    - The built-ins whose results the program cannot determine (the clock,
      [uuidv4], [Date.parse], the string-to-number conversion and
      [toISOString]) are the fields of a [Host]; every definition and every
      theorem is parameterised by the host.
    - The store operations are [async] functions without any [await]: each
      runs to completion, so an operation is a state transformer.  They are
      written in a small state-and-exception monad over the [World]
      (the store state together with the positions reached in the clock and
      identifier streams of the host).
    - Projects, tasks and dependencies are records with the fields of the
      JSDoc typedefs of the store.  The fields the operations convert
      themselves (the dates and the completion of a task) hold arbitrary
      primitive values or Dates, since that is what callers may pass; the
      other fields have the types the typedefs give them.
    - The persistence functions walk arbitrary object graphs and are
      modelled on trees of run-time values; a stored string is represented
      by the JSON document it is the text of.
    - The store is created inside the [persist] middleware, which after
      every [set] writes the persisted part of the state through
      [serialize].  That write leaves the state of the store as it is and
      is not part of the operations below: the position a [World] records
      in the clock stream counts the readings the operations make
      themselves, and no property says that the clock is left unread
      across a [set].
    - The operations of the store that the properties speak of are the
      project and task operations, [clearError] and [validateAndFixDates];
      [clearCache], [initializeStore] and [loadDemoProject] are not
      modelled. *)

From Stdlib Require Import ZArith QArith Qabs List Ascii String DecimalNat DecimalString
  Bool Lia.
Import ListNotations.

Set Warnings "-register-all".

Local Open Scope string_scope.
Local Open Scope list_scope.
Local Open Scope Z_scope.

(* ================================================================== *)
(** ** JavaScript values used by the store *)
(* ================================================================== *)

Module JS.

(** A JavaScript number.  Finite numbers are rationals: the only arithmetic
    the store performs on them is comparison, truncation, and the addition
    of whole milliseconds to time values, all of which are exact on
    doubles in the range of time values. *)
Inductive number : Type :=
| NaN
| PosInfinity
| NegInfinity
| Fin (q : Q).

Definition num (z : Z) : number := Fin (inject_Z z).

(** The time value of a Date: [None] is NaN. *)
Definition date : Type := option Z.

(** The largest time value, 8.64e15 ms (ECMAScript, "Time Values and Time
    Range"). *)
Definition MAX_TIME : Z := 8640000000000000.

(** [24 * 60 * 60 * 1000] and [7 * 24 * 60 * 60 * 1000], as the source
    writes them. *)
Definition ONE_DAY : Z := 24 * 60 * 60 * 1000.
Definition ONE_WEEK : Z := 7 * 24 * 60 * 60 * 1000.

(** ECMAScript [TimeClip]: NaN for a non-finite number or one of
    magnitude above [MAX_TIME], the number truncated toward zero
    otherwise. *)
Definition TimeClip (n : number) : date :=
  match n with
  | Fin q =>
      if Qle_bool (Qabs q) (inject_Z MAX_TIME)
      then Some (Z.quot (Qnum q) (Z.pos (Qden q)))
      else None
  | _ => None
  end.

(** [new Date(ms)] for an integral number of milliseconds. *)
Definition Date_of_ms (ms : Z) : date := TimeClip (num ms).

(** [d.getTime()] as a number. *)
Definition getTime (d : date) : number :=
  match d with
  | Some t => num t
  | None => NaN
  end.

(** [isNaN(d.getTime())]. *)
Definition invalid (d : date) : bool :=
  match d with
  | Some _ => false
  | None => true
  end.

(** [new Date(d.getTime() + ms)]. *)
Definition Date_plus (d : date) (ms : Z) : date :=
  match d with
  | Some t => Date_of_ms (t + ms)
  | None => None
  end.

(** [a <= b] on two Date objects: both are converted to their time
    values, and a comparison with NaN is false. *)
Definition Date_le (a b : date) : bool :=
  match a, b with
  | Some x, Some y => x <=? y
  | _, _ => false
  end.

(** The values a caller can put in a date or completion field: the
    primitives and Date objects. *)
Inductive value : Type :=
| VUndefined
| VNull
| VBool (b : bool)
| VNumber (n : number)
| VString (s : string)
| VDate (d : date).

Definition is_zero (q : Q) : bool := Z.eqb (Qnum q) 0.

(** ECMAScript [ToBoolean]. *)
Definition truthy (v : value) : bool :=
  match v with
  | VUndefined | VNull => false
  | VBool b => b
  | VNumber NaN => false
  | VNumber (Fin q) => negb (is_zero q)
  | VNumber _ => true
  | VString s => negb (String.eqb s "")
  | VDate _ => true
  end.

(** [a || b]. *)
Definition or_else (a b : value) : value := if truthy a then a else b.

(** [Math.max] and [Math.min] on two numbers: NaN is contagious. *)
Definition Math_max (a b : number) : number :=
  match a, b with
  | NaN, _ | _, NaN => NaN
  | PosInfinity, _ | _, PosInfinity => PosInfinity
  | NegInfinity, x | x, NegInfinity => x
  | Fin p, Fin q => if Qle_bool p q then b else a
  end.

Definition Math_min (a b : number) : number :=
  match a, b with
  | NaN, _ | _, NaN => NaN
  | NegInfinity, _ | _, NegInfinity => NegInfinity
  | PosInfinity, x | x, PosInfinity => x
  | Fin p, Fin q => if Qle_bool p q then a else b
  end.

(** A computation returns or throws an [Error] with a message. *)
Inductive outcome (A : Type) : Type :=
| Returned (a : A)
| Thrown (message : string).
Arguments Returned {A} a.
Arguments Thrown {A} message.

(** What the host environment supplies. *)
Record Host : Type := {
  (** the successive readings of the clock ([Date.now()], [new Date()]) *)
  clock : nat -> Z;
  (** the successive results of [uuidv4()] *)
  uuid : nat -> string;
  (** [Date.parse]: [None] is NaN *)
  Date_parse : string -> date;
  (** ECMAScript [StringToNumber] *)
  StringToNumber : string -> number;
  (** ECMAScript [Number::toString] on a finite number *)
  NumberToString : Q -> string;
  (** [Date.prototype.toISOString] on a valid time value *)
  toISOString : Z -> string
}.

Section WithHost.
Variable H : Host.

(** ECMAScript [ToNumber] (a Date converts to its time value). *)
Definition ToNumber (v : value) : number :=
  match v with
  | VUndefined => NaN
  | VNull => num 0
  | VBool true => num 1
  | VBool false => num 0
  | VNumber n => n
  | VString s => StringToNumber H s
  | VDate d => getTime d
  end.

(** [new Date(v)] for one argument: a Date is copied, a string is
    parsed, anything else is converted to a number. *)
Definition new_Date_of (v : value) : date :=
  match v with
  | VDate d => TimeClip (getTime d)
  | VString s => match Date_parse H s with
                 | Some t => Date_of_ms t
                 | None => None
                 end
  | _ => TimeClip (ToNumber v)
  end.
End WithHost.

End JS.

(* ================================================================== *)
(** ** The store: data model *)
(* ================================================================== *)

Module Store.
Import JS.

(** [TaskDependency]: [{ taskId, type }]. *)
Record TaskDependency : Type := {
  dep_taskId : string;
  dep_type : string
}.

(** A task as the store holds it.  [startDate], [endDate] and
    [completion] are values and not dates or numbers: [updateTask] copies
    what it is given into them. *)
Record Task : Type := {
  t_id : string;
  t_name : string;
  t_description : string;
  startDate : value;
  endDate : value;
  completion : value;
  dependencies : list TaskDependency;
  projectId : string;
  t_createdAt : date;
  t_updatedAt : date
}.

Record Project : Type := {
  p_id : string;
  p_name : string;
  p_description : string;
  tasks : list Task;
  p_createdAt : date;
  p_updatedAt : date
}.

(** The state of the store (its data part). *)
Record State : Type := {
  projects : list Project;
  currentProject : option Project;
  loading : bool;
  error : option string
}.

(** The argument of [createTask].  [td_name] and [td_description] are
    [None] when the key is absent; [td_dependencies] is [None] when the
    field is not an array. *)
Record TaskData : Type := {
  td_name : option string;
  td_description : option string;
  td_startDate : value;
  td_endDate : value;
  td_completion : value;
  td_dependencies : option (list TaskDependency)
}.

(** The [updates] argument of [updateTask] ([Partial<Task>]): [None] for
    a key that is absent.  The key [updatedAt] is left out: whatever it
    holds, [updateTask] writes [updatedAt: new Date()] over it. *)
Record TaskUpdates : Type := {
  tu_id : option string;
  tu_name : option string;
  tu_description : option string;
  tu_startDate : option value;
  tu_endDate : option value;
  tu_completion : option value;
  tu_dependencies : option (list TaskDependency);
  tu_projectId : option string;
  tu_createdAt : option date
}.

(** The [updates] argument of [updateProject] ([Partial<Project>]). *)
Record ProjectUpdates : Type := {
  pu_id : option string;
  pu_name : option string;
  pu_description : option string;
  pu_tasks : option (list Task);
  pu_createdAt : option date
}.

(** The store together with the number of clock readings and of
    identifiers consumed so far. *)
Record World : Type := {
  state : State;
  tick : nat;
  ids : nat
}.

(** The initial state of the store. *)
Definition initial_state : State :=
  {| projects := []; currentProject := None; loading := false; error := None |}.

Definition initial_world : World :=
  {| state := initial_state; tick := 0; ids := 0 |}.

(** *** The monad of store operations *)

Definition M (A : Type) : Type := World -> outcome A * World.

Definition ret {A} (a : A) : M A := fun w => (Returned a, w).

Definition bind {A B} (m : M A) (k : A -> M B) : M B :=
  fun w =>
    match m w with
    | (Returned a, w') => k a w'
    | (Thrown e, w') => (Thrown e, w')
    end.

(** [throw new Error(message)]. *)
Definition throw {A} (message : string) : M A := fun w => (Thrown message, w).

(** [try { body } catch (err) { handler(err.message) }]. *)
Definition try_catch {A} (body : M A) (handler : string -> M A) : M A :=
  fun w =>
    match body w with
    | (Returned a, w') => (Returned a, w')
    | (Thrown e, w') => handler e w'
    end.

Notation "x <- m ;; k" := (bind m (fun x => k))
  (at level 61, m at next level, right associativity).
Notation "m ;;; k" := (bind m (fun _ => k))
  (at level 61, right associativity).

(** [get()]. *)
Definition get : M State := fun w => (Returned (state w), w).

Definition put (s : State) : M unit :=
  fun w => (Returned tt, {| state := s; tick := tick w; ids := ids w |}).

(** [set(fn)]: the state is replaced by what [fn] computes from it.
    The write of the [persist] middleware that follows (it calls
    [serialize] on the persisted part of the new state) changes nothing in
    the store and is left out. *)
Definition set_with (fn : State -> M State) : M unit :=
  s <- get ;; s' <- fn s ;; put s'.

(** The partial updates of the source: [set({ loading: true, error:
    null })] and [set({ error: message, loading: false })]. *)
Definition begin_loading (s : State) : State :=
  {| projects := projects s; currentProject := currentProject s;
     loading := true; error := None |}.

Definition failed (message : string) (s : State) : State :=
  {| projects := projects s; currentProject := currentProject s;
     loading := false; error := Some message |}.

Definition set_loading_start : M unit :=
  set_with (fun s => ret (begin_loading s)).

Definition set_failure (message : string) : M unit :=
  set_with (fun s => ret (failed message s)).

(** [String.prototype.concat] in a template literal. *)
Definition template (prefix message : string) : string :=
  String.append prefix message.

Section WithHost.
Variable H : Host.

(** [Date.now()]. *)
Definition Date_now : M Z :=
  fun w => (Returned (clock H (tick w)),
            {| state := state w; tick := S (tick w); ids := ids w |}).

(** [new Date()]. *)
Definition new_Date : M date :=
  now <- Date_now ;; ret (Date_of_ms now).

(** [uuidv4()]. *)
Definition uuidv4 : M string :=
  fun w => (Returned (uuid H (ids w)),
            {| state := state w; tick := tick w; ids := S (ids w) |}).

(** [d.toISOString()]: a [RangeError] on an invalid Date. *)
Definition Date_toISOString (d : date) : M string :=
  match d with
  | Some t => ret (toISOString H t)
  | None => throw "Invalid time value"
  end.

(** [xs.map(f)] for a callback with effects, left to right. *)
Fixpoint mapM {A B} (f : A -> M B) (xs : list A) : M (list B) :=
  match xs with
  | [] => ret []
  | x :: rest => y <- f x ;; ys <- mapM f rest ;; ret (y :: ys)
  end.

(** *** Project operations *)

(** The [catch] block shared by the [async] operations: record the
    failure, reset [loading], re-throw. *)
Definition fail_with (prefix : string) (message : string) : M unit :=
  set_failure (template prefix message) ;;; throw message.

(** [createProject(name, description = '')]. *)
Definition createProject (name description : string) : M unit :=
  try_catch
    (set_loading_start ;;;
     id <- uuidv4 ;;
     createdAt <- new_Date ;;
     updatedAt <- new_Date ;;
     let newProject :=
       {| p_id := id; p_name := name; p_description := description;
          tasks := []; p_createdAt := createdAt; p_updatedAt := updatedAt |} in
     set_with (fun s =>
       ret {| projects := projects s ++ [newProject];
              currentProject := Some newProject;
              loading := false; error := error s |}))
    (fail_with "Échec de création du projet: ").

(** The value of a key of [{ ...old, ...updates }]. *)
Definition overridden {A} (old : A) (upd : option A) : A :=
  match upd with
  | Some a => a
  | None => old
  end.

(** [{ ...project, ...updates, updatedAt: new Date() }]. *)
Definition merge_project (project : Project) (updates : ProjectUpdates)
    (now : date) : Project :=
  {| p_id := overridden (p_id project) (pu_id updates);
     p_name := overridden (p_name project) (pu_name updates);
     p_description := overridden (p_description project) (pu_description updates);
     tasks := overridden (tasks project) (pu_tasks updates);
     p_createdAt := overridden (p_createdAt project) (pu_createdAt updates);
     p_updatedAt := now |}.

(** The callback of [state.projects.map] in [updateProject]. *)
Definition updated_project (projectId : string) (updates : ProjectUpdates)
    (project : Project) : M Project :=
  if String.eqb (p_id project) projectId
  then now <- new_Date ;; ret (merge_project project updates now)
  else ret project.

(** [updateProject(projectId, updates)]. *)
Definition updateProject (projectId : string) (updates : ProjectUpdates) : M unit :=
  try_catch
    (set_loading_start ;;;
     set_with (fun s =>
       updatedProjects <- mapM (updated_project projectId updates) (projects s) ;;
       ret {| projects := updatedProjects;
              currentProject :=
                match currentProject s with
                | Some cp =>
                    if String.eqb (p_id cp) projectId
                    then find (fun p => String.eqb (p_id p) projectId) updatedProjects
                    else Some cp
                | None => None
                end;
              loading := false; error := error s |}))
    (fail_with "Échec de mise à jour du projet: ").

(** [deleteProject(projectId)]. *)
Definition deleteProject (projectId : string) : M unit :=
  try_catch
    (set_loading_start ;;;
     set_with (fun s =>
       ret {| projects := filter (fun p => negb (String.eqb (p_id p) projectId)) (projects s);
              currentProject :=
                match currentProject s with
                | Some cp => if String.eqb (p_id cp) projectId then None else Some cp
                | None => None
                end;
              loading := false; error := error s |}))
    (fail_with "Échec de suppression du projet: ").

(** [selectProject(projectId)]: the failure is recorded and not
    re-thrown, and [loading] is not touched. *)
Definition selectProject (projectId : string) : M unit :=
  try_catch
    (s <- get ;;
     match find (fun p => String.eqb (p_id p) projectId) (projects s) with
     | None =>
         throw (String.append "Projet avec ID "
                  (String.append projectId " non trouvé"))
     | Some project =>
         set_with (fun s =>
           ret {| projects := projects s; currentProject := Some project;
                  loading := loading s; error := None |})
     end)
    (fun message =>
       set_with (fun s =>
         ret {| projects := projects s; currentProject := currentProject s;
                loading := loading s;
                error := Some (template "Échec de sélection du projet: " message) |})).

(** *** Task operations *)

(** The tail every task operation shares: the rebuilt project
    [{ ...state.currentProject, tasks, updatedAt: new Date() }] replaces
    the entries of [projects] that carry its id and becomes the current
    project. *)
Definition rebuilt (cp : Project) (newTasks : list Task) (now : date) : Project :=
  {| p_id := p_id cp; p_name := p_name cp; p_description := p_description cp;
     tasks := newTasks; p_createdAt := p_createdAt cp; p_updatedAt := now |}.

Definition install (updatedProject : Project) (s : State) : State :=
  {| projects := map (fun p => if String.eqb (p_id p) (p_id updatedProject)
                               then updatedProject else p) (projects s);
     currentProject := Some updatedProject;
     loading := false; error := error s |}.

(** [set((state) => { if (!state.currentProject) return state; ... })]
    with [change] computing the new task list. *)
Definition update_current (change : list Task -> M (list Task)) : M unit :=
  set_with (fun s =>
    match currentProject s with
    | None => ret s
    | Some cp =>
        newTasks <- change (tasks cp) ;;
        now <- new_Date ;;
        ret (install (rebuilt cp newTasks now) s)
    end).

(** The opening of every task operation: [loading] is raised, and the
    operation throws when no project is selected. *)
Definition require_current : M Project :=
  set_loading_start ;;;
  s <- get ;;
  match currentProject s with
  | None => throw "Aucun projet sélectionné"
  | Some cp => ret cp
  end.

(** The date handling of [createTask] (the inner [try] block and its
    [catch]). *)
Definition resolve_dates (taskData : TaskData) : M (date * date) :=
  try_catch
    (startDate0 <-
       match td_startDate taskData with
       | VDate d => ret (TimeClip (getTime d))
       | VString _ | VNumber _ => ret (new_Date_of H (td_startDate taskData))
       | _ => new_Date
       end ;;
     endDate0 <-
       match td_endDate taskData with
       | VDate d => ret (TimeClip (getTime d))
       | VString _ | VNumber _ => ret (new_Date_of H (td_endDate taskData))
       | _ => now <- Date_now ;; ret (Date_of_ms (now + ONE_WEEK))
       end ;;
     startDate <- (if invalid startDate0 then new_Date else ret startDate0) ;;
     let endDate1 :=
       if invalid endDate0 then Date_plus startDate ONE_WEEK else endDate0 in
     let endDate :=
       if Date_le endDate1 startDate then Date_plus startDate ONE_DAY else endDate1 in
     ret (startDate, endDate))
    (fun _ =>
       startDate <- new_Date ;;
       now <- Date_now ;;
       ret (startDate, Date_of_ms (now + ONE_WEEK))).

(** [text || fallback] on an optional string. *)
Definition string_or (text : option string) (fallback : string) : string :=
  match text with
  | Some s => if String.eqb s "" then fallback else s
  | None => fallback
  end.

(** [Math.min(100, Math.max(0, taskData.completion || 0))]. *)
Definition clamp_completion (c : value) : value :=
  VNumber (Math_min (num 100)
             (Math_max (num 0) (ToNumber H (or_else c (VNumber (num 0)))))).

(** [createTask(taskData)]. *)
Definition createTask (taskData : TaskData) : M unit :=
  try_catch
    (currentProject <- require_current ;;
     dates <- resolve_dates taskData ;;
     let '(startDate, endDate) := dates in
     (* the [console.log] record of the resolved dates *)
     Date_toISOString startDate ;;;
     Date_toISOString endDate ;;;
     id <- uuidv4 ;;
     createdAt <- new_Date ;;
     updatedAt <- new_Date ;;
     let newTask :=
       {| t_id := id;
          t_name := string_or (td_name taskData) "Nouvelle tâche";
          t_description := string_or (td_description taskData) "";
          startDate := VDate startDate;
          endDate := VDate endDate;
          completion := clamp_completion (td_completion taskData);
          dependencies := match td_dependencies taskData with
                          | Some deps => deps
                          | None => []
                          end;
          projectId := p_id currentProject;
          t_createdAt := createdAt;
          t_updatedAt := updatedAt |} in
     update_current (fun ts => ret (ts ++ [newTask])))
    (fail_with "Échec de création de la tâche: ").

(** The treatment of [updates.startDate] and of [updates.endDate] in
    [updateTask]: a truthy value is converted and, when the conversion is
    invalid, the key is deleted; a falsy value stays as it was given. *)
Definition process_date_update (field : option value) : option value :=
  match field with
  | None => None
  | Some v =>
      if truthy v
      then (let d := new_Date_of H v in
            if invalid d then None else Some (VDate d))
      else Some v
  end.

(** [{ ...task, ...processedUpdates, updatedAt: new Date() }]. *)
Definition merge_task (task : Task) (updates : TaskUpdates) (now : date) : Task :=
  {| t_id := overridden (t_id task) (tu_id updates);
     t_name := overridden (t_name task) (tu_name updates);
     t_description := overridden (t_description task) (tu_description updates);
     startDate := overridden (startDate task) (process_date_update (tu_startDate updates));
     endDate := overridden (endDate task) (process_date_update (tu_endDate updates));
     completion := overridden (completion task) (tu_completion updates);
     dependencies := overridden (dependencies task) (tu_dependencies updates);
     projectId := overridden (projectId task) (tu_projectId updates);
     t_createdAt := overridden (t_createdAt task) (tu_createdAt updates);
     t_updatedAt := now |}.

(** The callback of [tasks.map] in [updateTask]. *)
Definition updated_task (taskId : string) (updates : TaskUpdates)
    (task : Task) : M Task :=
  if String.eqb (t_id task) taskId
  then now <- new_Date ;; ret (merge_task task updates now)
  else ret task.

(** [updateTask(taskId, updates)]. *)
Definition updateTask (taskId : string) (updates : TaskUpdates) : M unit :=
  try_catch
    (require_current ;;;
     update_current (mapM (updated_task taskId updates)))
    (fail_with "Échec de mise à jour de la tâche: ").

(** [{ ...task, dependencies: task.dependencies.filter(keep) }]. *)
Definition with_dependencies (task : Task) (deps : list TaskDependency)
    (updatedAt : date) : Task :=
  {| t_id := t_id task; t_name := t_name task;
     t_description := t_description task;
     startDate := startDate task; endDate := endDate task;
     completion := completion task; dependencies := deps;
     projectId := projectId task; t_createdAt := t_createdAt task;
     t_updatedAt := updatedAt |}.

(** The task list [deleteTask] computes: the task is removed
    ([updatedTasks]) and the dependencies that refer to it are removed
    from the other tasks ([cleanedTasks]). *)
Definition cleanedTasks (taskId : string) (ts : list Task) : list Task :=
  let updatedTasks :=
    filter (fun task => negb (String.eqb (t_id task) taskId)) ts in
  map (fun task =>
         with_dependencies task
           (filter (fun dep => negb (String.eqb (dep_taskId dep) taskId))
                   (dependencies task))
           (t_updatedAt task))
      updatedTasks.

(** [deleteTask(taskId)]. *)
Definition deleteTask (taskId : string) : M unit :=
  try_catch
    (require_current ;;;
     update_current (fun ts => ret (cleanedTasks taskId ts)))
    (fail_with "Échec de suppression de la tâche: ").

(** [dep.taskId === dependency.taskId && dep.type === dependency.type]. *)
Definition same_dependency (dependency dep : TaskDependency) : bool :=
  String.eqb (dep_taskId dep) (dep_taskId dependency)
  && String.eqb (dep_type dep) (dep_type dependency).

(** The callback of [tasks.map] in [addDependency]: another task is
    returned as it is, and so is the task when it already has an equal
    dependency. *)
Definition with_added_dependency (taskId : string) (dependency : TaskDependency)
    (task : Task) : M Task :=
  if negb (String.eqb (t_id task) taskId) then ret task
  else
    match find (same_dependency dependency) (dependencies task) with
    | Some _ => ret task
    | None =>
        now <- new_Date ;;
        ret (with_dependencies task (dependencies task ++ [dependency]) now)
    end.

(** [addDependency(taskId, dependency)]. *)
Definition addDependency (taskId : string) (dependency : TaskDependency) : M unit :=
  try_catch
    (require_current ;;;
     update_current (mapM (with_added_dependency taskId dependency)))
    (fail_with "Échec d'ajout de dépendance: ").

(** The callback of [tasks.map] in [removeDependency]. *)
Definition without_dependency (taskId dependencyTaskId : string)
    (task : Task) : M Task :=
  if negb (String.eqb (t_id task) taskId) then ret task
  else
    now <- new_Date ;;
    ret (with_dependencies task
           (filter (fun dep => negb (String.eqb (dep_taskId dep) dependencyTaskId))
                   (dependencies task))
           now).

(** [removeDependency(taskId, dependencyTaskId)]. *)
Definition removeDependency (taskId dependencyTaskId : string) : M unit :=
  try_catch
    (require_current ;;;
     update_current (mapM (without_dependency taskId dependencyTaskId)))
    (fail_with "Échec de suppression de dépendance: ").

(** [clearError()]. *)
Definition clearError : M unit :=
  set_with (fun s =>
    ret {| projects := projects s; currentProject := currentProject s;
           loading := loading s; error := None |}).

(** *** Sequences of operations *)

Inductive Op : Type :=
| CreateProject (name description : string)
| UpdateProject (projectId : string) (updates : ProjectUpdates)
| DeleteProject (projectId : string)
| SelectProject (projectId : string)
| CreateTask (taskData : TaskData)
| UpdateTask (taskId : string) (updates : TaskUpdates)
| DeleteTask (taskId : string)
| AddDependency (taskId : string) (dependency : TaskDependency)
| RemoveDependency (taskId dependencyTaskId : string)
| ClearError.

Definition perform (op : Op) : M unit :=
  match op with
  | CreateProject name description => createProject name description
  | UpdateProject projectId updates => updateProject projectId updates
  | DeleteProject projectId => deleteProject projectId
  | SelectProject projectId => selectProject projectId
  | CreateTask taskData => createTask taskData
  | UpdateTask taskId updates => updateTask taskId updates
  | DeleteTask taskId => deleteTask taskId
  | AddDependency taskId dependency => addDependency taskId dependency
  | RemoveDependency taskId dependencyTaskId => removeDependency taskId dependencyTaskId
  | ClearError => clearError
  end.

(** The world an operation leaves, whether it returned or threw. *)
Definition after (op : Op) (w : World) : World := snd (perform op w).

(** The world after a sequence of calls, first call first. *)
Definition run (ops : list Op) (w : World) : World :=
  fold_left (fun w op => after op w) ops w.

End WithHost.

End Store.

(* ================================================================== *)
(** ** Persistence: [serialize], [deserialize], [migrateLegacyStorage] *)
(* ================================================================== *)

Module Persist.
Import JS.

(** A JSON document: what [JSON.parse] returns. *)
Inductive json : Type :=
| Jnull
| Jbool (b : bool)
| Jnum (q : Q)
| Jstr (s : string)
| Jarr (items : list json)
| Jobj (members : list (string * json)).

(** A string as the persistence layer sees it: it is the empty string,
    or it is no JSON text, or it is the text of a document (and then it
    is represented by the document). *)
Inductive text : Type :=
| EmptyText
| NotJson
| JsonText (doc : json).

(** The [localStorage] slot ['project-storage']: [getItem] returns
    [null] or a string. *)
Definition slot : Type := option text.

(** A run-time value: the state handed to [serialize] and the value
    [deserialize] returns.  An object is the list of its own enumerable
    properties in insertion order. *)
Inductive jsval : Type :=
| JUndefined
| JNull
| JBool (b : bool)
| JNumber (n : number)
| JString (s : string)
| JBigInt (z : Z)
| JDate (d : date)
| JArray (items : list jsval)
| JObject (fields : list (string * jsval)).

(** [obj[key]] on the property list of an object. *)
Fixpoint lookup {A} (key : string) (fields : list (string * A)) : option A :=
  match fields with
  | [] => None
  | (k, v) :: rest => if String.eqb k key then Some v else lookup key rest
  end.

(** A plain JSON value as a run-time value. *)
Fixpoint of_json (j : json) : jsval :=
  match j with
  | Jnull => JNull
  | Jbool b => JBool b
  | Jnum q => JNumber (Fin q)
  | Jstr s => JString s
  | Jarr items => JArray (map of_json items)
  | Jobj members => JObject (map (fun '(k, x) => (k, of_json x)) members)
  end.

(** [JSON.parse(str)]: a [SyntaxError] on what is no JSON text. *)
Definition JSON_parse (str : text) : outcome json :=
  match str with
  | JsonText doc => Returned doc
  | _ => Thrown "Unexpected end of JSON input"
  end.

(** ECMAScript [ToBoolean] on run-time values and on parsed values
    ([None] is [undefined]). *)
Definition truthy_js (v : jsval) : bool :=
  match v with
  | JUndefined | JNull => false
  | JBool b => b
  | JNumber n => truthy (VNumber n)
  | JString s => negb (String.eqb s "")
  | JBigInt z => negb (Z.eqb z 0)
  | JDate _ | JArray _ | JObject _ => true
  end.

Definition truthy_json (v : option json) : bool :=
  match v with
  | None | Some Jnull => false
  | Some (Jbool b) => b
  | Some (Jnum q) => negb (is_zero q)
  | Some (Jstr s) => negb (String.eqb s "")
  | Some (Jarr _) | Some (Jobj _) => true
  end.

(** [typeof v === 'object'] for a truthy [v]. *)
Definition is_object_js (v : jsval) : bool :=
  match v with
  | JDate _ | JArray _ | JObject _ => true
  | _ => false
  end.

Definition is_object_json (v : json) : bool :=
  match v with
  | Jarr _ | Jobj _ => true
  | _ => false
  end.

(** [const dateFields = ['createdAt', 'updatedAt', 'startDate', 'endDate']]. *)
Definition dateFields : list string :=
  ["createdAt"; "updatedAt"; "startDate"; "endDate"].

(** [{ projects: [], currentProject: null }]. *)
Definition empty_state : jsval :=
  JObject [("projects", JArray []); ("currentProject", JNull)].

Section WithHost.
Variable H : Host.

(** The default date of a field, written three times in the source:
    {[ if (field === 'createdAt' || field === 'updatedAt') new Date()
       else if (field === 'startDate') new Date()
       else if (field === 'endDate') new Date(Date.now() + 7 days) ]}
    [None] when no branch applies (the field is then left alone).  Each
    branch reads the clock once, at position [tk]. *)
Definition default_date (field : string) (tk : nat) : option date :=
  if String.eqb field "createdAt" || String.eqb field "updatedAt"
  then Some (Date_of_ms (clock H tk))
  else if String.eqb field "startDate"
  then Some (Date_of_ms (clock H tk))
  else if String.eqb field "endDate"
  then Some (Date_of_ms (clock H tk + ONE_WEEK))
  else None.

(** One assignment [obj[field] = <default date>]: the Dates assigned so
    far are kept in [assigned], most recent first. *)
Definition assign_default (field : string) (acc : list (string * date) * nat)
    : list (string * date) * nat :=
  let '(assigned, tk) := acc in
  match default_date field tk with
  | Some d => ((field, d) :: assigned, S tk)
  | None => (assigned, tk)
  end.

(** *** [serialize] *)

(** The [dateFields.forEach] of [processForSerialization]: a field that
    holds an invalid Date is assigned its default. *)
Definition fix_invalid_dates (fields : list (string * jsval)) (tk : nat)
    : list (string * date) * nat :=
  fold_left
    (fun acc field =>
       match lookup field fields with
       | Some (JDate None) => assign_default field acc
       | _ => acc
       end)
    dateFields ([], tk).

(** [processForSerialization(obj)].

    The object case copies the properties ([{ ...obj }]), runs the date
    loop, then visits every key: a truthy value of type ['object'] is
    replaced by the result of the recursive call.  A Date is such a value
    and has no own enumerable property, so that [{ ...obj }] is [{}] and
    the call on a Date returns [{}]; this is the first equation below and
    the [Some _] branch of the visit (a key to which the date loop has
    just assigned a Date). *)
Fixpoint processForSerialization (obj : jsval) (tk : nat) {struct obj}
    : jsval * nat :=
  match obj with
  | JDate _ => (JObject [], tk)
  | JArray items =>
      let '(items', tk') :=
        (fix each (l : list jsval) (tk : nat) : list jsval * nat :=
           match l with
           | [] => ([], tk)
           | x :: rest =>
               let '(x', tk1) := processForSerialization x tk in
               let '(rest', tk2) := each rest tk1 in
               (x' :: rest', tk2)
           end) items tk in
      (JArray items', tk')
  | JObject fields =>
      let '(assigned, tk0) := fix_invalid_dates fields tk in
      let '(processed, tk') :=
        (fix each (l : list (string * jsval)) (tk : nat)
           : list (string * jsval) * nat :=
           match l with
           | [] => ([], tk)
           | (key, x) :: rest =>
               let '(x', tk1) :=
                 match lookup key assigned with
                 | Some _ => (JObject [], tk)
                 | None =>
                     if truthy_js x && is_object_js x
                     then processForSerialization x tk
                     else (x, tk)
                 end in
               let '(rest', tk2) := each rest tk1 in
               ((key, x') :: rest', tk2)
           end) fields tk0 in
      (JObject processed, tk')
  | _ => (obj, tk)
  end.

(** [JSON.stringify]: the value of one property ([None] when the
    property is skipped, as for [undefined]); a [TypeError] on a
    BigInt.  [Date.prototype.toJSON] gives [null] for an invalid Date. *)
Fixpoint SerializeJSONProperty (v : jsval) : outcome (option json) :=
  match v with
  | JUndefined => Returned None
  | JNull => Returned (Some Jnull)
  | JBool b => Returned (Some (Jbool b))
  | JNumber (Fin q) => Returned (Some (Jnum q))
  | JNumber _ => Returned (Some Jnull)
  | JString s => Returned (Some (Jstr s))
  | JBigInt _ => Thrown "Do not know how to serialize a BigInt"
  | JDate (Some t) => Returned (Some (Jstr (toISOString H t)))
  | JDate None => Returned (Some Jnull)
  | JArray items =>
      match
        (fix each (l : list jsval) : outcome (list json) :=
           match l with
           | [] => Returned []
           | x :: rest =>
               match SerializeJSONProperty x with
               | Thrown e => Thrown e
               | Returned x' =>
                   match each rest with
                   | Thrown e => Thrown e
                   | Returned rest' =>
                       Returned (match x' with
                                 | Some j => j
                                 | None => Jnull
                                 end :: rest')
                   end
               end
           end) items
      with
      | Thrown e => Thrown e
      | Returned items' => Returned (Some (Jarr items'))
      end
  | JObject fields =>
      match
        (fix each (l : list (string * jsval)) : outcome (list (string * json)) :=
           match l with
           | [] => Returned []
           | (key, x) :: rest =>
               match SerializeJSONProperty x with
               | Thrown e => Thrown e
               | Returned x' =>
                   match each rest with
                   | Thrown e => Thrown e
                   | Returned rest' =>
                       Returned (match x' with
                                 | Some j => (key, j) :: rest'
                                 | None => rest'
                                 end)
                   end
               end
           end) fields
      with
      | Thrown e => Thrown e
      | Returned members => Returned (Some (Jobj members))
      end
  end.

(** [JSON.stringify(v)].  For [undefined] the result is [undefined],
    which the storage would keep as the text [undefined]: no JSON text. *)
Definition JSON_stringify (v : jsval) : outcome text :=
  match SerializeJSONProperty v with
  | Thrown e => Thrown e
  | Returned (Some doc) => Returned (JsonText doc)
  | Returned None => Returned NotJson
  end.

(** [serialize(state)]. *)
Definition serialize (state : jsval) (tk : nat) : text * nat :=
  let '(processedState, tk') := processForSerialization state tk in
  match JSON_stringify processedState with
  | Returned str => (str, tk')
  | Thrown _ =>
      (* catch: [return JSON.stringify({ projects: [], currentProject: null })] *)
      match JSON_stringify empty_state with
      | Returned str => (str, tk')
      | Thrown _ => (NotJson, tk')
      end
  end.

(** *** [deserialize] *)

(** [String(v)] for the elements of an array ([Array.prototype.join]):
    [null] contributes the empty string. *)
Fixpoint ToString_json (v : json) : string :=
  match v with
  | Jnull => ""
  | Jbool true => "true"
  | Jbool false => "false"
  | Jnum q => NumberToString H q
  | Jstr s => s
  | Jarr items =>
      (fix join (l : list json) : string :=
         match l with
         | [] => ""
         | [x] => ToString_json x
         | x :: rest => String.append (ToString_json x) (String.append "," (join rest))
         end) items
  | Jobj _ => "[object Object]"
  end.

(** [new Date(s)] for a string. *)
Definition Date_of_string (s : string) : date :=
  match Date_parse H s with
  | Some t => Date_of_ms t
  | None => None
  end.

(** [new Date(v)] for a parsed value: a string is parsed; an array or
    an object is converted to a primitive first, which is a string. *)
Definition new_Date_of_json (v : json) : date :=
  match v with
  | Jnull => Date_of_ms 0
  | Jbool true => Date_of_ms 1
  | Jbool false => Date_of_ms 0
  | Jnum q => TimeClip (Fin q)
  | Jstr s => Date_of_string s
  | Jarr _ | Jobj _ => Date_of_string (ToString_json v)
  end.

(** The [dateFields.forEach] of [convertDates]: a field that holds a
    non-empty string is assigned the Date it parses to, or its default
    when that Date is invalid. *)
Definition convert_date_strings (members : list (string * json)) (tk : nat)
    : list (string * date) * nat :=
  fold_left
    (fun acc field =>
       match lookup field members with
       | Some (Jstr s) =>
           if negb (String.eqb s "")
           then (let d := Date_of_string s in
                 if negb (invalid d)
                 then ((field, d) :: fst acc, snd acc)
                 else assign_default field acc)
           else acc
       | _ => acc
       end)
    dateFields ([], tk).

(** [converted[field]] after the date loop, as a truth value and as the
    Date the comparison uses ([it instanceof Date ? it : new Date(it)]). *)
Definition converted_truthy (assigned : list (string * date))
    (members : list (string * json)) (field : string) : bool :=
  match lookup field assigned with
  | Some _ => true
  | None => truthy_json (lookup field members)
  end.

Definition converted_Date (assigned : list (string * date))
    (members : list (string * json)) (field : string) : date :=
  match lookup field assigned with
  | Some d => d
  | None =>
      match lookup field members with
      | Some v => new_Date_of_json v
      | None => None
      end
  end.

(** "Additional validation for task dates": when both fields are truthy
    and [endDate <= startDate], [endDate] is assigned the day after
    [startDate]. *)
Definition order_dates (assigned : list (string * date))
    (members : list (string * json)) : list (string * date) :=
  if converted_truthy assigned members "startDate"
     && converted_truthy assigned members "endDate"
  then
    let startDate := converted_Date assigned members "startDate" in
    let endDate := converted_Date assigned members "endDate" in
    if Date_le endDate startDate
    then ("endDate", Date_plus startDate ONE_DAY) :: assigned
    else assigned
  else assigned.

(** [convertDates(obj)].  As in [processForSerialization], the visit of
    the keys calls [convertDates] on every truthy value of type
    ['object'], the Dates the function has just assigned included, and
    the call on a Date returns [{}]. *)
Fixpoint convertDates (obj : json) (tk : nat) {struct obj} : jsval * nat :=
  match obj with
  | Jarr items =>
      let '(items', tk') :=
        (fix each (l : list json) (tk : nat) : list jsval * nat :=
           match l with
           | [] => ([], tk)
           | x :: rest =>
               let '(x', tk1) := convertDates x tk in
               let '(rest', tk2) := each rest tk1 in
               (x' :: rest', tk2)
           end) items tk in
      (JArray items', tk')
  | Jobj members =>
      let '(assigned0, tk0) := convert_date_strings members tk in
      let assigned := order_dates assigned0 members in
      let '(converted, tk') :=
        (fix each (l : list (string * json)) (tk : nat)
           : list (string * jsval) * nat :=
           match l with
           | [] => ([], tk)
           | (key, x) :: rest =>
               let '(x', tk1) :=
                 match lookup key assigned with
                 | Some _ => (JObject [], tk)
                 | None =>
                     if truthy_json (Some x) && is_object_json x
                     then convertDates x tk
                     else (of_json x, tk)
                 end in
               let '(rest', tk2) := each rest tk1 in
               ((key, x') :: rest', tk2)
           end) members tk0 in
      (JObject converted, tk')
  | _ => (of_json obj, tk)
  end.

(** [deserialize(str)]. *)
Definition deserialize (str : text) (tk : nat) : jsval * nat :=
  match JSON_parse str with
  | Returned parsed => convertDates parsed tk
  | Thrown _ =>
      (* catch: [return { projects: [], currentProject: null }] *)
      (empty_state, tk)
  end.

(** *** [migrateLegacyStorage] *)

Definition obind {A B} (m : outcome A) (k : A -> outcome B) : outcome B :=
  match m with
  | Returned a => k a
  | Thrown e => Thrown e
  end.

(** [v[key]] for one of the keys the guard reads ([state], [projects],
    [tasks] and the date fields): a [TypeError] on [null], the member of
    an object, [undefined] on anything else (numbers, booleans, strings
    and arrays have no property of these names). *)
Definition prop (v : json) (key : string) : outcome (option json) :=
  match v with
  | Jnull => Thrown "Cannot read properties of null"
  | Jobj members => Returned (lookup key members)
  | _ => Returned None
  end.

(** The one-character strings of a string. *)
Fixpoint characters (s : string) : list json :=
  match s with
  | EmptyString => []
  | String c rest => Jstr (String c EmptyString) :: characters rest
  end.

(** The values [for (const x of v)] runs through: the elements of an
    array, the characters of a string, a [TypeError] on anything else. *)
Definition iterate (v : json) : outcome (list json) :=
  match v with
  | Jarr items => Returned items
  | Jstr s => Returned (characters s)
  | _ => Thrown "is not iterable"
  end.

(** [for (const field of fields) { if (obj[field] && typeof obj[field]
    === 'string') { if (isNaN(new Date(obj[field]).getTime())) {
    needsMigration = true; break; } } }], returning [needsMigration]. *)
Fixpoint check_fields (obj : json) (fields : list string)
    (needsMigration : bool) : outcome bool :=
  match fields with
  | [] => Returned needsMigration
  | field :: rest =>
      obind (prop obj field) (fun v =>
        match v with
        | Some (Jstr s) =>
            if negb (String.eqb s "") && invalid (Date_of_string s)
            then Returned true
            else check_fields obj rest needsMigration
        | _ => check_fields obj rest needsMigration
        end)
  end.

(** The loop over [project.tasks]; it ends at the first task after
    which [needsMigration] is set. *)
Fixpoint check_tasks (ts : list json) (needsMigration : bool) : outcome bool :=
  match ts with
  | [] => Returned needsMigration
  | task :: rest =>
      obind (check_fields task ["startDate"; "endDate"; "createdAt"; "updatedAt"]
               needsMigration)
        (fun needsMigration =>
           if needsMigration then Returned true
           else check_tasks rest needsMigration)
  end.

(** The loop over [parsed.state.projects]. *)
Fixpoint check_projects (ps : list json) (needsMigration : bool) : outcome bool :=
  match ps with
  | [] => Returned needsMigration
  | project :: rest =>
      obind (check_fields project ["createdAt"; "updatedAt"] needsMigration)
        (fun needsMigration =>
      obind (prop project "tasks") (fun project_tasks =>
      obind (if truthy_json project_tasks
             then match project_tasks with
                  | Some v => obind (iterate v) (fun ts => check_tasks ts needsMigration)
                  | None => Returned needsMigration
                  end
             else Returned needsMigration)
        (fun needsMigration =>
           if needsMigration then Returned true
           else check_projects rest needsMigration)))
  end.

(** [migrateLegacyStorage()], as a function of the content of the slot:
    the result is the content it leaves ([None] after [removeItem]). *)
Definition migrateLegacyStorage (stored : slot) : slot :=
  match stored with
  | None | Some EmptyText => stored
  | Some storedData =>
      match JSON_parse storedData with
      | Thrown _ => None
      | Returned parsed =>
          match
            obind (prop parsed "state") (fun parsed_state =>
              if truthy_json parsed_state
              then match parsed_state with
                   | Some st => obind (prop st "projects") (fun ps => Returned (Some ps))
                   | None => Returned None
                   end
              else Returned None)
          with
          | Thrown _ => None
          | Returned (Some (Some projects)) =>
              if truthy_json (Some projects)
              then
                let needsMigration :=
                  match obind (iterate projects) (fun ps => check_projects ps false) with
                  | Returned b => b
                  | Thrown _ => true
                  end in
                if needsMigration then None else stored
              else stored
          | Returned _ => stored
          end
      end
  end.

End WithHost.

End Persist.

(* ================================================================== *)
(** ** The persisted part of the store state as a run-time value *)
(* ================================================================== *)

Module Snapshot.
Import JS Store Persist.

Definition js_of_value (v : value) : jsval :=
  match v with
  | VUndefined => JUndefined
  | VNull => JNull
  | VBool b => JBool b
  | VNumber n => JNumber n
  | VString s => JString s
  | VDate d => JDate d
  end.

Definition js_of_dependency (dep : TaskDependency) : jsval :=
  JObject [("taskId", JString (dep_taskId dep)); ("type", JString (dep_type dep))].

(** The properties of a task, in the order [createTask] writes them. *)
Definition js_of_task (task : Task) : jsval :=
  JObject [("id", JString (t_id task));
           ("name", JString (t_name task));
           ("description", JString (t_description task));
           ("startDate", js_of_value (startDate task));
           ("endDate", js_of_value (endDate task));
           ("completion", js_of_value (completion task));
           ("dependencies", JArray (map js_of_dependency (dependencies task)));
           ("projectId", JString (projectId task));
           ("createdAt", JDate (t_createdAt task));
           ("updatedAt", JDate (t_updatedAt task))].

(** The properties of a project, in the order [createProject] writes
    them. *)
Definition js_of_project (project : Project) : jsval :=
  JObject [("id", JString (p_id project));
           ("name", JString (p_name project));
           ("description", JString (p_description project));
           ("tasks", JArray (map js_of_task (tasks project)));
           ("createdAt", JDate (p_createdAt project));
           ("updatedAt", JDate (p_updatedAt project))].

(** [partialize]: [{ projects: state.projects, currentProject:
    state.currentProject }]. *)
Definition partialize (s : State) : jsval :=
  JObject [("projects", JArray (map js_of_project (projects s)));
           ("currentProject",
            match currentProject s with
            | Some project => js_of_project project
            | None => JNull
            end)].

End Snapshot.

(* ================================================================== *)
(** ** A reference host *)
(* ================================================================== *)

(** A concrete host on which the operations can be run: a clock that
    advances by one millisecond per reading from 2025-06-15T15:06:40Z,
    identifiers numbered in decimal, and the date and number conversions
    restricted to the formats ECMAScript fixes (the simplified ISO 8601
    format of [toISOString] for years 0000 to 9999, and decimal integer
    literals).  The theorems hold for every host; this one serves the
    examples. *)
Module Reference.
Import JS.

Definition digit_char (d : Z) : Ascii.ascii :=
  Ascii.ascii_of_nat (48 + Z.to_nat d).

(** The [width] least significant decimal digits of [n], most
    significant first. *)
Fixpoint pad (width : nat) (n : Z) (suffix : string) : string :=
  match width with
  | O => suffix
  | S w => pad w (n / 10) (String (digit_char (n mod 10)) suffix)
  end.

(** The number of days from 1970-01-01 to the given civil date
    (proleptic Gregorian calendar). *)
Definition days_from_civil (y m d : Z) : Z :=
  let y' := if m <=? 2 then y - 1 else y in
  let era := y' / 400 in
  let yoe := y' - era * 400 in
  let mp := (m + 9) mod 12 in
  let doy := (153 * mp + 2) / 5 + d - 1 in
  let doe := yoe * 365 + yoe / 4 - yoe / 100 + doy in
  era * 146097 + doe - 719468.

(** The civil date [(year, month, day)] of a day number. *)
Definition civil_from_days (days : Z) : Z * Z * Z :=
  let z := days + 719468 in
  let era := z / 146097 in
  let doe := z - era * 146097 in
  let yoe := (doe - doe / 1460 + doe / 36524 - doe / 146096) / 365 in
  let doy := doe - (365 * yoe + yoe / 4 - yoe / 100) in
  let mp := (5 * doy + 2) / 153 in
  let d := doy - (153 * mp + 2) / 5 + 1 in
  let m := if mp <? 10 then mp + 3 else mp - 9 in
  let y := yoe + era * 400 in
  ((if m <=? 2 then y + 1 else y), m, d).

(** [YYYY-MM-DDTHH:mm:ss.sssZ], with the expanded year [±YYYYYY]
    outside 0000..9999. *)
Definition reference_toISOString (t : Z) : string :=
  let days := t / ONE_DAY in
  let ms := t mod ONE_DAY in
  let '(y, m, d) := civil_from_days days in
  let year :=
    if (0 <=? y) && (y <=? 9999) then pad 4 y ""
    else String.append (if y <? 0 then "-" else "+") (pad 6 (Z.abs y) "") in
  String.concat ""
    [year; "-"; pad 2 m ""; "-"; pad 2 d ""; "T";
     pad 2 (ms / 3600000) ""; ":"; pad 2 ((ms / 60000) mod 60) ""; ":";
     pad 2 ((ms / 1000) mod 60) ""; "."; pad 3 (ms mod 1000) ""; "Z"].

Definition digit_of (c : Ascii.ascii) : option Z :=
  let n := Z.of_nat (Ascii.nat_of_ascii c) in
  if (48 <=? n) && (n <=? 57) then Some (n - 48) else None.

(** The value of a string of decimal digits. *)
Fixpoint decimal (s : string) (acc : Z) : option Z :=
  match s with
  | EmptyString => Some acc
  | String c rest =>
      match digit_of c with
      | Some d => decimal rest (10 * acc + d)
      | None => None
      end
  end.

(** The [len] digits of [s] from position [start]. *)
Definition field (s : string) (start len : nat) : option Z :=
  let sub := String.substring start len s in
  if Nat.eqb (String.length sub) len then decimal sub 0 else None.

Definition char_is (s : string) (pos : nat) (c : string) : bool :=
  String.eqb (String.substring pos 1 s) c.

Definition days_in_month (y m : Z) : Z :=
  days_from_civil (if m =? 12 then y + 1 else y) (if m =? 12 then 1 else m + 1) 1
  - days_from_civil y m 1.

(** A parser of the 24-character format above. *)
Definition reference_Date_parse (s : string) : date :=
  if Nat.eqb (String.length s) 24
     && char_is s 4 "-" && char_is s 7 "-" && char_is s 10 "T"
     && char_is s 13 ":" && char_is s 16 ":" && char_is s 19 "."
     && char_is s 23 "Z"
  then
    match field s 0 4, field s 5 2, field s 8 2,
          field s 11 2, field s 14 2, field s 17 2, field s 20 3 with
    | Some y, Some m, Some d, Some hh, Some mm, Some ss, Some ms =>
        if (1 <=? m) && (m <=? 12) && (1 <=? d) && (d <=? days_in_month y m)
           && (hh <=? 23) && (mm <=? 59) && (ss <=? 59)
        then Some (days_from_civil y m d * ONE_DAY
                   + hh * 3600000 + mm * 60000 + ss * 1000 + ms)
        else None
    | _, _, _, _, _, _, _ => None
    end
  else None.

(** Decimal integer literals, with an optional minus sign; the empty
    string converts to 0. *)
Definition reference_StringToNumber (s : string) : number :=
  match s with
  | EmptyString => num 0
  | String "-"%char (String c rest) =>
      match decimal (String c rest) 0 with
      | Some n => num (- n)
      | None => NaN
      end
  | _ =>
      match decimal s 0 with
      | Some n => num n
      | None => NaN
      end
  end.

(** The decimal digits of a natural number. *)
Definition digits_of_nat (n : nat) : string :=
  DecimalString.NilEmpty.string_of_uint (Nat.to_uint n).

(** Integers are printed in decimal; another number as the quotient of
    two integers. *)
Definition reference_NumberToString (q : Q) : string :=
  let int_string (z : Z) :=
    String.append (if z <? 0 then "-" else "") (digits_of_nat (Z.abs_nat z)) in
  if Pos.eqb (Qden q) 1 then int_string (Qnum q)
  else String.append (int_string (Qnum q))
         (String.append "/" (digits_of_nat (Pos.to_nat (Qden q)))).

Definition host : Host :=
  {| clock := fun n => 1750000000000 + Z.of_nat n;
     uuid := digits_of_nat;
     Date_parse := reference_Date_parse;
     StringToNumber := reference_StringToNumber;
     NumberToString := reference_NumberToString;
     toISOString := reference_toISOString |}.

End Reference.

(* ================================================================== *)
(** ** The vocabulary of the specification *)
(* ================================================================== *)

Module Spec.
Import JS Store Persist.

(** "[endDate > startDate]": both are valid Dates and the end is the
    later instant. *)
Definition date_ordered (task : Task) : bool :=
  match startDate task, endDate task with
  | VDate (Some s), VDate (Some e) => s <? e
  | _, _ => false
  end.

(** "[completion] is an integer in [0, 100]". *)
Definition completion_in_bounds (task : Task) : bool :=
  match completion task with
  | VNumber (Fin q) =>
      Qle_bool (inject_Z 0) q && Qle_bool q (inject_Z 100)
      && (Qnum q mod Z.pos (Qden q) =? 0)
  | _ => false
  end.

(** Every task in the store: those of the entries of [projects] and
    those of [currentProject]. *)
Definition all_tasks (s : State) : list Task :=
  flat_map tasks (projects s)
  ++ match currentProject s with
     | Some cp => tasks cp
     | None => []
     end.

(** The task has a dependency entry whose [taskId] is [taskId]. *)
Definition refers_to (taskId : string) (task : Task) : bool :=
  existsb (fun dep => String.eqb (dep_taskId dep) taskId) (dependencies task).

(** "[currentProject] is null or identical to the unique element of
    [projects] with the same id". *)
Definition consistent (s : State) : Prop :=
  match currentProject s with
  | None => True
  | Some cp =>
      In cp (projects s)
      /\ forall p, In p (projects s) -> p_id p = p_id cp -> p = cp
  end.

(** The invariant behind it: the ids of the projects are pairwise
    distinct, they are identifiers the host has already issued, and the
    current project is an entry of [projects]. *)
Definition well_formed (H : Host) (w : World) : Prop :=
  NoDup (map p_id (projects (state w)))
  /\ (forall p, In p (projects (state w)) ->
               exists k, (k < ids w)%nat /\ p_id p = uuid H k)
  /\ match currentProject (state w) with
     | None => True
     | Some cp => In cp (projects (state w))
     end.

(** What a task operation does to [projects] and [currentProject]: it
    leaves them alone, or it installs a rebuilt current project. *)
Definition task_effect (w w' : World) : Prop :=
  (ids w <= ids w')%nat
  /\ ((projects (state w') = projects (state w)
       /\ currentProject (state w') = currentProject (state w))
      \/ exists cp ts now,
           currentProject (state w) = Some cp
           /\ projects (state w') = projects (install (rebuilt cp ts now) (state w))
           /\ currentProject (state w') = Some (rebuilt cp ts now)).

(** What [updateProject] does to one project when [updates] has no
    [id]: the id is kept, and a project with another id is kept
    whole. *)
Definition same_id_or_same (projectId : string) (p p' : Project) : Prop :=
  p_id p' = p_id p /\ (p_id p <> projectId -> p' = p).

(** The operation does not pass an [id] key to [updateProject]. *)
Definition keeps_id (op : Op) : bool :=
  match op with
  | UpdateProject _ updates =>
      match pu_id updates with
      | Some _ => false
      | None => true
      end
  | _ => true
  end.

(** How the date policy of the specification reads a raw input:
    missing (neither a Date, a string nor a number), supplied but
    invalid, or a valid instant. *)
Inductive reading : Type :=
| Missing
| Invalid
| Valid (t : Z).

Definition read_date (H : Host) (v : value) : reading :=
  match v with
  | VDate _ | VString _ | VNumber _ =>
      match new_Date_of H v with
      | Some t => Valid t
      | None => Invalid
      end
  | _ => Missing
  end.

(** The date policy in the words of the specification: a missing or
    invalid start is the current time; a missing end is seven days
    ahead of the current time and an invalid end seven days after the
    start; an end that is not after the start is the day after the
    start.  [now_start] and [now_end] are the readings of the clock the
    two defaults use. *)
Definition resolved_dates (start finish : reading) (now_start now_end : Z)
    : Z * Z :=
  let s := match start with
           | Valid t => t
           | _ => now_start
           end in
  let e := match finish with
           | Valid t => t
           | Invalid => s + ONE_WEEK
           | Missing => now_end + ONE_WEEK
           end in
  (s, if e <=? s then s + ONE_DAY else e).

(** The positions in the clock stream of the readings the two defaults
    use, [tk] being the position when [createTask] is called: the
    default of the end is read before an invalid start is replaced, and
    after the default of a missing start. *)
Definition start_reading (start finish : reading) (tk : nat) : nat :=
  match start, finish with
  | Invalid, Missing => S tk
  | _, _ => tk
  end.

Definition end_reading (start : reading) (tk : nat) : nat :=
  match start with
  | Missing => S tk
  | _ => tk
  end.

(** A reading of the clock from which a week can be added within the
    range of Dates. *)
Definition a_week_before_the_end (t : Z) : Prop :=
  - MAX_TIME <= t <= MAX_TIME - ONE_WEEK.

(** A date field of a persisted object holds a non-empty string that
    does not parse to a valid date. *)
Definition unparsable_field (H : Host) (obj : json) (field : string) : bool :=
  match obj with
  | Jobj members =>
      match lookup field members with
      | Some (Jstr s) => negb (String.eqb s "") && invalid (Date_of_string H s)
      | _ => false
      end
  | _ => false
  end.

Definition unparsable_task (H : Host) (task : json) : bool :=
  existsb (unparsable_field H task)
    ["startDate"; "endDate"; "createdAt"; "updatedAt"].

(** A persisted project with an unparsable date, in one of its own two
    date fields or in a task of its [tasks] array. *)
Definition unparsable_project (H : Host) (project : json) : bool :=
  existsb (unparsable_field H project) ["createdAt"; "updatedAt"]
  || match project with
     | Jobj members =>
         match lookup "tasks" members with
         | Some (Jarr ts) => existsb (unparsable_task H) ts
         | _ => false
         end
     | _ => false
     end.

(** Some date-bearing field anywhere in a persisted value is a string
    that fails to parse. *)
Fixpoint unparsable_anywhere (H : Host) (v : json) : bool :=
  match v with
  | Jarr items => existsb (unparsable_anywhere H) items
  | Jobj members =>
      existsb (fun '(key, x) =>
                 (existsb (String.eqb key) dateFields
                  && match x with
                     | Jstr s => invalid (Date_of_string H s)
                     | _ => false
                     end)
                 || unparsable_anywhere H x)
              members
  | _ => false
  end.

(** A Date occurs in a run-time value. *)
Fixpoint has_Date (v : jsval) : bool :=
  match v with
  | JDate _ => true
  | JArray items => existsb has_Date items
  | JObject fields => existsb (fun '(_, x) => has_Date x) fields
  | _ => false
  end.

(** The value at a path of property names and array indices. *)
Inductive step : Type :=
| Key (name : string)
| Index (i : nat).

Fixpoint at_path (path : list step) (v : jsval) : option jsval :=
  match path with
  | [] => Some v
  | Key name :: rest =>
      match v with
      | JObject fields =>
          match lookup name fields with
          | Some x => at_path rest x
          | None => None
          end
      | _ => None
      end
  | Index i :: rest =>
      match v with
      | JArray items =>
          match nth_error items i with
          | Some x => at_path rest x
          | None => None
          end
      | _ => None
      end
  end.

End Spec.

(* ================================================================== *)
(** ** Sample calls *)
(* ================================================================== *)

Module Sample.
Import JS Store Persist.

Definition no_updates : TaskUpdates :=
  {| tu_id := None; tu_name := None; tu_description := None;
     tu_startDate := None; tu_endDate := None; tu_completion := None;
     tu_dependencies := None; tu_projectId := None; tu_createdAt := None |}.

(** [{ name, startDate, endDate, completion }]. *)
Definition task_data (name : string) (start finish completion : value) : TaskData :=
  {| td_name := Some name; td_description := None;
     td_startDate := start; td_endDate := finish;
     td_completion := completion; td_dependencies := None |}.

(** 2025-06-15T15:06:40Z and the instant a week later. *)
Definition day0 : Z := 1750000000000.
Definition day7 : Z := day0 + ONE_WEEK.

(** [createProject("Demo", "")] and then a task T1 over one week, half
    done.  On the reference host the project has id ["0"] and the task
    id ["1"]. *)
Definition demo : list Op :=
  [CreateProject "Demo" "";
   CreateTask (task_data "T1" (VDate (Some day0)) (VDate (Some day7))
                 (VNumber (num 50)))].

Definition finish_to_start (taskId : string) : TaskDependency :=
  {| dep_taskId := taskId; dep_type := "FINISH_TO_START" |}.

(** [{ endDate: v }] and [{ completion: v }]. *)
Definition only_endDate (v : value) : TaskUpdates :=
  {| tu_id := None; tu_name := None; tu_description := None;
     tu_startDate := None; tu_endDate := Some v; tu_completion := None;
     tu_dependencies := None; tu_projectId := None; tu_createdAt := None |}.

Definition only_completion (v : value) : TaskUpdates :=
  {| tu_id := None; tu_name := None; tu_description := None;
     tu_startDate := None; tu_endDate := None; tu_completion := Some v;
     tu_dependencies := None; tu_projectId := None; tu_createdAt := None |}.

(** [{ id: v }]. *)
Definition only_id (v : string) : ProjectUpdates :=
  {| pu_id := Some v; pu_name := None; pu_description := None;
     pu_tasks := None; pu_createdAt := None |}.

(** Persisted payloads.  A project object in the persisted form. *)
Definition stored_project (createdAt : string) (stored_tasks : list json) : json :=
  Jobj [("id", Jstr "p"); ("name", Jstr "P"); ("description", Jstr "");
        ("tasks", Jarr stored_tasks); ("createdAt", Jstr createdAt);
        ("updatedAt", Jstr "2025-06-15T15:06:40.000Z")].

Definition stored_task (startDate : string) : json :=
  Jobj [("id", Jstr "t"); ("name", Jstr "T"); ("description", Jstr "");
        ("startDate", Jstr startDate);
        ("endDate", Jstr "2025-06-22T15:06:40.000Z");
        ("completion", Jnum (inject_Z 0)); ("dependencies", Jarr []);
        ("projectId", Jstr "p");
        ("createdAt", Jstr "2025-06-15T15:06:40.000Z");
        ("updatedAt", Jstr "2025-06-15T15:06:40.000Z")].

(** [{ state: { projects, currentProject }, version: 0 }]. *)
Definition payload (stored_projects : list json) (current : json) : json :=
  Jobj [("state", Jobj [("projects", Jarr stored_projects);
                        ("currentProject", current)]);
        ("version", Jnum (inject_Z 0))].

(** No project in the list, and a current project whose [createdAt] is
    no date. *)
Definition stale_current : json :=
  payload [] (stored_project "not-a-date" []).

(** A project whose [createdAt] is the empty string. *)
Definition empty_date : json :=
  payload [stored_project "" []] Jnull.

(** A project with a task whose [startDate] is no date. *)
Definition bad_task_date : json :=
  payload [stored_project "2025-06-15T15:06:40.000Z" [stored_task "not-a-date"]]
    Jnull.


(** Two projects A (id ["0"]) and B (id ["1"]), and then
    [updateProject("0", { id: "1" })]. *)
Definition renamed_project : list Op :=
  [CreateProject "A" ""; CreateProject "B" ""; UpdateProject "0" (only_id "1")].

(** Two projects, A (id ["0"]) with a task T1 (id ["1"]) and B (id
    ["2"]) with a task T2 (id ["3"]) that depends on T1; A is selected
    again at the end. *)
Definition two_projects : list Op :=
  [CreateProject "A" "";
   CreateTask (task_data "T1" (VDate (Some day0)) (VDate (Some day7)) VUndefined);
   CreateProject "B" "";
   CreateTask (task_data "T2" (VDate (Some day0)) (VDate (Some day7)) VUndefined);
   AddDependency "3" (finish_to_start "1");
   SelectProject "0"].

(** One project (id ["0"]) with three tasks T1, T2 and T3 (ids ["1"],
    ["2"], ["3"]); T3 depends on T1 and on T2. *)
Definition three_tasks : list Op :=
  [CreateProject "Demo" "";
   CreateTask (task_data "T1" (VDate (Some day0)) (VDate (Some day7)) VUndefined);
   CreateTask (task_data "T2" (VDate (Some day0)) (VDate (Some day7))
                 (VNumber (num 50)));
   CreateTask (task_data "T3" (VDate (Some day0)) (VDate (Some day7)) VUndefined);
   AddDependency "3" (finish_to_start "1");
   AddDependency "3" (finish_to_start "2")].

End Sample.

(* ================================================================== *)
(** ** The Gantt formatter ([modules/gantt/utils/ganttFormatter.js]) *)
(* ================================================================== *)

(** The formatter turns the tasks of the store into the rows of the
    chart.  Its functions read the clock, and none of them writes to the
    store: they pass the position [tk] in the clock stream of the host.
    [String.prototype.trim] is a parameter, like the other built-ins. *)
Module Gantt.
Import JS Store Persist.

(** An element of a [dependencies] array: a primitive value (a string
    or anything else that is no object), or an object with its [taskId]
    property ([VUndefined] when the object has none). *)
Inductive dependency_entry : Type :=
| DepValue (v : value)
| DepObject (taskId : value).

(** The entries of a task of the store. *)
Definition entries_of (deps : list TaskDependency) : list dependency_entry :=
  map (fun dep => DepObject (VString (dep_taskId dep))) deps.

(** The callback of [dependencies.filter]: the entry is truthy and its
    id ([dep] itself when it is a string, [dep.taskId] otherwise) is a
    non-empty string. *)
Definition valid_entry (dep : dependency_entry) : bool :=
  match dep with
  | DepValue (VString s) => negb (String.eqb s "")
  | DepValue _ => false
  | DepObject (VString s) => negb (String.eqb s "")
  | DepObject _ => false
  end.

(** The callback of [.map]: [typeof dep === 'string' ? dep : dep.taskId],
    on an entry that passed the filter. *)
Definition entry_id (dep : dependency_entry) : string :=
  match dep with
  | DepValue (VString s) => s
  | DepObject (VString s) => s
  | _ => ""
  end.

(** [formatDependencies(dependencies)]; the argument is [None] when it
    is no array, the result [None] when it is [null]. *)
Definition formatDependencies (dependencies : option (list dependency_entry))
    : option string :=
  match dependencies with
  | None | Some [] => None
  | Some entries =>
      let validDeps := map entry_id (filter valid_entry entries) in
      match validDeps with
      | [] => None
      | _ => Some (String.concat "," validDeps)
      end
  end.

(** [getGanttColumns()]. *)
Definition getGanttColumns : list string :=
  ["Task ID"; "Task Name"; "Resource"; "Start Date"; "End Date"; "Duration";
   "Percent Complete"; "Dependencies"].

(** A row of the chart: [[id, name, resource, start, end, null,
    percent, dependencies]]. *)
Record Row : Type := {
  row_id : string;
  row_name : string;
  row_resource : string;
  row_start : date;
  row_end : date;
  row_percent : value;
  row_dependencies : option string
}.

(** The row as the array it is. *)
Definition js_of_row (row : Row) : jsval :=
  JArray [JString (row_id row); JString (row_name row);
          JString (row_resource row); JDate (row_start row);
          JDate (row_end row); JNull;
          Snapshot.js_of_value (row_percent row);
          match row_dependencies row with
          | Some s => JString s
          | None => JNull
          end].

(** [a > b] and [a >= b] on two Dates. *)
Definition Date_gt (a b : date) : bool :=
  match a, b with
  | Some x, Some y => y <? x
  | _, _ => false
  end.

Definition Date_ge (a b : date) : bool :=
  match a, b with
  | Some x, Some y => y <=? x
  | _, _ => false
  end.

(** The checks [validateGanttData] makes on row [i >= 1]: an array of
    [columnCount] cells, a truthy id, Dates in columns 3 and 4, and not
    [row[4] <= row[3]]. *)
Definition valid_row (columnCount : nat) (row : jsval) : bool :=
  match row with
  | JArray cells =>
      Nat.eqb (List.length cells) columnCount
      && truthy_js (nth 0 cells JUndefined)
      && match nth 3 cells JUndefined, nth 4 cells JUndefined with
         | JDate startDate, JDate endDate => negb (Date_le endDate startDate)
         | _, _ => false
         end
  | _ => false
  end.

(** [validateGanttData(data)]. *)
Definition validateGanttData (data : jsval) : bool :=
  match data with
  | JArray (headers :: rows) =>
      match headers with
      | JArray columns =>
          if Nat.ltb (List.length columns) 4 then false
          else forallb (valid_row (List.length columns)) rows
      | _ => false
      end
  | _ => false
  end.

Section WithHost.
Variable H : Host.
Variable trim : string -> string.

(** [safeDate(dateInput)]: the Date and the position in the clock
    stream afterwards. *)
Definition safeDate (dateInput : value) (tk : nat) : date * nat :=
  let current := (Date_of_ms (clock H tk), S tk) in
  match dateInput with
  | VNull | VUndefined => current
  | VDate d =>
      if invalid d then current else (TimeClip (getTime d), tk)
  | VString s =>
      if String.eqb s "" then current
      else
        let trimmed := trim s in
        if String.eqb trimmed "" then current
        else
          let d := Date_of_string H trimmed in
          if invalid d then current else (d, tk)
  | VNumber NaN => current
  | VNumber n =>
      let d := TimeClip n in
      if invalid d then current else (d, tk)
  | VBool _ =>
      let d := new_Date_of H dateInput in
      if invalid d then current else (d, tk)
  end.

(** The callback of [tasks.map] in [formatGanttData]: [None] for a
    task without id; the row of the task; or, when one of the three
    final validations throws, the fallback row of the [catch] block. *)
Definition formatTask (task : Task) (tk : nat) : option Row * nat :=
  if String.eqb (t_id task) "" then (None, tk)
  else
    let '(startDate, tk1) := safeDate (Store.startDate task) tk in
    let '(endDate0, tk2) := safeDate (Store.endDate task) tk1 in
    let endDate :=
      if Date_le endDate0 startDate then Date_plus startDate ONE_DAY
      else endDate0 in
    if invalid startDate || invalid endDate || Date_le endDate startDate
    then
      (Some {| row_id := t_id task;
               row_name := string_or (Some (t_name task)) "Error Task";
               row_resource := "";
               row_start := Date_of_ms (clock H tk2);
               row_end := Date_of_ms (clock H (S tk2) + ONE_DAY);
               row_percent := VNumber (num 0);
               row_dependencies := None |},
       S (S tk2))
    else
      (Some {| row_id := t_id task;
               row_name := string_or (Some (t_name task)) "Unnamed Task";
               row_resource := string_or (Some (t_description task)) "";
               row_start := startDate;
               row_end := endDate;
               row_percent := clamp_completion H (completion task);
               row_dependencies :=
                 formatDependencies (Some (entries_of (dependencies task))) |},
       tk2).

(** [formatGanttData(tasks)]: the rows of the tasks, those without id
    left out. *)
Fixpoint formatGanttData (tasks : list Task) (tk : nat) : list Row * nat :=
  match tasks with
  | [] => ([], tk)
  | task :: rest =>
      let '(row, tk1) := formatTask task tk in
      let '(rows, tk2) := formatGanttData rest tk1 in
      (match row with
       | Some r => r :: rows
       | None => rows
       end, tk2)
  end.

(** The table [[getGanttColumns(), ...rows]] of the column headers and
    the rows (the toolbar hands the chart [[headers, ...formattedData]]
    with the same eight headers). *)
Definition chart_table (rows : list Row) : jsval :=
  JArray (JArray (map JString getGanttColumns) :: map js_of_row rows).

(** [validateTaskDates(startDate, endDate, projectStart, projectEnd)]. *)
Definition validateTaskDates (startDate endDate projectStart projectEnd : value)
    (tk : nat) : bool * nat :=
  let '(start, tk1) := safeDate startDate tk in
  let '(finish, tk2) := safeDate endDate tk1 in
  let '(pStart, tk3) :=
    if truthy projectStart
    then (let '(d, t) := safeDate projectStart tk2 in (Some d, t))
    else (None, tk2) in
  let '(pEnd, tk4) :=
    if truthy projectEnd
    then (let '(d, t) := safeDate projectEnd tk3 in (Some d, t))
    else (None, tk3) in
  let endAfterStart := Date_gt finish start in
  match pStart, pEnd with
  | Some ps, Some pe =>
      (endAfterStart && Date_ge start ps && Date_le finish pe, tk4)
  | _, _ => (endAfterStart, tk4)
  end.

End WithHost.

End Gantt.

(* ================================================================== *)
(** ** [validateAndFixDates] *)
(* ================================================================== *)

(** [validateAndFixDates] rewrites [projects] and [currentProject] with
    [fixDatesInObject], which walks arbitrary object graphs: it is
    modelled on the run-time values of the persistence layer.
    [Array.prototype.toString], which [new Date(v)] calls when [v] is an
    array, is a parameter. *)
Module Repair.
Import JS Persist.

Section WithHost.
Variable H : Host.
Variable Array_toString : list jsval -> string.

(** [new Date(v)] for a value that is no Date: a string is parsed, an
    array or a plain object is converted to a string first, and a BigInt
    makes the constructor throw a [TypeError]. *)
Definition Date_of_jsval (v : jsval) : outcome date :=
  match v with
  | JUndefined => Returned None
  | JNull => Returned (Date_of_ms 0)
  | JBool true => Returned (Date_of_ms 1)
  | JBool false => Returned (Date_of_ms 0)
  | JNumber n => Returned (TimeClip n)
  | JString s => Returned (Date_of_string H s)
  | JBigInt _ => Thrown "Cannot convert a BigInt value to a number"
  | JDate d => Returned (TimeClip (getTime d))
  | JArray items => Returned (Date_of_string H (Array_toString items))
  | JObject _ => Returned (Date_of_string H "[object Object]")
  end.

(** The body of [dateFields.forEach] for a field that holds [x]: when
    [x] is truthy, a value that is no Date is converted (or given the
    default of the field when the conversion throws), and an invalid Date
    is given the default.  The result is the Date assigned to the field,
    or [None] when the field is left as it is. *)
Definition fix_date_field (field : string) (x : jsval) (tk : nat)
    : option date * nat :=
  if truthy_js x
  then
    let '(current, assigned, tk1) :=
      match x with
      | JDate d => (d, false, tk)
      | _ =>
          match Date_of_jsval x with
          | Returned d => (d, true, tk)
          | Thrown _ =>
              match default_date H field tk with
              | Some d => (d, true, S tk)
              | None => (None, false, tk)
              end
          end
      end in
    if invalid current
    then match default_date H field tk1 with
         | Some d => (Some d, S tk1)
         | None => (if assigned then Some current else None, tk1)
         end
    else (if assigned then Some current else None, tk1)
  else (None, tk).

(** The [dateFields.forEach] of [fixDatesInObject]: the Dates assigned,
    most recent first. *)
Definition fix_date_fields (fields : list (string * jsval)) (tk : nat)
    : list (string * date) * nat :=
  fold_left
    (fun acc field =>
       match lookup field fields with
       | Some x =>
           match fix_date_field field x (snd acc) with
           | (Some d, tk') => ((field, d) :: fst acc, tk')
           | (None, tk') => (fst acc, tk')
           end
       | None => acc
       end)
    dateFields ([], tk).

(** [fixed[field]] after the loop, when it is truthy: it is then a
    Date, the one assigned or the one the field held. *)
Definition fixed_Date (assigned : list (string * date))
    (fields : list (string * jsval)) (field : string) : option date :=
  match lookup field assigned with
  | Some d => Some d
  | None =>
      match lookup field fields with
      | Some (JDate d) => Some d
      | _ => None
      end
  end.

(** "Ensure task date consistency". *)
Definition fix_order (assigned : list (string * date))
    (fields : list (string * jsval)) : list (string * date) :=
  match fixed_Date assigned fields "startDate",
        fixed_Date assigned fields "endDate" with
  | Some startDate, Some endDate =>
      if Date_le endDate startDate
      then ("endDate", Date_plus startDate ONE_DAY) :: assigned
      else assigned
  | _, _ => assigned
  end.

(** [fixDatesInObject(obj)].  As in the persistence functions, the
    last loop calls the function on every truthy value of type
    ['object'], Dates included, and on a Date the function returns the
    copy [{ ...obj }] of its own enumerable properties, which is [{}]. *)
Fixpoint fixDatesInObject (obj : jsval) (tk : nat) {struct obj} : jsval * nat :=
  match obj with
  | JDate _ => (JObject [], tk)
  | JArray items =>
      let '(items', tk') :=
        (fix each (l : list jsval) (tk : nat) : list jsval * nat :=
           match l with
           | [] => ([], tk)
           | x :: rest =>
               let '(x', tk1) := fixDatesInObject x tk in
               let '(rest', tk2) := each rest tk1 in
               (x' :: rest', tk2)
           end) items tk in
      (JArray items', tk')
  | JObject fields =>
      let '(assigned0, tk0) := fix_date_fields fields tk in
      let assigned := fix_order assigned0 fields in
      let '(fixed, tk') :=
        (fix each (l : list (string * jsval)) (tk : nat)
           : list (string * jsval) * nat :=
           match l with
           | [] => ([], tk)
           | (key, x) :: rest =>
               let '(x', tk1) :=
                 match lookup key assigned with
                 | Some _ => (JObject [], tk)
                 | None =>
                     if truthy_js x && is_object_js x
                     then fixDatesInObject x tk
                     else (x, tk)
                 end in
               let '(rest', tk2) := each rest tk1 in
               ((key, x') :: rest', tk2)
           end) fields tk0 in
      (JObject fixed, tk')
  | _ => (obj, tk)
  end.

(** [validateAndFixDates()], as a function of the two parts of the
    state it rewrites: [{ ...state, projects: fixDatesInObject(
    state.projects), currentProject: fixDatesInObject(
    state.currentProject) }]. *)
Definition validateAndFixDates (projects currentProject : jsval) (tk : nat)
    : (jsval * jsval) * nat :=
  let '(projects', tk1) := fixDatesInObject projects tk in
  let '(currentProject', tk2) := fixDatesInObject currentProject tk1 in
  ((projects', currentProject'), tk2).

End WithHost.

End Repair.

(* ================================================================== *)
(** ** Further vocabulary *)
(* ================================================================== *)

Module Vocabulary.
Import JS Store Persist Spec.

(** A number between 0 and 100. *)
Definition percentage (v : value) : bool :=
  match v with
  | VNumber (Fin q) => Qle_bool (inject_Z 0) q && Qle_bool q (inject_Z 100)
  | _ => false
  end.

(** The operation passes no date to [updateTask] and no task list to
    [updateProject]. *)
Definition leaves_dates (op : Op) : bool :=
  match op with
  | UpdateTask _ updates =>
      match tu_startDate updates, tu_endDate updates with
      | None, None => true
      | _, _ => false
      end
  | UpdateProject _ updates =>
      match pu_tasks updates with
      | None => true
      | Some _ => false
      end
  | _ => true
  end.

(** The task an operation edits in place: [updateTask],
    [addDependency] and [removeDependency] map over the tasks and change
    those with this id. *)
Definition edited_task (op : Op) : option string :=
  match op with
  | UpdateTask taskId _ => Some taskId
  | AddDependency taskId _ => Some taskId
  | RemoveDependency taskId _ => Some taskId
  | _ => None
  end.

(** The operations on the tasks of the current project. *)
Definition task_operation (op : Op) : bool :=
  match op with
  | CreateTask _ | UpdateTask _ _ | DeleteTask _
  | AddDependency _ _ | RemoveDependency _ _ => true
  | _ => false
  end.

(** The task operations that rewrite the tasks the current project
    has: all but [createTask]. *)
Definition rewrites_tasks (op : Op) : bool :=
  match op with
  | UpdateTask _ _ | DeleteTask _
  | AddDependency _ _ | RemoveDependency _ _ => true
  | _ => false
  end.

(** The task [task] with a new dependency list and a new
    [updatedAt], everything else as it was. *)
Definition same_but_dependencies (task task' : Task) : Prop :=
  task' = with_dependencies task (dependencies task') (t_updatedAt task').

(** The prefix of the message the [catch] block of an operation
    writes to [error]. *)
Definition failure_prefix (op : Op) : string :=
  match op with
  | CreateProject _ _ => "Échec de création du projet: "
  | UpdateProject _ _ => "Échec de mise à jour du projet: "
  | DeleteProject _ => "Échec de suppression du projet: "
  | SelectProject _ => "Échec de sélection du projet: "
  | CreateTask _ => "Échec de création de la tâche: "
  | UpdateTask _ _ => "Échec de mise à jour de la tâche: "
  | DeleteTask _ => "Échec de suppression de la tâche: "
  | AddDependency _ _ => "Échec d'ajout de dépendance: "
  | RemoveDependency _ _ => "Échec de suppression de dépendance: "
  | ClearError => ""
  end.

(** Every task in the store has valid dates with
    [endDate > startDate]. *)
Definition dates_ordered (s : State) : Prop :=
  forall task, In task (all_tasks s) -> date_ordered task = true.

(** Each task of [ts'] has the dates of a task of [ts]. *)
Definition dates_from (ts ts' : list Task) : Prop :=
  forall task', In task' ts' ->
    exists task, In task ts
                 /\ startDate task' = startDate task
                 /\ endDate task' = endDate task.

(** The date a task holds after [updateTask] was given [given] for
    that date ([None]: the key is absent), the task holding [old]: a
    truthy value that converts to a valid Date is stored as that Date, a
    truthy value that does not leaves [old], and a falsy value is stored
    as it is. *)
Definition date_after_update (H : Host) (old : value) (given : option value)
    : value :=
  match given with
  | None => old
  | Some v =>
      if truthy v
      then match new_Date_of H v with
           | Some t => VDate (Some t)
           | None => old
           end
      else v
  end.

(** The time value of a Date is within the range of time values, as
    it is for every Date a program holds. *)
Definition date_in_range (v : value) : Prop :=
  match v with
  | VDate (Some t) => - MAX_TIME <= t <= MAX_TIME
  | _ => True
  end.

(** The [n] readings of the clock from position [tk] on are time
    values with a day to spare, and the clock does not go back between
    one of them and the next reading. *)
Definition steady_clock (H : Host) (tk n : nat) : Prop :=
  forall k, (tk <= k < tk + n)%nat ->
    - MAX_TIME <= clock H k <= MAX_TIME - ONE_DAY
    /\ clock H k <= clock H (S k).

(** A row of the chart that [validateGanttData] accepts: the id is not
    empty, and the two dates are not two valid dates with the end at or
    before the start. *)
Definition accepted_row (row : Gantt.Row) : bool :=
  negb (String.eqb (Gantt.row_id row) "")
  && negb (Date_le (Gantt.row_end row) (Gantt.row_start row)).

(** The operation passes no [id] to [updateTask] and no list of tasks
    to [updateProject]. *)
Definition keeps_task_ids (op : Op) : bool :=
  match op with
  | UpdateTask _ updates =>
      match tu_id updates with
      | None => true
      | Some _ => false
      end
  | UpdateProject _ updates =>
      match pu_tasks updates with
      | None => true
      | Some _ => false
      end
  | _ => true
  end.

(** The ids of the tasks of [ts'] are ids of tasks of [ts], in the
    same order. *)
Definition ids_kept (ts ts' : list Task) : Prop :=
  exists keep, map t_id ts' = filter keep (map t_id ts).

(** Within each entry of [projects] and within the current project no
    two tasks have the same id, and the id of every task in the store is
    an identifier the host has already issued. *)
Definition task_ids_distinct (H : Host) (w : World) : Prop :=
  (forall task, In task (all_tasks (state w)) ->
     exists k, (k < ids w)%nat /\ t_id task = uuid H k)
  /\ (forall p, In p (projects (state w)) -> NoDup (map t_id (tasks p)))
  /\ (forall cp, currentProject (state w) = Some cp -> NoDup (map t_id (tasks cp))).

(** No key of a document is the name of a date field. *)
Fixpoint date_free (doc : json) : bool :=
  match doc with
  | Jarr items => forallb date_free items
  | Jobj members =>
      forallb (fun '(key, x) =>
                 negb (existsb (String.eqb key) dateFields) && date_free x)
              members
  | _ => true
  end.

(** The shape of a persisted project: an object whose [tasks] is
    absent, falsy, or an array of objects. *)
Definition shaped_task (task : json) : bool :=
  match task with
  | Jobj _ => true
  | _ => false
  end.

Definition shaped_project (project : json) : bool :=
  match project with
  | Jobj members =>
      match lookup "tasks" members with
      | None => true
      | Some (Jarr ts) => forallb shaped_task ts
      | Some v => negb (truthy_json (Some v))
      end
  | _ => false
  end.

End Vocabulary.

(* ================================================================== *)
(** ** String built-ins of the reference host *)
(* ================================================================== *)

Module ReferenceStrings.

(** The white space of ASCII. *)
Definition is_space (c : Ascii.ascii) : bool :=
  let n := Ascii.nat_of_ascii c in
  Nat.eqb n 32 || (Nat.leb 9 n && Nat.leb n 13).

Fixpoint trim_start (s : string) : string :=
  match s with
  | EmptyString => EmptyString
  | String c rest => if is_space c then trim_start rest else s
  end.

(** The string without its trailing white space. *)
Fixpoint trim_end (s : string) : string :=
  match s with
  | EmptyString => EmptyString
  | String c rest =>
      match trim_end rest with
      | EmptyString => if is_space c then EmptyString else String c EmptyString
      | rest' => String c rest'
      end
  end.

(** [String.prototype.trim] on ASCII text. *)
Definition trim (s : string) : string := trim_end (trim_start s).

End ReferenceStrings.

(* ================================================================== *)
(** ** Further sample calls *)
(* ================================================================== *)

Module Calls.
Import JS Store Persist.

(** The demo project with a second task T2 (id ["2"]) that depends on
    T1. *)
Definition linked_tasks : list Op :=
  Sample.demo
  ++ [CreateTask (Sample.task_data "T2" (VDate (Some Sample.day0))
                    (VDate (Some Sample.day7)) VUndefined);
      AddDependency "2" (Sample.finish_to_start "1")].

(** [{ startDate: v }]. *)
Definition only_startDate (v : value) : TaskUpdates :=
  {| tu_id := None; tu_name := None; tu_description := None;
     tu_startDate := Some v; tu_endDate := None; tu_completion := None;
     tu_dependencies := None; tu_projectId := None; tu_createdAt := None |}.

(** [{ name: v }] for a project. *)
Definition only_name (v : string) : ProjectUpdates :=
  {| pu_id := None; pu_name := Some v; pu_description := None;
     pu_tasks := None; pu_createdAt := None |}.

(** The demo project after [updateTask("1", { endDate: T1.startDate })]:
    the dates of T1 are no longer in order. *)
Definition broken_dates : list Op :=
  Sample.demo ++ [UpdateTask "1" (Sample.only_endDate (VDate (Some Sample.day0)))].

(** A persisted state without dates. *)
Definition plain_state : json :=
  Jobj [("projects",
         Jarr [Jobj [("id", Jstr "p"); ("name", Jstr "P");
                     ("tasks",
                      Jarr [Jobj [("id", Jstr "t"); ("name", Jstr "T");
                                  ("completion", Jnum (inject_Z 50));
                                  ("dependencies", Jarr [])]])]]);
        ("currentProject", Jnull)].

(** Calls that pass no date to [updateTask]. *)
Definition edits : list Op :=
  linked_tasks
  ++ [UpdateTask "1" (Sample.only_completion (VNumber (num 80)));
      UpdateProject "0" (only_name "Renamed");
      RemoveDependency "2" "1";
      DeleteTask "1"].

End Calls.

(* ================================================================== *)
(** * Properties *)
(* ================================================================== *)

Import JS Store Persist Snapshot Spec.

(** ** Auxiliary facts *)

(** A time value within the range of Dates makes a valid Date. *)
Lemma Date_of_ms_in_range (ms : Z) :
  - MAX_TIME <= ms <= MAX_TIME -> Date_of_ms ms = Some ms.
Proof.
  intros Hr. unfold Date_of_ms, TimeClip, num.
  assert (Hle : Qle_bool (Qabs (inject_Z ms)) (inject_Z MAX_TIME) = true).
  { apply Qle_bool_iff. unfold Qabs, inject_Z, Qle, MAX_TIME in *. simpl. lia. }
  rewrite Hle. simpl. now rewrite Z.quot_1_r.
Qed.

(** Beyond the range the Date is invalid. *)
Lemma Date_of_ms_out_of_range (ms : Z) :
  MAX_TIME < ms -> Date_of_ms ms = None.
Proof.
  intros Hr. unfold Date_of_ms, TimeClip, num.
  destruct (Qle_bool (Qabs (inject_Z ms)) (inject_Z MAX_TIME)) eqn:Hle; [|reflexivity].
  apply Qle_bool_iff in Hle. unfold Qabs, inject_Z, Qle, MAX_TIME in *. simpl in Hle. lia.
Qed.

(** A valid Date is within the range. *)
Lemma Date_of_ms_valid (ms t : Z) :
  Date_of_ms ms = Some t -> t = ms /\ - MAX_TIME <= ms <= MAX_TIME.
Proof.
  unfold Date_of_ms, TimeClip, num.
  destruct (Qle_bool (Qabs (inject_Z ms)) (inject_Z MAX_TIME)) eqn:Hle; [|discriminate].
  intros Heq. injection Heq as <-. simpl. rewrite Z.quot_1_r. split; [reflexivity|].
  apply Qle_bool_iff in Hle. unfold Qabs, inject_Z, Qle, MAX_TIME in *. simpl in Hle. lia.
Qed.

(** ** createTask without a selected project (C8) *)

(** C8.  When no project is selected, [createTask] throws the error
    "Aucun projet sélectionné" (no project selected); the store records
    the message in [error], resets [loading], and keeps [projects] and
    [currentProject] (hence every task) as they were. *)
Theorem createTask_without_project (H : Host) (taskData : TaskData) (w : World) :
  currentProject (state w) = None ->
  fst (createTask H taskData w) = Thrown "Aucun projet sélectionné"
  /\ error (state (snd (createTask H taskData w)))
     = Some (template "Échec de création de la tâche: " "Aucun projet sélectionné")
  /\ loading (state (snd (createTask H taskData w))) = false
  /\ projects (state (snd (createTask H taskData w))) = projects (state w)
  /\ currentProject (state (snd (createTask H taskData w))) = currentProject (state w).
Proof.
  intros Hnone.
  unfold createTask, try_catch, require_current, bind, set_loading_start,
    set_with, get, put, bind, ret, begin_loading; simpl.
  rewrite Hnone. simpl. repeat split; reflexivity.
Qed.

Lemma createTask_without_project_witness :
  currentProject (state initial_world) = None
  /\ error (state (snd (createTask Reference.host
                          {| td_name := Some "T1"; td_description := None;
                             td_startDate := VString "not-a-date";
                             td_endDate := VUndefined;
                             td_completion := VUndefined;
                             td_dependencies := None |} initial_world)))
     = Some "Échec de création de la tâche: Aucun projet sélectionné".
Proof.
  split; [reflexivity|].
  apply (createTask_without_project Reference.host _ initial_world).
  reflexivity.
Defined.

(** ** The shape of a task operation *)

(** The world once [loading] has been raised. *)
Lemma require_current_none (w : World) :
  currentProject (state w) = None ->
  require_current w
  = (Thrown "Aucun projet sélectionné",
     {| state := begin_loading (state w); tick := tick w; ids := ids w |}).
Proof.
  intros Hnone. unfold require_current, set_loading_start, set_with, bind, get, put, ret.
  simpl. rewrite Hnone. reflexivity.
Qed.

Lemma require_current_some (w : World) (cp : Project) :
  currentProject (state w) = Some cp ->
  require_current w
  = (Returned cp,
     {| state := begin_loading (state w); tick := tick w; ids := ids w |}).
Proof.
  intros Hsome. unfold require_current, set_loading_start, set_with, bind, get, put, ret.
  simpl. rewrite Hsome. reflexivity.
Qed.

(** Without a current project a task operation throws and changes
    [loading] and [error] only. *)
Lemma task_operation_none (prefix : string)
    (k : Project -> M unit) (w : World) :
  currentProject (state w) = None ->
  try_catch (bind require_current k) (fail_with prefix) w
  = (Thrown "Aucun projet sélectionné",
     {| state := failed (template prefix "Aucun projet sélectionné")
                   (begin_loading (state w));
        tick := tick w; ids := ids w |}).
Proof.
  intros Hnone. unfold try_catch, bind at 1.
  rewrite (require_current_none w Hnone).
  reflexivity.
Qed.

(** With a current project, and a change of the task list that
    returns, the rebuilt project is installed. *)
Lemma task_operation_some (H : Host) (prefix : string)
    (change : list Task -> M (list Task)) (w w2 : World) (cp : Project)
    (newTasks : list Task) :
  currentProject (state w) = Some cp ->
  change (tasks cp)
    {| state := begin_loading (state w); tick := tick w; ids := ids w |}
  = (Returned newTasks, w2) ->
  try_catch (bind require_current (fun _ => update_current H change))
    (fail_with prefix) w
  = (Returned tt,
     {| state := install (rebuilt cp newTasks (Date_of_ms (clock H (tick w2))))
                   (begin_loading (state w));
        tick := S (tick w2); ids := ids w2 |}).
Proof.
  intros Hsome Hchange. unfold try_catch, bind at 1.
  rewrite (require_current_some w cp Hsome).
  unfold update_current, set_with, bind, get, put, ret, new_Date, Date_now, bind, ret.
  simpl. rewrite Hsome, Hchange. reflexivity.
Qed.

(** ** addDependency is idempotent (C10) *)

Lemma same_dependency_refl (dependency : TaskDependency) :
  same_dependency dependency dependency = true.
Proof.
  unfold same_dependency. now rewrite !String.eqb_refl.
Qed.

Lemma find_after_append (dependency : TaskDependency) (deps : list TaskDependency) :
  find (same_dependency dependency) (deps ++ [dependency]) <> None.
Proof.
  induction deps as [|d deps IH]; simpl.
  - now rewrite same_dependency_refl.
  - destruct (same_dependency dependency d); [discriminate|exact IH].
Qed.

(** A task that already has the dependency is returned as it is, and
    the clock is not read. *)
Lemma with_added_dependency_present (H : Host) (taskId : string)
    (dependency : TaskDependency) (task : Task) (w : World) :
  find (same_dependency dependency) (dependencies task) <> None ->
  with_added_dependency H taskId dependency task w = (Returned task, w).
Proof.
  intros Hfind. unfold with_added_dependency.
  destruct (negb (t_id task =? taskId)%string); [reflexivity|].
  destruct (find (same_dependency dependency) (dependencies task)); [reflexivity|].
  now contradiction Hfind.
Qed.

(** The callback always returns; on its result a second application
    changes nothing. *)
Lemma with_added_dependency_returns (H : Host) (taskId : string)
    (dependency : TaskDependency) (task : Task) (w : World) :
  exists task' w',
    with_added_dependency H taskId dependency task w = (Returned task', w')
    /\ forall w2, with_added_dependency H taskId dependency task' w2
                  = (Returned task', w2).
Proof.
  unfold with_added_dependency at 1.
  destruct (negb (t_id task =? taskId)%string) eqn:Hid.
  - exists task, w. split; [reflexivity|].
    intros w2. unfold with_added_dependency. now rewrite Hid.
  - destruct (find (same_dependency dependency) (dependencies task)) eqn:Hfind.
    + exists task, w. split; [reflexivity|].
      intros w2. apply with_added_dependency_present. now rewrite Hfind.
    + eexists _, _. split; [reflexivity|].
      intros w2. apply with_added_dependency_present. simpl.
      apply find_after_append.
Qed.

Lemma mapM_with_added_dependency (H : Host) (taskId : string)
    (dependency : TaskDependency) (ts : list Task) (w : World) :
  exists ts' w',
    mapM (with_added_dependency H taskId dependency) ts w = (Returned ts', w')
    /\ forall w2, mapM (with_added_dependency H taskId dependency) ts' w2
                  = (Returned ts', w2).
Proof.
  revert w. induction ts as [|task ts IH]; intros w.
  - exists [], w. split; [reflexivity|]. intros w2. reflexivity.
  - destruct (with_added_dependency_returns H taskId dependency task w)
      as (task' & w1 & Hstep & Hagain).
    destruct (IH w1) as (ts' & w' & Hrest & Hrest_again).
    exists (task' :: ts'), w'. split.
    + simpl. unfold bind. rewrite Hstep, Hrest. reflexivity.
    + intros w2. simpl. unfold bind. rewrite Hagain, Hrest_again. reflexivity.
Qed.

(** The entries of [projects] after [install]: those with the id of the
    installed project are that project. *)
Lemma install_twice_tasks (cp : Project) (ts : list Task) (now1 now2 : date)
    (s : State) :
  map tasks
    (projects (install (rebuilt (rebuilt cp ts now1) ts now2)
                 (begin_loading (install (rebuilt cp ts now1) s))))
  = map tasks (projects (install (rebuilt cp ts now1) s)).
Proof.
  unfold install, begin_loading. simpl. rewrite !map_map.
  apply map_ext. intros p.
  destruct (p_id p =? p_id cp)%string eqn:Hid; simpl.
  - now rewrite String.eqb_refl.
  - now rewrite Hid.
Qed.

(** C10.  A second call [addDependency(taskId, d)] with the same
    dependency leaves every task, and so the dependency list of the task
    [taskId], as the first call left it: the lists of tasks of the current
    project and of all projects are unchanged (only the [updatedAt] stamp
    of the project is refreshed).  The second call ends as the first one
    did (it returns when a project is selected) and leaves the same
    [error]. *)
Theorem addDependency_twice (H : Host) (taskId : string)
    (dependency : TaskDependency) (w : World) :
  let w1 := snd (addDependency H taskId dependency w) in
  let w2 := snd (addDependency H taskId dependency w1) in
  option_map tasks (currentProject (state w2))
  = option_map tasks (currentProject (state w1))
  /\ map tasks (projects (state w2)) = map tasks (projects (state w1))
  /\ fst (addDependency H taskId dependency w1)
     = fst (addDependency H taskId dependency w)
  /\ error (state w2) = error (state w1).
Proof.
  unfold addDependency.
  destruct (currentProject (state w)) as [cp|] eqn:Hcur.
  - destruct (mapM_with_added_dependency H taskId dependency (tasks cp)
                {| state := begin_loading (state w); tick := tick w; ids := ids w |})
      as (ts' & w' & Hfirst & Hagain).
    rewrite (task_operation_some H _ _ w w' cp ts' Hcur Hfirst). cbn [snd fst].
    set (w1 := {| state := _; tick := S (tick w'); ids := ids w' |}).
    assert (Hcur1 : currentProject (state w1)
                    = Some (rebuilt cp ts' (Date_of_ms (clock H (tick w'))))) by reflexivity.
    rewrite (task_operation_some H _ _ w1 _ _ ts' Hcur1 (Hagain _)). cbn [snd fst].
    subst w1. cbn [state currentProject install option_map tasks rebuilt].
    split; [reflexivity|]. split; [apply install_twice_tasks|].
    split; reflexivity.
  - pose proof (fun w0 =>
      task_operation_none "Échec d'ajout de dépendance: "
        (fun _ => update_current H (mapM (with_added_dependency H taskId dependency)))
        w0) as Hthrow.
    rewrite (Hthrow w Hcur). cbn [snd fst].
    match goal with
    | |- context [try_catch _ _ ?w1] => rewrite (Hthrow w1 Hcur)
    end.
    repeat split; reflexivity.
Qed.

(** With a project selected the call returns: a duplicate is no
    error. *)
Lemma addDependency_returns (H : Host) (taskId : string)
    (dependency : TaskDependency) (w : World) (cp : Project) :
  currentProject (state w) = Some cp ->
  fst (addDependency H taskId dependency w) = Returned tt
  /\ error (state (snd (addDependency H taskId dependency w))) = None.
Proof.
  intros Hcur. unfold addDependency.
  destruct (mapM_with_added_dependency H taskId dependency (tasks cp)
              {| state := begin_loading (state w); tick := tick w; ids := ids w |})
    as (ts' & w' & Hfirst & _).
  rewrite (task_operation_some H _ _ w w' cp ts' Hcur Hfirst).
  split; reflexivity.
Qed.

(** ** updateTask stores what it is given (C1, C5) *)

(** C1.  [updateTask] does not restore the order of the dates: on the
    demo project (a task T1 from [day0] to a week later),
    [updateTask("1", { endDate: new Date(day0) })] returns normally and
    leaves T1 with [endDate] equal to [startDate], so that
    [endDate > startDate] fails for a task in the store. *)
Theorem updateTask_breaks_date_order :
  let before := run Reference.host Sample.demo initial_world in
  let call := updateTask Reference.host "1"
                (Sample.only_endDate (VDate (Some Sample.day0))) in
  forallb date_ordered (all_tasks (state before)) = true
  /\ fst (call before) = Returned tt
  /\ map (fun task => (startDate task, endDate task))
         (all_tasks (state (snd (call before))))
     = [(VDate (Some Sample.day0), VDate (Some Sample.day0));
        (VDate (Some Sample.day0), VDate (Some Sample.day0))]
  /\ forallb date_ordered (all_tasks (state (snd (call before)))) = false.
Proof.
  vm_compute. repeat split; reflexivity.
Qed.

(** C5.  [completion] is not kept within 0..100: [updateTask("1",
    { completion: 150 })] stores 150, and [createTask] with the
    non-numeric completion ["abc"] stores NaN. *)
Theorem completion_is_not_clamped :
  let before := run Reference.host Sample.demo initial_world in
  let call := updateTask Reference.host "1"
                (Sample.only_completion (VNumber (num 150))) in
  let create := createTask Reference.host
                  (Sample.task_data "T2" VUndefined VUndefined (VString "abc")) in
  forallb completion_in_bounds (all_tasks (state before)) = true
  /\ fst (call before) = Returned tt
  /\ map completion (all_tasks (state (snd (call before))))
     = [VNumber (num 150); VNumber (num 150)]
  /\ forallb completion_in_bounds (all_tasks (state (snd (call before)))) = false
  /\ fst (create before) = Returned tt
  /\ map completion (all_tasks (state (snd (create before))))
     = [VNumber (num 50); VNumber NaN; VNumber (num 50); VNumber NaN].
Proof.
  vm_compute. repeat split; reflexivity.
Qed.

(** ** deleteTask cleans the current project (C4) *)

(** C4, as stated, fails: a task of another project keeps its
    dependency on the deleted task.  After [deleteTask("1")] on the
    two-project store, task T2 of project B still refers to ["1"]. *)
Lemma deleteTask_leaves_other_projects :
  let before := run Reference.host Sample.two_projects initial_world in
  let call := deleteTask Reference.host "1" in
  fst (call before) = Returned tt
  /\ existsb (refers_to "1") (all_tasks (state (snd (call before)))) = true
  /\ map (fun p => (p_name p, map (fun t => (t_id t, dependencies t)) (tasks p)))
         (projects (state (snd (call before))))
     = [("A", []); ("B", [("3", [Sample.finish_to_start "1"])])].
Proof.
  vm_compute. repeat split; reflexivity.
Qed.

Lemma cleanedTasks_ids (taskId : string) (ts : list Task) :
  map t_id (cleanedTasks taskId ts)
  = filter (fun id => negb (String.eqb id taskId)) (map t_id ts).
Proof.
  unfold cleanedTasks. rewrite map_map. simpl.
  induction ts as [|task ts IH]; simpl; [reflexivity|].
  destruct (negb (t_id task =? taskId)%string); simpl; now rewrite IH.
Qed.

Lemma cleanedTasks_clean (taskId : string) (ts : list Task) (task : Task) :
  In task (cleanedTasks taskId ts) ->
  t_id task <> taskId /\ refers_to taskId task = false.
Proof.
  unfold cleanedTasks. rewrite in_map_iff.
  intros (task0 & <- & Hin). apply filter_In in Hin as [_ Hid].
  split.
  - simpl. intros Heq. rewrite Heq, String.eqb_refl in Hid. discriminate.
  - unfold refers_to. simpl.
    induction (dependencies task0) as [|dep deps IH]; simpl; [reflexivity|].
    destruct (dep_taskId dep =? taskId)%string eqn:Hdep; simpl; [exact IH|].
    now rewrite Hdep.
Qed.

(** A task with the dependencies and the [updatedAt] it has is the
    task itself. *)
Lemma with_dependencies_same (task : Task) :
  with_dependencies task (dependencies task) (t_updatedAt task) = task.
Proof.
  now destruct task.
Qed.

Lemma filter_without_reference (taskId : string) (task : Task) :
  refers_to taskId task = false ->
  filter (fun dep => negb (String.eqb (dep_taskId dep) taskId)) (dependencies task)
  = dependencies task.
Proof.
  unfold refers_to. induction (dependencies task) as [|dep deps IH]; simpl;
    [reflexivity|].
  intros Hno. apply orb_false_elim in Hno as [Hdep Hdeps].
  rewrite Hdep. simpl. now rewrite IH.
Qed.

(** The tasks [deleteTask] keeps: each is the task it was, with every
    field as it was, less its dependencies on the deleted task. *)
Lemma cleanedTasks_survivors (taskId : string) (ts : list Task) :
  Forall2 (fun task task' =>
             task' = with_dependencies task
                       (filter (fun dep => negb (String.eqb (dep_taskId dep) taskId))
                               (dependencies task))
                       (t_updatedAt task)
             /\ (refers_to taskId task = false -> task' = task))
          (filter (fun task => negb (String.eqb (t_id task) taskId)) ts)
          (cleanedTasks taskId ts).
Proof.
  unfold cleanedTasks.
  induction (filter (fun task => negb (t_id task =? taskId)%string) ts)
    as [|task survivors IH]; simpl; constructor; [|exact IH].
  split; [reflexivity|]. intros Hno.
  rewrite (filter_without_reference taskId task Hno).
  apply with_dependencies_same.
Qed.

(** C4, amended.  With a project selected, [deleteTask(taskId)]
    returns and installs a rebuilt current project, which is the current
    project with a new task list and a new [updatedAt].  In it no task
    has the id [taskId] and no task refers to [taskId]; the other tasks
    of the project survive in order, each with every field as it was
    ([updatedAt] included) and with its dependencies on other tasks, so
    that a task without a dependency on [taskId] is the task it was; the
    entries of [projects] with the id of the current project are that
    rebuilt project, and every other entry is left as it was. *)
Theorem deleteTask_cleans_current_project (H : Host) (taskId : string)
    (w : World) (cp : Project) :
  currentProject (state w) = Some cp ->
  fst (deleteTask H taskId w) = Returned tt
  /\ exists cp',
       currentProject (state (snd (deleteTask H taskId w))) = Some cp'
       /\ p_id cp' = p_id cp
       /\ (exists now, cp' = rebuilt cp (tasks cp') now)
       /\ (forall task, In task (tasks cp') ->
             t_id task <> taskId /\ refers_to taskId task = false)
       /\ map t_id (tasks cp')
          = filter (fun id => negb (String.eqb id taskId)) (map t_id (tasks cp))
       /\ Forall2 (fun task task' =>
                     task' = with_dependencies task
                               (filter (fun dep =>
                                          negb (String.eqb (dep_taskId dep) taskId))
                                       (dependencies task))
                               (t_updatedAt task)
                     /\ (refers_to taskId task = false -> task' = task))
                  (filter (fun task => negb (String.eqb (t_id task) taskId)) (tasks cp))
                  (tasks cp')
       /\ projects (state (snd (deleteTask H taskId w)))
          = map (fun p => if String.eqb (p_id p) (p_id cp) then cp' else p)
                (projects (state w)).
Proof.
  intros Hcur. unfold deleteTask.
  rewrite (task_operation_some H _ (fun ts => ret (cleanedTasks taskId ts))
             w _ cp (cleanedTasks taskId (tasks cp)) Hcur eq_refl).
  split; [reflexivity|]. eexists. cbn [snd state currentProject install rebuilt].
  split; [reflexivity|]. cbn [p_id tasks projects begin_loading].
  split; [reflexivity|]. split; [eexists; reflexivity|].
  split; [|split; [|split; [|reflexivity]]].
  - intros task. apply cleanedTasks_clean.
  - apply cleanedTasks_ids.
  - apply cleanedTasks_survivors.
Qed.

Lemma deleteTask_cleans_current_project_witness :
  let before := run Reference.host Sample.three_tasks initial_world in
  let tasks_of (w : World) :=
    match currentProject (state w) with
    | Some p => map (fun task => (t_name task, completion task,
                                  map dep_taskId (dependencies task)))
                    (tasks p)
    | None => []
    end in
  tasks_of before
  = [("T1", VNumber (num 0), []); ("T2", VNumber (num 50), []);
     ("T3", VNumber (num 0), ["1"; "2"])]
  /\ fst (deleteTask Reference.host "1" before) = Returned tt
  /\ tasks_of (snd (deleteTask Reference.host "1" before))
     = [("T2", VNumber (num 50), []); ("T3", VNumber (num 0), ["2"])].
Proof.
  split; [reflexivity|]. split; [|reflexivity].
  eapply (deleteTask_cleans_current_project Reference.host "1"
            (run Reference.host Sample.three_tasks initial_world)).
  vm_compute. reflexivity.
Defined.

(** ** The date policy of createTask (C2) *)

Lemma TimeClip_range (n : number) (t : Z) :
  TimeClip n = Some t -> - MAX_TIME <= t <= MAX_TIME.
Proof.
  destruct n as [| | |q]; try discriminate. unfold TimeClip.
  destruct (Qle_bool (Qabs q) (inject_Z MAX_TIME)) eqn:Hle; [|discriminate].
  intros Heq. injection Heq as <-.
  apply Qle_bool_iff in Hle. destruct q as [a b].
  unfold Qabs, inject_Z, Qle in Hle. cbn [Qnum Qden] in *.
  assert (Hb : 0 < Z.pos b) by lia.
  split.
  - rewrite <- (Z.quot_mul (- MAX_TIME) (Z.pos b)) by lia.
    apply Z.quot_le_mono; lia.
  - rewrite <- (Z.quot_mul MAX_TIME (Z.pos b)) by lia.
    apply Z.quot_le_mono; lia.
Qed.

(** Whatever [new Date(v)] is given, a valid result is in range. *)
Lemma new_Date_of_range (H : Host) (v : value) (t : Z) :
  new_Date_of H v = Some t -> - MAX_TIME <= t <= MAX_TIME.
Proof.
  destruct v as [| |b|n|s|d]; unfold new_Date_of; try apply TimeClip_range.
  destruct (Date_parse H s); [|discriminate]. apply TimeClip_range.
Qed.

Lemma new_Date_valid (H : Host) (w : World) :
  - MAX_TIME <= clock H (tick w) <= MAX_TIME ->
  new_Date H w
  = (Returned (Some (clock H (tick w))),
     {| state := state w; tick := S (tick w); ids := ids w |}).
Proof.
  intros Hr. unfold new_Date, Date_now, bind, ret.
  now rewrite Date_of_ms_in_range.
Qed.

(** The date handling of [createTask] computes the dates of the policy:
    it returns, and touches neither the store nor the identifiers. *)
Lemma resolve_dates_policy (H : Host) (taskData : TaskData) (w : World) :
  a_week_before_the_end (clock H (tick w)) ->
  a_week_before_the_end (clock H (S (tick w))) ->
  (forall t, read_date H (td_startDate taskData) = Valid t ->
             t <= MAX_TIME - ONE_WEEK) ->
  let start := read_date H (td_startDate taskData) in
  let finish := read_date H (td_endDate taskData) in
  let '(s, e) := resolved_dates start finish
                   (clock H (start_reading start finish (tick w)))
                   (clock H (end_reading start (tick w))) in
  exists w',
    resolve_dates H taskData w = (Returned (Some s, Some e), w')
    /\ state w' = state w /\ ids w' = ids w /\ s < e.
Proof.
  unfold a_week_before_the_end.
  intros Hc0 Hc1 Hstart. unfold resolve_dates, try_catch, bind.
  pose proof (new_Date_of_range H (td_startDate taskData)) as Hrs.
  pose proof (new_Date_of_range H (td_endDate taskData)) as Hre.
  unfold read_date in *.
  destruct (td_startDate taskData) as [| |bs|ns|ss|ds];
  destruct (td_endDate taskData) as [| |be|ne|se|de];
  cbn [start_reading end_reading resolved_dates];
  repeat match goal with
  | |- context [TimeClip (getTime ?d)] =>
      change (TimeClip (getTime d)) with (new_Date_of H (VDate d))
  end;
  repeat match goal with
  | |- context [new_Date_of H ?v] =>
      let x := fresh "x" in let Hx := fresh "Hx" in
      remember (new_Date_of H v) as x eqn:Hx; destruct x
  end.
  all: cbn [start_reading end_reading resolved_dates].
  all: unfold Date_now, ret;
       rewrite ?new_Date_valid by (cbn [tick]; unfold ONE_WEEK in *; lia);
       cbn [invalid tick state ids].
  all: rewrite ?new_Date_valid by (cbn [tick]; unfold ONE_WEEK in *; lia);
       cbn [invalid tick state ids].
  all: repeat match goal with
       | Hr : forall t, Some ?z = Some t -> _ |- _ =>
           pose proof (Hr z eq_refl); clear Hr
       | Hr : forall t, None = Some t -> _ |- _ => clear Hr
       | Hr : forall t, new_Date_of _ _ = Some t -> _ |- _ => clear Hr
       | Hs : forall t, Valid ?z = Valid t -> _ |- _ =>
           pose proof (Hs z eq_refl); clear Hs
       | Hs : forall t, _ = Valid t -> _ |- _ => clear Hs
       end.
  all: unfold Date_plus, ONE_WEEK, ONE_DAY, MAX_TIME in *.
  all: rewrite ?Date_of_ms_in_range by (unfold MAX_TIME; lia).
  all: cbn [invalid Date_le].
  all: rewrite ?Date_of_ms_in_range by (unfold MAX_TIME; lia).
  all: cbn [invalid Date_le].
  all: repeat match goal with
       | |- context [?a <=? ?b] => destruct (Z.leb_spec a b)
       end.
  all: rewrite ?Date_of_ms_in_range by (unfold MAX_TIME; lia).
  all: try (exfalso; lia).
  all: eexists; split; [reflexivity|]; repeat split; lia.
Qed.

(** C2, as stated, fails at the end of the range of Dates: with a start
    date within a week of the largest Date and an unparsable end date,
    the end date [startDate + 7 days] is an Invalid Date, the record of
    the resolved dates calls [toISOString] on it, and [createTask]
    throws a [RangeError]; no task is stored.  The same happens for the
    equal dates [D] when [D + 1 day] is no Date. *)
Lemma createTask_throws_near_MAX_TIME :
  let before := run Reference.host [CreateProject "Demo" ""] initial_world in
  let malformed := Sample.task_data "T1" (VDate (Some MAX_TIME))
                     (VString "also-bad") VUndefined in
  let equal := Sample.task_data "T2" (VDate (Some MAX_TIME))
                 (VDate (Some MAX_TIME)) VUndefined in
  read_date Reference.host (td_startDate malformed) = Valid MAX_TIME
  /\ read_date Reference.host (td_endDate malformed) = Invalid
  /\ fst (createTask Reference.host malformed before) = Thrown "Invalid time value"
  /\ option_map tasks
       (currentProject (state (snd (createTask Reference.host malformed before))))
     = Some []
  /\ fst (createTask Reference.host equal before) = Thrown "Invalid time value"
  /\ option_map tasks
       (currentProject (state (snd (createTask Reference.host equal before))))
     = Some [].
Proof.
  vm_compute. repeat split; reflexivity.
Qed.

(** C2, amended.  With a project selected, the clock at least a week
    before the end of the range of Dates, and the supplied start date
    (when valid) too, [createTask] returns without throwing and appends
    one task whose dates are those of the policy: the start is the
    supplied instant or, when missing or invalid, the current time; the
    end is the supplied instant, or seven days after the current time
    when missing, or seven days after the start when invalid, and it is
    replaced by the day after the start when it is not after the start.
    In particular [startDate < endDate]. *)
Theorem createTask_date_policy (H : Host) (taskData : TaskData) (w : World)
    (cp : Project) :
  a_week_before_the_end (clock H (tick w)) ->
  a_week_before_the_end (clock H (S (tick w))) ->
  (forall t, read_date H (td_startDate taskData) = Valid t ->
             t <= MAX_TIME - ONE_WEEK) ->
  currentProject (state w) = Some cp ->
  let start := read_date H (td_startDate taskData) in
  let finish := read_date H (td_endDate taskData) in
  let '(s, e) := resolved_dates start finish
                   (clock H (start_reading start finish (tick w)))
                   (clock H (end_reading start (tick w))) in
  fst (createTask H taskData w) = Returned tt
  /\ exists task,
       option_map tasks (currentProject (state (snd (createTask H taskData w))))
       = Some (tasks cp ++ [task])
       /\ startDate task = VDate (Some s)
       /\ endDate task = VDate (Some e)
       /\ s < e.
Proof.
  intros Hc0 Hc1 Hstart Hcur start finish.
  pose proof (resolve_dates_policy H taskData
                {| state := begin_loading (state w); tick := tick w; ids := ids w |}
                Hc0 Hc1 Hstart) as Hdates.
  cbn zeta in Hdates. cbn [tick] in Hdates. fold start finish in Hdates.
  destruct (resolved_dates start finish _ _) as [s e].
  destruct Hdates as (w' & Hres & Hstate & Hids & Hlt).
  assert (Hcall : exists task W,
            createTask H taskData w = (Returned tt, W)
            /\ option_map tasks (currentProject (state W)) = Some (tasks cp ++ [task])
            /\ startDate task = VDate (Some s) /\ endDate task = VDate (Some e)).
  { unfold createTask, try_catch. unfold bind at 1.
    rewrite (require_current_some w cp Hcur).
    unfold bind at 1. rewrite Hres.
    unfold Date_toISOString, uuidv4, new_Date, Date_now, update_current, set_with,
      get, put, bind, ret. cbn. rewrite Hstate. cbn. rewrite Hcur.
    eexists _, _. split; [reflexivity|]. cbn. repeat split; reflexivity. }
  destruct Hcall as (task & W & Hcall & Htasks & Hs & He).
  rewrite Hcall. cbn [fst snd]. split; [reflexivity|].
  exists task. repeat split; assumption.
Qed.

(** Scenario C on the reference host: equal dates [day0] give the end
    date [day0 + 1 day]. *)
Lemma createTask_date_policy_witness :
  let before := run Reference.host [CreateProject "Demo" ""] initial_world in
  let equal := Sample.task_data "T2" (VDate (Some Sample.day0))
                 (VDate (Some Sample.day0)) VUndefined in
  fst (createTask Reference.host equal before) = Returned tt
  /\ exists task,
       option_map tasks
         (currentProject (state (snd (createTask Reference.host equal before))))
       = Some ([] ++ [task])
       /\ startDate task = VDate (Some Sample.day0)
       /\ endDate task = VDate (Some (Sample.day0 + ONE_DAY))
       /\ Sample.day0 < Sample.day0 + ONE_DAY.
Proof.
  refine (createTask_date_policy Reference.host
            (Sample.task_data "T2" (VDate (Some Sample.day0))
               (VDate (Some Sample.day0)) VUndefined)
            (run Reference.host [CreateProject "Demo" ""] initial_world)
            {| p_id := "0"; p_name := "Demo"; p_description := ""; tasks := [];
               p_createdAt := Some 1750000000000;
               p_updatedAt := Some 1750000000001 |}
            _ _ _ _).
  - vm_compute. split; discriminate.
  - vm_compute. split; discriminate.
  - intros t Ht. vm_compute in Ht. injection Ht as <-. vm_compute. discriminate.
  - vm_compute. reflexivity.
Defined.

(** ** currentProject and projects (C9) *)

Lemma mapM_returns {A B} (f : A -> M B) (R : A -> B -> Prop) :
  (forall x w, exists y w',
      f x w = (Returned y, w') /\ ids w' = ids w /\ R x y) ->
  forall xs w, exists ys w',
      mapM f xs w = (Returned ys, w') /\ ids w' = ids w /\ Forall2 R xs ys.
Proof.
  intros Hf xs. induction xs as [|x xs IH]; intros w.
  - exists [], w. repeat split; constructor.
  - destruct (Hf x w) as (y & w1 & Hy & Hids1 & HR).
    destruct (IH w1) as (ys & w2 & Hys & Hids2 & HRs).
    exists (y :: ys), w2. simpl. unfold bind. rewrite Hy, Hys.
    repeat split; [congruence|now constructor].
Qed.

Lemma new_Date_returns (H : Host) (w : World) :
  exists d w', new_Date H w = (Returned d, w') /\ ids w' = ids w.
Proof.
  unfold new_Date, Date_now, bind, ret. eexists _, _. split; reflexivity.
Qed.

Lemma updated_task_returns (H : Host) taskId updates (task : Task) (w : World) :
  exists y w', updated_task H taskId updates task w = (Returned y, w')
               /\ ids w' = ids w /\ True.
Proof.
  unfold updated_task, new_Date, Date_now, bind, ret.
  destruct (t_id task =? taskId)%string; eexists _, _; repeat split.
Qed.

Lemma with_added_dependency_total (H : Host) taskId dependency (task : Task) (w : World) :
  exists y w', with_added_dependency H taskId dependency task w = (Returned y, w')
               /\ ids w' = ids w /\ True.
Proof.
  unfold with_added_dependency, new_Date, Date_now, bind, ret.
  destruct (negb (t_id task =? taskId)%string);
    [|destruct (find _ _)]; eexists _, _; repeat split.
Qed.

Lemma without_dependency_returns (H : Host) taskId dependencyTaskId (task : Task) (w : World) :
  exists y w', without_dependency H taskId dependencyTaskId task w = (Returned y, w')
               /\ ids w' = ids w /\ True.
Proof.
  unfold without_dependency, new_Date, Date_now, bind, ret.
  destruct (negb (t_id task =? taskId)%string); eexists _, _; repeat split.
Qed.

(** A task operation whose change of the task list returns has the
    effect of a task operation. *)
Lemma task_operation_effect (H : Host) (prefix : string)
    (change : list Task -> M (list Task)) (w : World) :
  (forall ts w0, exists ts' w', change ts w0 = (Returned ts', w')
                                /\ ids w' = ids w0) ->
  task_effect w
    (snd (try_catch (bind require_current (fun _ => update_current H change))
            (fail_with prefix) w)).
Proof.
  intros Hchange. destruct (currentProject (state w)) as [cp|] eqn:Hcur.
  - destruct (Hchange (tasks cp)
                {| state := begin_loading (state w); tick := tick w; ids := ids w |})
      as (ts' & w' & Hch & Hids).
    rewrite (task_operation_some H prefix change w w' cp ts' Hcur Hch).
    split; [cbn in *; lia|]. right. eexists cp, ts', _.
    split; [exact Hcur|]. split; reflexivity.
  - rewrite (task_operation_none prefix (fun _ => update_current H change) w Hcur).
    split; [cbn; lia|]. left. split; reflexivity.
Qed.

(** The date handling of [createTask] always returns. *)
Lemma resolve_dates_returns (H : Host) (taskData : TaskData) (w : World) :
  exists dates w',
    resolve_dates H taskData w = (Returned dates, w')
    /\ state w' = state w /\ ids w' = ids w.
Proof.
  unfold resolve_dates, try_catch, bind, new_Date, Date_now, bind, ret.
  destruct (td_startDate taskData); destruct (td_endDate taskData);
    cbn; repeat match goal with
         | |- context [invalid ?d] => destruct (invalid d); cbn
         end;
    eexists _, _; repeat split.
Qed.

Lemma createTask_effect (H : Host) (taskData : TaskData) (w : World) :
  task_effect w (snd (createTask H taskData w)).
Proof.
  unfold createTask, try_catch. unfold bind at 1.
  destruct (currentProject (state w)) as [cp|] eqn:Hcur.
  - rewrite (require_current_some w cp Hcur).
    destruct (resolve_dates_returns H taskData
                {| state := begin_loading (state w); tick := tick w; ids := ids w |})
      as ([d1 d2] & w' & Hres & Hstate & Hids).
    unfold bind at 1. rewrite Hres.
    unfold Date_toISOString, uuidv4, new_Date, Date_now, update_current, set_with,
      fail_with, set_failure, set_with, throw, get, put, bind, ret.
    destruct d1 as [t1|]; [destruct d2 as [t2|]|]; cbn; rewrite ?Hstate; cbn;
      rewrite ?Hcur; cbn in *.
    + split; [cbn; lia|]. right. eexists cp, _, _.
      split; [exact Hcur|]. split; reflexivity.
    + split; [cbn; lia|]. left. split; reflexivity.
    + split; [cbn; lia|]. left. split; reflexivity.
  - rewrite (require_current_none w Hcur). cbn.
    split; [cbn; lia|]. left. split; reflexivity.
Qed.

Lemma task_operation_effects (H : Host) (op : Op) (w : World) :
  match op with
  | CreateTask _ | UpdateTask _ _ | DeleteTask _
  | AddDependency _ _ | RemoveDependency _ _ => task_effect w (after H op w)
  | _ => True
  end.
Proof.
  destruct op; try exact I; unfold after, perform.
  - apply createTask_effect.
  - apply task_operation_effect. intros ts w0.
    destruct (mapM_returns _ _ (updated_task_returns H taskId updates) ts w0)
      as (ys & w' & Hm & Hids & _). now exists ys, w'.
  - apply task_operation_effect. intros ts w0. eexists _, _. split; reflexivity.
  - apply task_operation_effect. intros ts w0.
    destruct (mapM_returns _ _ (with_added_dependency_total H taskId dependency) ts w0)
      as (ys & w' & Hm & Hids & _). now exists ys, w'.
  - apply task_operation_effect. intros ts w0.
    destruct (mapM_returns _ _ (without_dependency_returns H taskId dependencyTaskId) ts w0)
      as (ys & w' & Hm & Hids & _). now exists ys, w'.
Qed.

Lemma NoDup_map_injective {A B} (f : A -> B) (l : list A) (a b : A) :
  NoDup (map f l) -> In a l -> In b l -> f a = f b -> a = b.
Proof.
  induction l as [|x l IH]; simpl; [contradiction|].
  intros Hnd Ha Hb Hf. inversion Hnd as [|? ? Hnotin Hnd']; subst.
  destruct Ha as [<-|Ha], Hb as [<-|Hb]; auto.
  - exfalso. apply Hnotin. rewrite Hf. now apply in_map.
  - exfalso. apply Hnotin. rewrite <- Hf. now apply in_map.
Qed.

Lemma well_formed_consistent (H : Host) (w : World) :
  well_formed H w -> consistent (state w).
Proof.
  intros (Hnd & _ & Hcur). unfold consistent.
  destruct (currentProject (state w)) as [cp|]; [|exact I].
  split; [exact Hcur|]. intros p Hp Hid.
  now apply (NoDup_map_injective p_id (projects (state w))).
Qed.

Lemma well_formed_initial (H : Host) : well_formed H initial_world.
Proof.
  repeat split; simpl; try constructor. intros p [].
Qed.

Lemma install_ids (cp' : Project) (s : State) :
  map p_id (projects (install cp' s)) = map p_id (projects s).
Proof.
  unfold install. simpl. rewrite map_map. apply map_ext_in. intros p _.
  destruct (p_id p =? p_id cp')%string eqn:Hid; [|reflexivity].
  symmetry. now apply String.eqb_eq.
Qed.

Lemma task_effect_well_formed (H : Host) (w w' : World) :
  well_formed H w -> task_effect w w' -> well_formed H w'.
Proof.
  intros (Hnd & Hissued & Hcur) (Hids & [(Hps & Hcp)|(cp & ts & now & Hsel & Hps & Hcp)]).
  - unfold well_formed. rewrite Hps, Hcp. repeat split; try assumption.
    intros p Hp. destruct (Hissued p Hp) as (k & Hk & Hid). exists k. split; [lia|exact Hid].
  - rewrite Hsel in Hcur. unfold well_formed. rewrite Hps, Hcp.
    split; [|split].
    + now rewrite install_ids.
    + intros p Hp. unfold install in Hp. simpl in Hp. apply in_map_iff in Hp.
      destruct Hp as (p0 & Hp0 & Hin).
      cbn [p_id rebuilt] in Hp0.
      destruct (p_id p0 =? p_id cp)%string eqn:Hid; subst p.
      * destruct (Hissued cp Hcur) as (k & Hk & Hidk).
        exists k. split; [lia|exact Hidk].
      * destruct (Hissued p0 Hin) as (k & Hk & Hidk).
        exists k. split; [lia|exact Hidk].
    + unfold install. simpl. apply in_map_iff. exists cp.
      split; [|exact Hcur]. now rewrite String.eqb_refl.
Qed.

Lemma createProject_effect (H : Host) (name description : string) (w : World) :
  exists newProject,
    p_id newProject = uuid H (ids w)
    /\ projects (state (snd (createProject H name description w)))
       = projects (state w) ++ [newProject]
    /\ currentProject (state (snd (createProject H name description w)))
       = Some newProject
    /\ ids (snd (createProject H name description w)) = S (ids w).
Proof.
  unfold createProject, try_catch, set_loading_start, set_with, uuidv4, new_Date,
    Date_now, get, put, bind, ret. cbn.
  eexists. repeat split; reflexivity.
Qed.

Lemma createProject_well_formed (H : Host) (name description : string) (w : World) :
  (forall i j, uuid H i = uuid H j -> i = j) ->
  well_formed H w -> well_formed H (snd (createProject H name description w)).
Proof.
  intros Hinj (Hnd & Hissued & Hcur).
  destruct (createProject_effect H name description w)
    as (newProject & Hid & Hps & Hcp & Hids).
  unfold well_formed. rewrite Hps, Hcp, Hids. split; [|split].
  - rewrite map_app. simpl. apply NoDup_app; [exact Hnd|repeat constructor; intros []|].
    intros x Hx [Hx'|[]]. apply in_map_iff in Hx as (p & <- & Hp).
    destruct (Hissued p Hp) as (k & Hk & Hidk).
    rewrite Hid, Hidk in Hx'. apply Hinj in Hx'. lia.
  - intros p Hp. apply in_app_or in Hp as [Hp|[<-|[]]].
    + destruct (Hissued p Hp) as (k & Hk & Hidk). exists k. split; [lia|exact Hidk].
    + exists (ids w). split; [lia|exact Hid].
  - apply in_or_app. right. now left.
Qed.

Lemma Forall2_in_left {A B} (R : A -> B -> Prop) (l : list A) (l' : list B) (x : A) :
  Forall2 R l l' -> In x l -> exists y, In y l' /\ R x y.
Proof.
  induction 1 as [|a b l l' Hab _ IH]; simpl; [contradiction|].
  intros [<-|Hx].
  - exists b. split; [now left|exact Hab].
  - destruct (IH Hx) as (y & Hy & HR). exists y. split; [now right|exact HR].
Qed.

Lemma Forall2_in_right {A B} (R : A -> B -> Prop) (l : list A) (l' : list B) (y : B) :
  Forall2 R l l' -> In y l' -> exists x, In x l /\ R x y.
Proof.
  induction 1 as [|a b l l' Hab _ IH]; simpl; [contradiction|].
  intros [<-|Hy].
  - exists a. split; [now left|exact Hab].
  - destruct (IH Hy) as (x & Hx & HR). exists x. split; [now right|exact HR].
Qed.

Lemma Forall2_map_eq {A B C} (f : A -> C) (g : B -> C) (l : list A) (l' : list B) :
  Forall2 (fun x y => g y = f x) l l' -> map g l' = map f l.
Proof.
  induction 1; simpl; congruence.
Qed.

Lemma updated_project_returns (H : Host) (projectId : string)
    (updates : ProjectUpdates) (p : Project) (w : World) :
  pu_id updates = None ->
  exists p' w', updated_project H projectId updates p w = (Returned p', w')
                /\ ids w' = ids w /\ same_id_or_same projectId p p'.
Proof.
  intros Hnoid. unfold updated_project, new_Date, Date_now, bind, ret.
  destruct (p_id p =? projectId)%string eqn:Hid.
  - eexists _, _. split; [reflexivity|]. split; [reflexivity|]. split.
    + unfold merge_project. simpl. now rewrite Hnoid.
    + intros Hne. apply String.eqb_eq in Hid. contradiction.
  - eexists _, _. split; [reflexivity|]. split; [reflexivity|]. now split.
Qed.

Lemma updateProject_well_formed (H : Host) (projectId : string)
    (updates : ProjectUpdates) (w : World) :
  pu_id updates = None ->
  well_formed H w -> well_formed H (snd (updateProject H projectId updates w)).
Proof.
  intros Hnoid (Hnd & Hissued & Hcur).
  destruct (mapM_returns _ _ (fun p w0 => updated_project_returns H projectId updates p w0 Hnoid)
              (projects (state w))
              {| state := begin_loading (state w); tick := tick w; ids := ids w |})
    as (ps' & w' & Hmap & Hids & Hrel).
  unfold updateProject, try_catch, set_loading_start, set_with, get, put, bind, ret.
  cbn. unfold bind in Hmap. cbn in Hmap. rewrite Hmap. cbn.
  unfold well_formed. cbn. cbn in Hids. split; [|split].
  - replace (map p_id ps') with (map p_id (projects (state w))); [exact Hnd|].
    symmetry. apply Forall2_map_eq.
    eapply Forall2_impl; [|exact Hrel]. intros a b [Hab _]. exact Hab.
  - intros p' Hp'. destruct (Forall2_in_right _ _ _ _ Hrel Hp') as (p & Hp & Hid & _).
    destruct (Hissued p Hp) as (k & Hk & Hidk). exists k. split; [lia|congruence].
  - destruct (currentProject (state w)) as [cp|]; [|exact I].
    destruct (p_id cp =? projectId)%string eqn:Hid.
    + destruct (find _ ps') as [q|] eqn:Hfind; [|exact I].
      now apply find_some in Hfind.
    + destruct (Forall2_in_left _ _ _ _ Hrel Hcur) as (p' & Hp' & _ & Hsame).
      rewrite Hsame in Hp'; [exact Hp'|].
      intros Heq. rewrite Heq, String.eqb_refl in Hid. discriminate.
Qed.

Lemma NoDup_map_filter {A B} (f : A -> B) (g : A -> bool) (l : list A) :
  NoDup (map f l) -> NoDup (map f (filter g l)).
Proof.
  induction l as [|x l IH]; simpl; [auto|].
  intros Hnd. inversion Hnd as [|? ? Hnotin Hnd']; subst.
  destruct (g x); simpl; [|auto]. constructor; [|auto].
  intros Hin. apply Hnotin. apply in_map_iff in Hin as (y & Hy & Hin).
  apply filter_In in Hin as [Hin _]. rewrite <- Hy. now apply in_map.
Qed.

Lemma deleteProject_well_formed (H : Host) (projectId : string) (w : World) :
  well_formed H w -> well_formed H (snd (deleteProject projectId w)).
Proof.
  intros (Hnd & Hissued & Hcur).
  unfold deleteProject, try_catch, set_loading_start, set_with, get, put, bind, ret.
  cbn. unfold well_formed. cbn. split; [|split].
  - now apply NoDup_map_filter.
  - intros p Hp. apply filter_In in Hp as [Hp _]. now apply Hissued.
  - destruct (currentProject (state w)) as [cp|]; [|exact I].
    destruct (p_id cp =? projectId)%string eqn:Hid; [exact I|].
    apply filter_In. split; [exact Hcur|]. now rewrite Hid.
Qed.

Lemma selectProject_well_formed (H : Host) (projectId : string) (w : World) :
  well_formed H w -> well_formed H (snd (selectProject projectId w)).
Proof.
  intros (Hnd & Hissued & Hcur).
  unfold selectProject, try_catch, set_with, throw, get, put, bind, ret. cbn.
  destruct (find _ (projects (state w))) as [project|] eqn:Hfind; cbn.
  - unfold well_formed. cbn. repeat split; try assumption.
    now apply find_some in Hfind.
  - unfold well_formed. cbn. repeat split; assumption.
Qed.

Lemma after_well_formed (H : Host) (op : Op) (w : World) :
  (forall i j, uuid H i = uuid H j -> i = j) ->
  keeps_id op = true ->
  well_formed H w -> well_formed H (after H op w).
Proof.
  intros Hinj Hkeeps Hwf.
  pose proof (task_operation_effects H op w) as Heffect.
  destruct op; try (now apply (task_effect_well_formed H w)); unfold after, perform.
  - now apply createProject_well_formed.
  - apply updateProject_well_formed; [|exact Hwf].
    simpl in Hkeeps. now destruct (pu_id updates).
  - now apply deleteProject_well_formed.
  - now apply selectProject_well_formed.
  - destruct Hwf as (Hnd & Hissued & Hcur). unfold clearError, set_with, get, put, bind, ret.
    cbn. unfold well_formed. cbn. repeat split; assumption.
Qed.

(** C9, amended.  When the identifiers the host issues are pairwise
    distinct and no call of [updateProject] passes an [id] key, every
    state reached from the initial state by store operations has
    [currentProject] null or an entry of [projects], and that entry is
    the only one with its id: the operations install the project they
    rebuild both as [currentProject] and as the entries of [projects]
    with its id. *)
Theorem currentProject_mirrors_projects (H : Host) (ops : list Op) :
  (forall i j, uuid H i = uuid H j -> i = j) ->
  forallb keeps_id ops = true ->
  consistent (state (run H ops initial_world)).
Proof.
  intros Hinj Hkeeps. apply (well_formed_consistent H).
  unfold run. generalize (well_formed_initial H).
  generalize initial_world as w.
  induction ops as [|op ops IH]; intros w Hwf; simpl; [exact Hwf|].
  simpl in Hkeeps. apply andb_prop in Hkeeps as [Hop Hops].
  apply IH; [exact Hops|]. now apply after_well_formed.
Qed.

(** C9, as stated, fails: [updateProject] merges an [id] key like any
    other, and after [updateProject("0", { id: "1" })] two entries of
    [projects] carry the id of the current project, one of which is not
    the current project. *)
Lemma updateProject_duplicates_id :
  let s := state (run Reference.host Sample.renamed_project initial_world) in
  map (fun p => (p_id p, p_name p)) (projects s) = [("1", "A"); ("1", "B")]
  /\ option_map (fun p => (p_id p, p_name p)) (currentProject s) = Some ("1", "B")
  /\ ~ consistent s.
Proof.
  split; [reflexivity|]. split; [reflexivity|].
  intros Hc. vm_compute in Hc. destruct Hc as [_ Hunique].
  specialize (Hunique _ (or_introl eq_refl) eq_refl). discriminate Hunique.
Qed.

(** The identifiers of the reference host are pairwise distinct. *)
Lemma reference_uuid_injective (i j : nat) :
  uuid Reference.host i = uuid Reference.host j -> i = j.
Proof.
  simpl. unfold Reference.digits_of_nat. intros Heq.
  apply (f_equal NilEmpty.uint_of_string) in Heq.
  rewrite !NilEmpty.usu in Heq. injection Heq as Heq.
  apply (f_equal Nat.of_uint) in Heq.
  now rewrite !DecimalNat.Unsigned.of_to in Heq.
Qed.

Lemma currentProject_mirrors_projects_witness :
  consistent (state (run Reference.host Sample.two_projects initial_world)).
Proof.
  apply (currentProject_mirrors_projects Reference.host Sample.two_projects).
  - exact reference_uuid_injective.
  - reflexivity.
Defined.

(** ** The start-up guard (C6) *)

Lemma obind_not_false {A} (m : outcome A) (k : A -> outcome bool) :
  (forall a, m = Returned a -> k a <> Returned false) ->
  obind m k <> Returned false.
Proof.
  intros Hk. destruct m as [a|e]; simpl; [now apply Hk|discriminate].
Qed.

(** Once [needsMigration] is set, the loops do not reset it. *)
Lemma check_fields_sticky (H : Host) (obj : json) (fields : list string) :
  check_fields H obj fields true <> Returned false.
Proof.
  induction fields as [|field rest IH]; simpl; [discriminate|].
  apply obind_not_false. intros v _.
  destruct v as [[| | |s| |]|]; try exact IH.
  destruct (negb (s =? "")%string && invalid (Date_of_string H s)); [discriminate|exact IH].
Qed.

Lemma check_tasks_sticky (H : Host) (ts : list json) :
  check_tasks H ts true <> Returned false.
Proof.
  induction ts as [|task rest IH]; cbn [check_tasks]; [discriminate|].
  apply obind_not_false. intros [|] Hfields; [discriminate|].
  now apply check_fields_sticky in Hfields.
Qed.

(** An unparsable date field among those a loop reads sets
    [needsMigration] (or makes the loop throw). *)
Lemma check_fields_unparsable (H : Host) (obj : json) (fields : list string)
    (needsMigration : bool) :
  existsb (unparsable_field H obj) fields = true ->
  check_fields H obj fields needsMigration <> Returned false.
Proof.
  induction fields as [|field rest IH]; simpl; [discriminate|].
  intros Hbad. apply obind_not_false. intros v Hv.
  unfold unparsable_field in Hbad at 1.
  destruct obj as [| | | | |members]; simpl in Hv; try discriminate;
    try (injection Hv as <-; simpl in Hbad; now apply IH).
  injection Hv as <-.
  destruct (lookup field members) as [[| | |s| |]|]; simpl in Hbad;
    try (now apply IH).
  destruct (negb (s =? "")%string && invalid (Date_of_string H s));
    [discriminate|now apply IH].
Qed.

Lemma check_tasks_unparsable (H : Host) (ts : list json) (needsMigration : bool) :
  existsb (unparsable_task H) ts = true ->
  check_tasks H ts needsMigration <> Returned false.
Proof.
  revert needsMigration.
  induction ts as [|task rest IH]; cbn [check_tasks existsb]; [discriminate|].
  intros needsMigration Hbad. apply obind_not_false. intros [|] Hfields; [discriminate|].
  apply orb_prop in Hbad as [Hbad|Hbad]; [|now apply IH].
  now apply (check_fields_unparsable H task _ needsMigration) in Hbad.
Qed.

Lemma check_projects_unparsable (H : Host) (ps : list json) (needsMigration : bool) :
  existsb (unparsable_project H) ps = true ->
  check_projects H ps needsMigration <> Returned false.
Proof.
  revert needsMigration.
  induction ps as [|project rest IH]; cbn [check_projects existsb]; [discriminate|].
  intros needsMigration Hbad.
  apply obind_not_false. intros own Hown.
  apply obind_not_false. intros project_tasks Htasks.
  apply obind_not_false. intros [|] Hloop; [discriminate|].
  apply orb_prop in Hbad as [Hbad|Hbad]; [|now apply IH].
  exfalso. unfold unparsable_project in Hbad.
  apply orb_prop in Hbad as [Hbad|Hbad].
  - (* a date field of the project itself *)
    destruct own.
    + destruct (truthy_json project_tasks); [|discriminate].
      destruct project_tasks as [v|]; [|discriminate].
      destruct (iterate v) as [ts|e]; simpl in Hloop; [|discriminate].
      now apply check_tasks_sticky in Hloop.
    + now apply (check_fields_unparsable H project _ needsMigration) in Hbad.
  - (* a date field of one of its tasks *)
    destruct project as [| | | | |members]; try discriminate.
    simpl in Htasks. injection Htasks as <-.
    destruct (lookup "tasks" members) as [[| | | |ts|]|]; try discriminate.
    simpl in Hloop. now apply (check_tasks_unparsable H ts own) in Hbad.
Qed.

(** C6, amended.  When the persisted payload is an object whose
    [state.projects] is an array, and some project of that array has a
    non-empty string that does not parse to a valid date in its own
    [createdAt] or [updatedAt], or in the [startDate], [endDate],
    [createdAt] or [updatedAt] of a task of its [tasks] array, the guard
    removes the slot. *)
Theorem migrateLegacyStorage_discards (H : Host)
    (members stateMembers : list (string * json)) (ps : list json) :
  lookup "state" members = Some (Jobj stateMembers) ->
  lookup "projects" stateMembers = Some (Jarr ps) ->
  existsb (unparsable_project H) ps = true ->
  migrateLegacyStorage H (Some (JsonText (Jobj members))) = None.
Proof.
  intros Hstate Hprojects Hbad.
  unfold migrateLegacyStorage. simpl. rewrite Hstate. simpl.
  rewrite Hprojects. simpl.
  pose proof (check_projects_unparsable H ps false Hbad) as Hloop.
  destruct (check_projects H ps false) as [[|]|e]; try reflexivity.
  now contradiction Hloop.
Qed.

Lemma migrateLegacyStorage_discards_witness :
  existsb (unparsable_project Reference.host)
    [Sample.stored_project "2025-06-15T15:06:40.000Z"
       [Sample.stored_task "not-a-date"]] = true
  /\ migrateLegacyStorage Reference.host (Some (JsonText Sample.bad_task_date)) = None.
Proof.
  split; [reflexivity|].
  eapply (migrateLegacyStorage_discards Reference.host).
  - reflexivity.
  - reflexivity.
  - vm_compute. reflexivity.
Defined.

(** C6, as stated, fails: the guard reads [state.projects] only, and
    only non-empty strings.  A payload whose [currentProject] has the
    [createdAt] ["not-a-date"], and a payload with a project whose
    [createdAt] is the empty string, both hold a date-bearing string
    that fails to parse, and both are kept. *)
Lemma migrateLegacyStorage_keeps_unparsable_dates :
  unparsable_anywhere Reference.host Sample.stale_current = true
  /\ migrateLegacyStorage Reference.host (Some (JsonText Sample.stale_current))
     = Some (JsonText Sample.stale_current)
  /\ unparsable_anywhere Reference.host Sample.empty_date = true
  /\ migrateLegacyStorage Reference.host (Some (JsonText Sample.empty_date))
     = Some (JsonText Sample.empty_date).
Proof.
  vm_compute. repeat split; reflexivity.
Qed.

(** ** Failures of the persistence functions (C7) *)




(** ** The round trip through the persisted form (C3) *)

(** No Date survives [processForSerialization]. *)
Lemma processForSerialization_erases_Dates (H : Host) :
  forall (v : jsval) (tk : nat),
    has_Date (fst (processForSerialization H v tk)) = false.
Proof.
  fix IH 1. intros v tk. destruct v as [| | | | | | |items|fields]; try reflexivity.
  - cbn [processForSerialization].
    match goal with
    | |- context [(fix each (l : list jsval) (tk : nat) {struct l} := _) items tk] =>
        set (each := fix each (l : list jsval) (tk : nat) {struct l}
                       : list jsval * nat := _)
    end.
    assert (Heach : forall tk0, existsb has_Date (fst (each items tk0)) = false).
    { induction items as [|x rest IHrest]; intros tk0; [reflexivity|].
      cbn [each]. fold each.
      pose proof (IH x tk0) as Hx.
      destruct (processForSerialization H x tk0) as [x' tk1].
      pose proof (IHrest tk1) as Hrest.
      destruct (each rest tk1) as [rest' tk2].
      cbn in *. now rewrite Hx, Hrest. }
    specialize (Heach tk). destruct (each items tk) as [items' tk']. exact Heach.
  - cbn [processForSerialization].
    destruct (fix_invalid_dates H fields tk) as [assigned tk0].
    match goal with
    | |- context [(fix each (l : list (string * jsval)) (tk : nat) {struct l} := _) fields tk0] =>
        set (each := fix each (l : list (string * jsval)) (tk : nat) {struct l}
                       : list (string * jsval) * nat := _)
    end.
    assert (Heach : forall tk1,
              existsb (fun '(_, x) => has_Date x) (fst (each fields tk1)) = false).
    { induction fields as [|[key x] rest IHrest]; intros tk1; [reflexivity|].
      cbn [each]. fold each.
      pose proof (IH x tk1) as Hx.
      destruct (lookup key assigned) as [d|].
      - pose proof (IHrest tk1) as Hrest.
        destruct (each rest tk1) as [rest' tk2]. cbn in *. exact Hrest.
      - destruct (truthy_js x && is_object_js x) eqn:Hobj.
        + destruct (processForSerialization H x tk1) as [x' tk2].
          pose proof (IHrest tk2) as Hrest.
          destruct (each rest tk2) as [rest' tk3]. cbn in *. now rewrite Hx, Hrest.
        + pose proof (IHrest tk1) as Hrest.
          destruct (each rest tk1) as [rest' tk2]. cbn in *. rewrite Hrest.
          destruct x; try reflexivity; discriminate. }
    specialize (Heach tk0). destruct (each fields tk0) as [processed tk']. exact Heach.
Qed.

(** No Date survives [convertDates] either. *)
Lemma convertDates_erases_Dates (H : Host) :
  forall (doc : json) (tk : nat), has_Date (fst (convertDates H doc tk)) = false.
Proof.
  fix IH 1. intros doc tk. destruct doc as [| | | |items|members]; try reflexivity.
  - cbn [convertDates].
    match goal with
    | |- context [(fix each (l : list json) (tk : nat) {struct l} := _) items tk] =>
        set (each := fix each (l : list json) (tk : nat) {struct l}
                       : list jsval * nat := _)
    end.
    assert (Heach : forall tk0, existsb has_Date (fst (each items tk0)) = false).
    { induction items as [|x rest IHrest]; intros tk0; [reflexivity|].
      cbn [each]. fold each.
      pose proof (IH x tk0) as Hx.
      destruct (convertDates H x tk0) as [x' tk1].
      pose proof (IHrest tk1) as Hrest.
      destruct (each rest tk1) as [rest' tk2].
      cbn in *. now rewrite Hx, Hrest. }
    specialize (Heach tk). destruct (each items tk) as [items' tk']. exact Heach.
  - cbn [convertDates].
    destruct (convert_date_strings H members tk) as [assigned0 tk0].
    generalize (order_dates H assigned0 members). intros assigned.
    match goal with
    | |- context [(fix each (l : list (string * json)) (tk : nat) {struct l} := _) members tk0] =>
        set (each := fix each (l : list (string * json)) (tk : nat) {struct l}
                       : list (string * jsval) * nat := _)
    end.
    assert (Heach : forall tk1,
              existsb (fun '(_, x) => has_Date x) (fst (each members tk1)) = false).
    { induction members as [|[key x] rest IHrest]; intros tk1; [reflexivity|].
      cbn [each]. fold each.
      pose proof (IH x tk1) as Hx.
      destruct (lookup key assigned) as [d|].
      - pose proof (IHrest tk1) as Hrest.
        destruct (each rest tk1) as [rest' tk2]. cbn in *. exact Hrest.
      - destruct (truthy_json (Some x) && is_object_json x) eqn:Hobj.
        + destruct (convertDates H x tk1) as [x' tk2].
          pose proof (IHrest tk2) as Hrest.
          destruct (each rest tk2) as [rest' tk3]. cbn in *. now rewrite Hx, Hrest.
        + pose proof (IHrest tk1) as Hrest.
          destruct (each rest tk1) as [rest' tk2]. cbn in *. rewrite Hrest.
          destruct x; try reflexivity; discriminate. }
    specialize (Heach tk0). destruct (each members tk0) as [converted tk']. exact Heach.
Qed.

(** Whatever the state, what [deserialize] reads back from the text
    [serialize] wrote contains no Date. *)
Lemma round_trip_has_no_Date (H : Host) (state : jsval) (tk tk' : nat) :
  has_Date (fst (deserialize H (fst (serialize H state tk)) tk')) = false.
Proof.
  unfold deserialize.
  destruct (fst (serialize H state tk)) as [| |doc]; try reflexivity.
  apply convertDates_erases_Dates.
Qed.

(** C3.  [deserialize (serialize state)] does not give the state back:
    [processForSerialization] replaces every Date of the state by the
    empty object, and [convertDates] does the same to the Dates it makes.
    On the demo project (valid dates, [endDate > startDate], completion
    50), [createdAt] of the project and [startDate] of its task are Dates
    in the state and [{}] after the round trip, and no Date is left. *)
Theorem round_trip_loses_dates :
  let s := state (run Reference.host Sample.demo initial_world) in
  let restored :=
    fst (deserialize Reference.host
           (fst (serialize Reference.host (partialize s) 0)) 0) in
  forallb date_ordered (all_tasks s) = true
  /\ forallb completion_in_bounds (all_tasks s) = true
  /\ at_path [Key "projects"; Index 0; Key "createdAt"] (partialize s)
     = Some (JDate (Some 1750000000000))
  /\ at_path [Key "projects"; Index 0; Key "createdAt"] restored
     = Some (JObject [])
  /\ at_path [Key "currentProject"; Key "tasks"; Index 0; Key "startDate"]
       (partialize s)
     = Some (JDate (Some Sample.day0))
  /\ at_path [Key "currentProject"; Key "tasks"; Index 0; Key "startDate"] restored
     = Some (JObject [])
  /\ has_Date (partialize s) = true
  /\ has_Date restored = false.
Proof.
  vm_compute. repeat split; reflexivity.
Qed.

(** ** createTask keeps the dates in order *)

(** "Ensure end date is after start date": the end date this
    adjustment leaves, when it is a valid Date, is after the start. *)
Lemma adjusted_end_is_later (s e : Z) (endDate : date) :
  (if Date_le endDate (Some s) then Date_plus (Some s) ONE_DAY else endDate)
  = Some e ->
  s < e.
Proof.
  destruct endDate as [x|]; simpl.
  - destruct (Z.leb_spec x s); intros Heq.
    + apply Date_of_ms_valid in Heq as [-> _]. unfold ONE_DAY. lia.
    + injection Heq as <-. exact H.
  - discriminate.
Qed.

(** Whatever the input, when the date handling of [createTask] ends
    with two valid Dates the end is after the start. *)
Lemma resolve_dates_ordered (H : Host) (taskData : TaskData) (w w' : World)
    (s e : Z) :
  resolve_dates H taskData w = (Returned (Some s, Some e), w') -> s < e.
Proof.
  unfold resolve_dates, try_catch, bind, new_Date, Date_now, bind, ret.
  destruct (td_startDate taskData); destruct (td_endDate taskData); cbn;
    repeat match goal with
           | |- context [invalid ?d] => destruct (invalid d); cbn
           end;
    intros Heq; injection Heq as Hs He _; rewrite Hs in He;
    now apply adjusted_end_is_later in He.
Qed.

(** The task [createTask] appends has [endDate > startDate], for every
    input and every host. *)
Lemma createTask_orders_dates (H : Host) (taskData : TaskData) (w : World)
    (cp : Project) :
  currentProject (state w) = Some cp ->
  fst (createTask H taskData w) = Returned tt ->
  exists task,
    option_map tasks (currentProject (state (snd (createTask H taskData w))))
    = Some (tasks cp ++ [task])
    /\ date_ordered task = true.
Proof.
  intros Hcur.
  destruct (resolve_dates_returns H taskData
              {| state := begin_loading (state w); tick := tick w; ids := ids w |})
    as ([d1 d2] & w' & Hres & Hstate & Hids).
  pose proof (fun s e => resolve_dates_ordered H taskData
                {| state := begin_loading (state w); tick := tick w; ids := ids w |}
                w' s e) as Hlt.
  remember (createTask H taskData w) as r eqn:Hr.
  unfold createTask, try_catch in Hr. unfold bind at 1 in Hr.
  rewrite (require_current_some w cp Hcur) in Hr.
  unfold bind at 1 in Hr. rewrite Hres in *.
  unfold Date_toISOString, uuidv4, new_Date, Date_now, update_current, set_with,
    fail_with, set_failure, set_with, throw, get, put, bind, ret in Hr.
  destruct d1 as [t1|]; [destruct d2 as [t2|]|]; cbn in Hr; rewrite ?Hstate in Hr;
    cbn in Hr; rewrite ?Hcur in Hr; subst r; cbn; try discriminate.
  intros _. eexists. split; [reflexivity|].
  unfold date_ordered. cbn. apply Z.ltb_lt. now apply Hlt.
Qed.

(** ** updateTask merges what it is given, on every host *)

Lemma updated_task_merges (H : Host) (taskId : string) (updates : TaskUpdates)
    (task : Task) (w : World) :
  exists task' w',
    updated_task H taskId updates task w = (Returned task', w')
    /\ ids w' = ids w
    /\ if String.eqb (t_id task) taskId
       then exists now, task' = merge_task H task updates now
       else task' = task.
Proof.
  unfold updated_task, new_Date, Date_now, bind, ret.
  destruct (t_id task =? taskId)%string; eexists _, _;
    (split; [reflexivity|]); (split; [reflexivity|]).
  - eexists. reflexivity.
  - reflexivity.
Qed.

(** With a project selected, [updateTask] returns, and the new task
    list holds, for each task with the id [taskId], the merge of the task
    with the processed updates, and every other task as it was. *)
Lemma updateTask_merges_as_given (H : Host) (taskId : string)
    (updates : TaskUpdates) (w : World) (cp : Project) :
  currentProject (state w) = Some cp ->
  fst (updateTask H taskId updates w) = Returned tt
  /\ exists cp',
       currentProject (state (snd (updateTask H taskId updates w))) = Some cp'
       /\ Forall2 (fun task task' =>
                     if String.eqb (t_id task) taskId
                     then exists now, task' = merge_task H task updates now
                     else task' = task)
                  (tasks cp) (tasks cp').
Proof.
  intros Hcur.
  destruct (mapM_returns _ _ (updated_task_merges H taskId updates) (tasks cp)
              {| state := begin_loading (state w); tick := tick w; ids := ids w |})
    as (ts' & w' & Hmap & _ & Hrel).
  unfold updateTask.
  rewrite (task_operation_some H _ _ w w' cp ts' Hcur Hmap).
  split; [reflexivity|]. eexists. split; [reflexivity|]. exact Hrel.
Qed.

(** The merge keeps a valid end date and a completion as they are
    given, whatever the start date of the task and whatever the range of
    the completion. *)
Lemma merge_task_as_given (H : Host) (task : Task) (updates : TaskUpdates)
    (now : date) (e : Z) (c : value) :
  - MAX_TIME <= e <= MAX_TIME ->
  tu_startDate updates = None ->
  tu_endDate updates = Some (VDate (Some e)) ->
  tu_completion updates = Some c ->
  startDate (merge_task H task updates now) = startDate task
  /\ endDate (merge_task H task updates now) = VDate (Some e)
  /\ completion (merge_task H task updates now) = c.
Proof.
  intros Hrange Hstart Hend Hcompletion. unfold merge_task.
  cbn [startDate endDate completion]. rewrite Hstart, Hend, Hcompletion.
  cbn [process_date_update overridden truthy new_Date_of getTime].
  change (TimeClip (num e)) with (Date_of_ms e).
  rewrite (Date_of_ms_in_range e Hrange). repeat split; reflexivity.
Qed.

(** ** The scenarios of the specification on the reference host *)

(** Scenario A: [createProject("Demo", "")] leaves one project named
    "Demo", which is the current project. *)
Example scenario_A :
  let s := state (run Reference.host [CreateProject "Demo" ""] initial_world) in
  map p_name (projects s) = ["Demo"]
  /\ option_map p_name (currentProject s) = Some "Demo".
Proof.
  vm_compute. split; reflexivity.
Qed.

(** Scenario B: unparsable dates give a task with valid dates in
    order, and nothing is thrown. *)
Example scenario_B :
  let before := run Reference.host [CreateProject "Demo" ""] initial_world in
  let call := createTask Reference.host
                (Sample.task_data "T1" (VString "not-a-date") (VString "also-bad")
                   VUndefined) in
  fst (call before) = Returned tt
  /\ map (fun task => (startDate task, endDate task))
         (all_tasks (state (snd (call before))))
     = [(VDate (Some 1750000000002), VDate (Some (1750000000002 + ONE_WEEK)));
        (VDate (Some 1750000000002), VDate (Some (1750000000002 + ONE_WEEK)))]
  /\ forallb date_ordered (all_tasks (state (snd (call before)))) = true.
Proof.
  vm_compute. repeat split; reflexivity.
Qed.

(** Scenario D: T2 depends on T1 in the same project; after
    [deleteTask(T1.id)] the dependencies of T2 are empty. *)
Example scenario_D :
  let ops :=
    Sample.demo
    ++ [CreateTask (Sample.task_data "T2" (VDate (Some Sample.day0))
                      (VDate (Some Sample.day7)) VUndefined);
        AddDependency "2" (Sample.finish_to_start "1")] in
  let before := run Reference.host ops initial_world in
  map (fun task => (t_id task, dependencies task)) (all_tasks (state before))
  = [("1", []); ("2", [Sample.finish_to_start "1"]);
     ("1", []); ("2", [Sample.finish_to_start "1"])]
  /\ map (fun task => (t_id task, dependencies task))
         (all_tasks (state (after Reference.host (DeleteTask "1") before)))
     = [("2", []); ("2", [])].
Proof.
  vm_compute. split; reflexivity.
Qed.

(** Scenario E: a payload that is no JSON text is read as the empty
    state. *)
Example scenario_E :
  fst (deserialize Reference.host NotJson 0) = empty_state.
Proof.
  reflexivity.
Qed.

(* ================================================================== *)
(** * Further properties of the store, the formatter and the
      persistence layer *)
(* ================================================================== *)

Import Gantt Repair Vocabulary.

(** ** Lists *)

Lemma filter_all {A} (f : A -> bool) (l : list A) :
  (forall x, In x l -> f x = true) -> filter f l = l.
Proof.
  induction l as [|x l IH]; simpl; [reflexivity|].
  intros Hall. rewrite (Hall x (or_introl eq_refl)).
  f_equal. apply IH. intros y Hy. apply Hall. now right.
Qed.

Lemma Forall2_compose_in {A B C} (R1 : A -> B -> Prop) (R2 : B -> C -> Prop)
    (R3 : A -> C -> Prop) (l1 : list A) (l2 : list B) (l3 : list C) :
  (forall x y z, In x l1 -> R1 x y -> R2 y z -> R3 x z) ->
  Forall2 R1 l1 l2 -> Forall2 R2 l2 l3 -> Forall2 R3 l1 l3.
Proof.
  intros Hcomp H12. revert l3 Hcomp.
  induction H12 as [|x y l1 l2 Hxy _ IH]; intros l3 Hcomp H23;
    inversion H23 as [|? z ? l3' Hyz H23']; subst; constructor.
  - apply (Hcomp x y z); [now left|assumption|assumption].
  - apply IH; [|exact H23']. intros a b c Ha. apply Hcomp. now right.
Qed.

Lemma Forall2_same_in {A} (R : A -> A -> Prop) (l l' : list A) :
  Forall2 R l l' -> (forall x y, In x l -> R x y -> y = x) -> l' = l.
Proof.
  induction 1 as [|x y l l' Hxy _ IH]; intros Hsame; [reflexivity|].
  f_equal.
  - apply Hsame; [now left|exact Hxy].
  - apply IH. intros a b Ha. apply Hsame. now right.
Qed.

(** ** Task operations that map over the tasks *)

(** With a project selected, an operation that maps a callback that
    always returns over the tasks returns, and installs the project
    rebuilt with the results. *)
Lemma task_map_operation (H : Host) (prefix : string) (f : Task -> M Task)
    (R : Task -> Task -> Prop) (w : World) (cp : Project) :
  (forall x w0, exists y w',
      f x w0 = (Returned y, w') /\ ids w' = ids w0 /\ R x y) ->
  currentProject (state w) = Some cp ->
  exists ts' w',
    try_catch (bind require_current (fun _ => update_current H (mapM f)))
      (fail_with prefix) w
    = (Returned tt,
       {| state := install (rebuilt cp ts' (Date_of_ms (clock H (tick w'))))
                     (begin_loading (state w));
          tick := S (tick w'); ids := ids w' |})
    /\ Forall2 R (tasks cp) ts'.
Proof.
  intros Hf Hcur.
  destruct (mapM_returns f R Hf (tasks cp)
              {| state := begin_loading (state w); tick := tick w; ids := ids w |})
    as (ts' & w' & Hmap & _ & Hrel).
  exists ts', w'. split; [|exact Hrel].
  now apply task_operation_some.
Qed.

Lemma filter_removes_references (taskId : string) (deps : list TaskDependency) :
  existsb (fun dep => dep_taskId dep =? taskId)%string
    (filter (fun dep => negb (dep_taskId dep =? taskId)%string) deps) = false.
Proof.
  induction deps as [|dep deps IH]; simpl; [reflexivity|].
  destruct (dep_taskId dep =? taskId)%string eqn:Hdep; simpl; [exact IH|].
  now rewrite Hdep.
Qed.

Lemma without_dependency_effect (H : Host) (taskId dependencyTaskId : string)
    (task : Task) (w : World) :
  exists task' w',
    without_dependency H taskId dependencyTaskId task w = (Returned task', w')
    /\ ids w' = ids w
    /\ if String.eqb (t_id task) taskId
       then exists now,
           task' = with_dependencies task
                     (filter (fun dep => negb (dep_taskId dep =? dependencyTaskId)%string)
                             (dependencies task))
                     now
       else task' = task.
Proof.
  unfold without_dependency, new_Date, Date_now, bind, ret.
  destruct (t_id task =? taskId)%string; cbn; eexists _, _;
    (split; [reflexivity|]); (split; [reflexivity|]).
  - eexists. reflexivity.
  - reflexivity.
Qed.

Lemma with_added_dependency_effect (H : Host) (taskId : string)
    (dependency : TaskDependency) (task : Task) (w : World) :
  exists task' w',
    with_added_dependency H taskId dependency task w = (Returned task', w')
    /\ ids w' = ids w
    /\ if String.eqb (t_id task) taskId
       then match find (same_dependency dependency) (dependencies task) with
            | Some _ => task' = task
            | None => exists now,
                task' = with_dependencies task (dependencies task ++ [dependency]) now
            end
       else task' = task.
Proof.
  unfold with_added_dependency, new_Date, Date_now, bind, ret.
  destruct (t_id task =? taskId)%string; cbn;
    [destruct (find _ _)|]; eexists _, _;
    (split; [reflexivity|]); (split; [reflexivity|]);
    try reflexivity.
  eexists. reflexivity.
Qed.

(** X1.  With a project selected, [removeDependency(taskId,
    dependencyTaskId)] returns without an error; each task with the id
    [taskId] keeps its fields and loses exactly the dependencies on
    [dependencyTaskId], whatever their type, and every other task is left
    as it was. *)
Theorem removeDependency_removes (H : Host) (taskId dependencyTaskId : string)
    (w : World) (cp : Project) :
  currentProject (state w) = Some cp ->
  let w' := snd (removeDependency H taskId dependencyTaskId w) in
  fst (removeDependency H taskId dependencyTaskId w) = Returned tt
  /\ error (state w') = None
  /\ exists cp',
       currentProject (state w') = Some cp'
       /\ Forall2 (fun task task' =>
                     if String.eqb (t_id task) taskId
                     then same_but_dependencies task task'
                          /\ dependencies task'
                             = filter (fun dep =>
                                         negb (dep_taskId dep =? dependencyTaskId)%string)
                                      (dependencies task)
                          /\ refers_to dependencyTaskId task' = false
                     else task' = task)
                  (tasks cp) (tasks cp').
Proof.
  intros Hcur.
  destruct (task_map_operation H "Échec de suppression de dépendance: " _ _ w cp
              (without_dependency_effect H taskId dependencyTaskId) Hcur)
    as (ts' & w1 & Hcall & Hrel).
  unfold removeDependency. rewrite Hcall. cbn [fst snd].
  split; [reflexivity|]. split; [reflexivity|].
  eexists. split; [reflexivity|]. cbn [tasks rebuilt].
  eapply Forall2_impl; [|exact Hrel]. intros task task' Htask. cbn beta in *.
  destruct (t_id task =? taskId)%string; [|exact Htask].
  destruct Htask as (now & ->). split; [reflexivity|]. split; [reflexivity|].
  apply filter_removes_references.
Qed.

Lemma removeDependency_removes_witness :
  let before := run Reference.host Calls.linked_tasks initial_world in
  map dependencies (all_tasks (state before))
  = [[]; [Sample.finish_to_start "1"]; []; [Sample.finish_to_start "1"]]
  /\ fst (removeDependency Reference.host "2" "1" before) = Returned tt.
Proof.
  split; [reflexivity|].
  eapply (removeDependency_removes Reference.host "2" "1"
            (run Reference.host Calls.linked_tasks initial_world)).
  vm_compute. reflexivity.
Defined.

Lemma no_reference_no_equal_dependency (dependency : TaskDependency) (task : Task) :
  refers_to (dep_taskId dependency) task = false ->
  find (same_dependency dependency) (dependencies task) = None
  /\ filter (fun dep => negb (dep_taskId dep =? dep_taskId dependency)%string)
            (dependencies task)
     = dependencies task.
Proof.
  unfold refers_to. induction (dependencies task) as [|dep deps IH]; simpl;
    [now split|].
  intros Hno. apply orb_false_elim in Hno as [Hdep Hdeps].
  destruct (IH Hdeps) as [Hfind Hfilter].
  unfold same_dependency at 1. rewrite Hdep. simpl. split; [exact Hfind|].
  now rewrite Hfilter.
Qed.

(** X2.  With a project selected and no dependency on [d.taskId] in
    the tasks with the id [taskId], [addDependency(taskId, d)] followed by
    [removeDependency(taskId, d.taskId)] gives every task of the current
    project the dependency list and the fields it had: only [updatedAt]
    stamps differ. *)
Theorem addDependency_then_removeDependency (H : Host) (taskId : string)
    (dependency : TaskDependency) (w : World) (cp : Project) :
  currentProject (state w) = Some cp ->
  (forall task, In task (tasks cp) -> t_id task = taskId ->
                refers_to (dep_taskId dependency) task = false) ->
  let w1 := snd (addDependency H taskId dependency w) in
  let w2 := snd (removeDependency H taskId (dep_taskId dependency) w1) in
  fst (removeDependency H taskId (dep_taskId dependency) w1) = Returned tt
  /\ exists cp'',
       currentProject (state w2) = Some cp''
       /\ Forall2 (fun task task'' =>
                     same_but_dependencies task task''
                     /\ dependencies task'' = dependencies task)
                  (tasks cp) (tasks cp'').
Proof.
  intros Hcur Hfresh.
  destruct (task_map_operation H "Échec d'ajout de dépendance: " _ _ w cp
              (with_added_dependency_effect H taskId dependency) Hcur)
    as (ts1 & w1 & Hadd & Hrel1).
  unfold addDependency. rewrite Hadd. cbn [snd].
  set (world1 := {| state := _; tick := S (tick w1); ids := ids w1 |}).
  assert (Hcur1 : currentProject (state world1)
                  = Some (rebuilt cp ts1 (Date_of_ms (clock H (tick w1)))))
    by reflexivity.
  destruct (task_map_operation H "Échec de suppression de dépendance: " _ _ world1 _
              (without_dependency_effect H taskId (dep_taskId dependency)) Hcur1)
    as (ts2 & w2 & Hremove & Hrel2).
  unfold removeDependency. rewrite Hremove. cbn [fst snd].
  split; [reflexivity|]. eexists. split; [reflexivity|].
  cbn [tasks rebuilt] in *.
  refine (Forall2_compose_in _ _ _ _ _ _ _ Hrel1 Hrel2).
  intros x y z Hx Hxy Hyz. cbn beta in *. unfold same_but_dependencies.
  destruct (t_id x =? taskId)%string eqn:Hid.
  - apply String.eqb_eq in Hid.
    destruct (no_reference_no_equal_dependency dependency x (Hfresh x Hx Hid))
      as [Hfind Hfilter].
    rewrite Hfind in Hxy. destruct Hxy as (now1 & ->).
    cbn [t_id with_dependencies] in Hyz. rewrite Hid, String.eqb_refl in Hyz.
    destruct Hyz as (now2 & ->). cbn [dependencies with_dependencies t_updatedAt].
    rewrite filter_app, Hfilter. simpl. rewrite String.eqb_refl. simpl.
    rewrite app_nil_r. split; reflexivity.
  - subst y. rewrite Hid in Hyz. subst z. split; [|reflexivity].
    destruct x; reflexivity.
Qed.

Lemma addDependency_then_removeDependency_witness :
  let before := run Reference.host Sample.demo initial_world in
  option_map (fun p => map dependencies (tasks p)) (currentProject (state before))
  = Some [[]]
  /\ fst (removeDependency Reference.host "1" "7"
            (snd (addDependency Reference.host "1" (Sample.finish_to_start "7") before)))
     = Returned tt.
Proof.
  split; [reflexivity|].
  eapply (addDependency_then_removeDependency Reference.host "1"
            (Sample.finish_to_start "7")
            (run Reference.host Sample.demo initial_world)).
  - vm_compute. reflexivity.
  - intros task Hin _. vm_compute in Hin. destruct Hin as [<-|[]]. reflexivity.
Defined.

(** ** Projects *)

(** X3.  [deleteProject] undoes [createProject]: when no project has
    the id the host issues next, creating a project and deleting the
    project with that id leaves the list of projects as it was, returns
    without an error, and leaves no project selected. *)
Theorem createProject_then_deleteProject (H : Host) (name description : string)
    (w : World) :
  (forall p, In p (projects (state w)) -> p_id p <> uuid H (ids w)) ->
  let w1 := snd (createProject H name description w) in
  let w2 := snd (deleteProject (uuid H (ids w)) w1) in
  fst (createProject H name description w) = Returned tt
  /\ fst (deleteProject (uuid H (ids w)) w1) = Returned tt
  /\ projects (state w2) = projects (state w)
  /\ currentProject (state w2) = None
  /\ error (state w2) = None.
Proof.
  intros Hfresh.
  unfold createProject, deleteProject, try_catch, set_loading_start, set_with,
    uuidv4, new_Date, Date_now, get, put, bind, ret. cbn.
  rewrite String.eqb_refl. repeat split.
  rewrite filter_app. simpl. rewrite String.eqb_refl. simpl. rewrite app_nil_r.
  apply filter_all. intros p Hp. apply negb_true_iff. apply String.eqb_neq.
  now apply Hfresh.
Qed.

Lemma createProject_then_deleteProject_witness :
  let before := run Reference.host Sample.demo initial_world in
  map p_id (projects (state before)) = ["0"]
  /\ projects (state (snd (deleteProject "2"
                             (snd (createProject Reference.host "B" "" before)))))
     = projects (state before).
Proof.
  split; [reflexivity|].
  apply (createProject_then_deleteProject Reference.host "B" ""
           (run Reference.host Sample.demo initial_world)).
  intros p Hin. vm_compute in Hin. destruct Hin as [<-|[]]. vm_compute. discriminate.
Defined.

Lemma find_none_iff {A} (f : A -> bool) (l : list A) :
  (forall x, In x l -> f x = false) -> find f l = None.
Proof.
  induction l as [|x l IH]; simpl; [reflexivity|].
  intros Hall. rewrite (Hall x (or_introl eq_refl)). apply IH.
  intros y Hy. apply Hall. now right.
Qed.

(** X4.  [selectProject] never throws, never touches [projects] or
    [loading], and issues no identifier.  When a project has the id, the
    first such project becomes the current project and [error] is
    cleared; when none has, the current project stays and [error] is the
    message "Échec de sélection du projet: Projet avec ID <id> non
    trouvé". *)
Theorem selectProject_outcome (projectId : string) (w : World) :
  let w' := snd (selectProject projectId w) in
  fst (selectProject projectId w) = Returned tt
  /\ projects (state w') = projects (state w)
  /\ loading (state w') = loading (state w)
  /\ ids w' = ids w
  /\ match find (fun p => String.eqb (p_id p) projectId) (projects (state w)) with
     | Some project =>
         In project (projects (state w)) /\ p_id project = projectId
         /\ currentProject (state w') = Some project
         /\ error (state w') = None
     | None =>
         (forall p, In p (projects (state w)) -> p_id p <> projectId)
         /\ currentProject (state w') = currentProject (state w)
         /\ error (state w')
            = Some (String.concat ""
                      ["Échec de sélection du projet: Projet avec ID ";
                       projectId; " non trouvé"])
     end.
Proof.
  unfold selectProject, try_catch, set_with, throw, get, put, bind, ret. cbn.
  destruct (find _ (projects (state w))) as [project|] eqn:Hfind; cbn.
  - repeat split; try reflexivity.
    + now apply find_some in Hfind.
    + apply find_some in Hfind as [_ Hid]. now apply String.eqb_eq.
  - repeat split; try reflexivity.
    intros p Hp Hid. apply (find_none _ _ Hfind) in Hp.
    rewrite Hid, String.eqb_refl in Hp. discriminate.
Qed.

Lemma mapM_updated_project_unknown (H : Host) (projectId : string)
    (updates : ProjectUpdates) (ps : list Project) (w : World) :
  (forall p, In p ps -> p_id p <> projectId) ->
  mapM (updated_project H projectId updates) ps w = (Returned ps, w).
Proof.
  induction ps as [|p ps IH]; intros Hunknown; [reflexivity|].
  simpl. unfold bind, updated_project at 1.
  destruct (p_id p =? projectId)%string eqn:Hid.
  - apply String.eqb_eq in Hid. exfalso. apply (Hunknown p); [now left|exact Hid].
  - unfold ret at 1. rewrite IH; [reflexivity|].
    intros q Hq. apply Hunknown. now right.
Qed.

(** X5.  [updateProject] with an id that no project has (neither an
    entry of [projects] nor the current project) is no error: the call
    returns, [error] is null, [loading] is false, and [projects] and
    [currentProject] are as they were. *)
Theorem updateProject_unknown_id (H : Host) (projectId : string)
    (updates : ProjectUpdates) (w : World) :
  (forall p, In p (projects (state w)) -> p_id p <> projectId) ->
  (forall cp, currentProject (state w) = Some cp -> p_id cp <> projectId) ->
  fst (updateProject H projectId updates w) = Returned tt
  /\ state (snd (updateProject H projectId updates w))
     = {| projects := projects (state w);
          currentProject := currentProject (state w);
          loading := false; error := None |}
  /\ ids (snd (updateProject H projectId updates w)) = ids w.
Proof.
  intros Hunknown Hcurrent.
  pose proof (mapM_updated_project_unknown H projectId updates (projects (state w))
                {| state := begin_loading (state w); tick := tick w; ids := ids w |}
                Hunknown) as Hmap.
  unfold updateProject, try_catch, set_loading_start, set_with, get, put, bind, ret.
  cbn. rewrite Hmap. cbn.
  split; [reflexivity|]. split; [|reflexivity].
  destruct (currentProject (state w)) as [cp|] eqn:Hcur; [|reflexivity].
  destruct (p_id cp =? projectId)%string eqn:Hid; [|reflexivity].
  apply String.eqb_eq in Hid. now destruct (Hcurrent cp eq_refl).
Qed.

Lemma updateProject_unknown_id_witness :
  let before := run Reference.host Sample.demo initial_world in
  map p_id (projects (state before)) = ["0"]
  /\ fst (updateProject Reference.host "9" (Calls.only_name "X") before) = Returned tt.
Proof.
  split; [reflexivity|].
  apply (updateProject_unknown_id Reference.host "9" (Calls.only_name "X")
           (run Reference.host Sample.demo initial_world)).
  - intros p Hin. vm_compute in Hin. destruct Hin as [<-|[]]. vm_compute. discriminate.
  - intros cp Hcp. vm_compute in Hcp. injection Hcp as <-. vm_compute. discriminate.
Defined.

(** ** Tasks *)

(** X6.  With a project selected, [updateTask], [addDependency] and
    [removeDependency] with a task id that no task of the current project
    has are no error: the call returns, [error] is null, and the tasks of
    the current project are as they were. *)
Theorem unknown_task_id_is_no_error (H : Host) (op : Op) (taskId : string)
    (w : World) (cp : Project) :
  edited_task op = Some taskId ->
  currentProject (state w) = Some cp ->
  (forall task, In task (tasks cp) -> t_id task <> taskId) ->
  fst (perform H op w) = Returned tt
  /\ error (state (after H op w)) = None
  /\ option_map tasks (currentProject (state (after H op w))) = Some (tasks cp).
Proof.
  intros Hop Hcur Hunknown.
  assert (Hsame : forall (R : Task -> Task -> Prop) ts',
             (forall x y, R x y ->
                if String.eqb (t_id x) taskId then True else y = x) ->
             Forall2 R (tasks cp) ts' -> ts' = tasks cp).
  { intros R ts' HR Hrel. apply (Forall2_same_in R); [exact Hrel|].
    intros x y Hx Hxy. apply HR in Hxy.
    destruct (t_id x =? taskId)%string eqn:Hid; [|exact Hxy].
    apply String.eqb_eq in Hid. now destruct (Hunknown x Hx). }
  destruct op; try discriminate; injection Hop as ->; unfold after, perform.
  - destruct (task_map_operation H "Échec de mise à jour de la tâche: " _ _ w cp
                (updated_task_merges H taskId updates) Hcur)
      as (ts' & w1 & Hcall & Hrel).
    unfold updateTask. rewrite Hcall. cbn.
    repeat split. f_equal. refine (Hsame _ _ _ Hrel).
    intros x y Hxy. cbn beta in Hxy.
    destruct (t_id x =? taskId)%string; [exact I|exact Hxy].
  - destruct (task_map_operation H "Échec d'ajout de dépendance: " _ _ w cp
                (with_added_dependency_effect H taskId dependency) Hcur)
      as (ts' & w1 & Hcall & Hrel).
    unfold addDependency. rewrite Hcall. cbn.
    repeat split. f_equal. refine (Hsame _ _ _ Hrel).
    intros x y Hxy. cbn beta in Hxy.
    destruct (t_id x =? taskId)%string; [exact I|exact Hxy].
  - destruct (task_map_operation H "Échec de suppression de dépendance: " _ _ w cp
                (without_dependency_effect H taskId dependencyTaskId) Hcur)
      as (ts' & w1 & Hcall & Hrel).
    unfold removeDependency. rewrite Hcall. cbn.
    repeat split. f_equal. refine (Hsame _ _ _ Hrel).
    intros x y Hxy. cbn beta in Hxy.
    destruct (t_id x =? taskId)%string; [exact I|exact Hxy].
Qed.

Lemma unknown_task_id_is_no_error_witness :
  let before := run Reference.host Sample.demo initial_world in
  option_map (fun p => map t_id (tasks p)) (currentProject (state before))
  = Some ["1"]
  /\ fst (perform Reference.host
            (UpdateTask "9" (Sample.only_completion (VNumber (num 10)))) before)
     = Returned tt.
Proof.
  split; [reflexivity|].
  eapply (unknown_task_id_is_no_error Reference.host
            (UpdateTask "9" (Sample.only_completion (VNumber (num 10)))) "9"
            (run Reference.host Sample.demo initial_world)).
  - reflexivity.
  - vm_compute. reflexivity.
  - intros task Hin. vm_compute in Hin. destruct Hin as [<-|[]]. vm_compute. discriminate.
Defined.

(** The clamp [Math.min(100, Math.max(0, c || 0))] is a number
    between 0 and 100 as soon as [c || 0] converts to a number. *)
Lemma clamp_completion_percentage (H : Host) (c : value) :
  ToNumber H (or_else c (VNumber (num 0))) <> NaN ->
  percentage (clamp_completion H c) = true.
Proof.
  unfold clamp_completion, percentage.
  destruct (ToNumber H (or_else c (VNumber (num 0)))) as [| | |q];
    intros Hnum; try reflexivity; [now contradiction Hnum|].
  unfold Math_max, num.
  destruct (Qle_bool (inject_Z 0) q) eqn:Hlow.
  - unfold Math_min. destruct (Qle_bool (inject_Z 100) q) eqn:Hhigh.
    + reflexivity.
    + rewrite Hlow. simpl. apply Qle_bool_iff. apply Qlt_le_weak.
      apply Qnot_le_lt. intros Hle. apply Qle_bool_iff in Hle. congruence.
  - reflexivity.
Qed.

(** X7.  The task [createTask] appends.  With a project selected, a
    call that returns appends one task to the tasks of the current
    project, which are kept in order; the new task has the next id of the
    host, the id of the current project as [projectId], valid dates with
    [endDate > startDate], the name "Nouvelle tâche" when no name or an
    empty one is given, and, when [completion || 0] converts to a number, a
    completion between 0 and 100. *)
Theorem createTask_appends_task (H : Host) (taskData : TaskData) (w : World)
    (cp : Project) :
  currentProject (state w) = Some cp ->
  fst (createTask H taskData w) = Returned tt ->
  exists task,
    option_map tasks (currentProject (state (snd (createTask H taskData w))))
    = Some (tasks cp ++ [task])
    /\ t_id task = uuid H (ids w)
    /\ projectId task = p_id cp
    /\ date_ordered task = true
    /\ t_name task = string_or (td_name taskData) "Nouvelle tâche"
    /\ (ToNumber H (or_else (td_completion taskData) (VNumber (num 0))) <> NaN ->
        percentage (completion task) = true).
Proof.
  intros Hcur.
  destruct (resolve_dates_returns H taskData
              {| state := begin_loading (state w); tick := tick w; ids := ids w |})
    as ([d1 d2] & w' & Hres & Hstate & Hids).
  pose proof (fun s e => resolve_dates_ordered H taskData
                {| state := begin_loading (state w); tick := tick w; ids := ids w |}
                w' s e) as Hlt.
  remember (createTask H taskData w) as r eqn:Hr.
  unfold createTask, try_catch in Hr. unfold bind at 1 in Hr.
  rewrite (require_current_some w cp Hcur) in Hr.
  unfold bind at 1 in Hr. rewrite Hres in *.
  unfold Date_toISOString, uuidv4, new_Date, Date_now, update_current, set_with,
    fail_with, set_failure, set_with, throw, get, put, bind, ret in Hr.
  destruct d1 as [t1|]; [destruct d2 as [t2|]|]; cbn in Hr; rewrite ?Hstate in Hr;
    cbn in Hr; rewrite ?Hcur in Hr; subst r; cbn [fst snd]; try discriminate.
  intros _. eexists. split; [reflexivity|].
  cbn [t_id projectId t_name completion]. cbn in Hids.
  split; [now rewrite Hids|]. split; [reflexivity|]. split; [|split].
  - unfold date_ordered. cbn. apply Z.ltb_lt. now apply Hlt.
  - reflexivity.
  - apply clamp_completion_percentage.
Qed.

Lemma createTask_appends_task_witness :
  let before := run Reference.host Sample.demo initial_world in
  let call := createTask Reference.host
                (Sample.task_data "" (VString "not-a-date") VUndefined
                   (VNumber (num 250))) in
  fst (call before) = Returned tt
  /\ exists task,
       option_map tasks (currentProject (state (snd (call before))))
       = option_map (fun p => tasks p ++ [task]) (currentProject (state before))
       /\ t_name task = "Nouvelle tâche"
       /\ completion task = VNumber (num 100).
Proof.
  split; [reflexivity|].
  destruct (createTask_appends_task Reference.host
              (Sample.task_data "" (VString "not-a-date") VUndefined (VNumber (num 250)))
              (run Reference.host Sample.demo initial_world)
              _ eq_refl eq_refl)
    as (task & Htasks & _ & _ & _ & Hname & _).
  exists task. split; [exact Htasks|]. split; [exact Hname|].
  vm_compute in Htasks. injection Htasks as <-. reflexivity.
Defined.

Lemma process_date_update_stored (H : Host) (old : value) (given : option value) :
  overridden old (process_date_update H given) = date_after_update H old given.
Proof.
  unfold process_date_update, date_after_update.
  destruct given as [v|]; [|reflexivity].
  destruct (truthy v); [|reflexivity].
  now destruct (new_Date_of H v).
Qed.

(** X8.  The dates [updateTask] stores.  With a project selected the
    call returns and keeps the number and the order of the tasks; in each
    task with the id [taskId], a date key given a truthy value that
    converts to a valid Date holds that Date, one given a truthy value
    that does not convert (an unparsable string, an invalid Date) keeps
    the date the task had, and one given a falsy value ([null], [''], [0])
    holds that value in place of a Date; [createdAt] is the one the
    updates carry, and the one the task had when they carry none.  Every
    other task is left as it was. *)
Theorem updateTask_stores_dates (H : Host) (taskId : string)
    (updates : TaskUpdates) (w : World) (cp : Project) :
  currentProject (state w) = Some cp ->
  fst (updateTask H taskId updates w) = Returned tt
  /\ exists cp',
       currentProject (state (snd (updateTask H taskId updates w))) = Some cp'
       /\ Forall2 (fun task task' =>
                     if String.eqb (t_id task) taskId
                     then startDate task'
                          = date_after_update H (startDate task) (tu_startDate updates)
                          /\ endDate task'
                             = date_after_update H (endDate task) (tu_endDate updates)
                          /\ t_createdAt task'
                             = match tu_createdAt updates with
                               | Some createdAt => createdAt
                               | None => t_createdAt task
                               end
                     else task' = task)
                  (tasks cp) (tasks cp').
Proof.
  intros Hcur.
  destruct (task_map_operation H "Échec de mise à jour de la tâche: " _ _ w cp
              (updated_task_merges H taskId updates) Hcur)
    as (ts' & w1 & Hcall & Hrel).
  unfold updateTask. rewrite Hcall. cbn [fst snd].
  split; [reflexivity|]. eexists. split; [reflexivity|]. cbn [tasks rebuilt].
  eapply Forall2_impl; [|exact Hrel]. intros task task' Htask. cbn beta in *.
  destruct (t_id task =? taskId)%string; [|exact Htask].
  destruct Htask as (now & ->). cbn [startDate endDate t_createdAt merge_task].
  rewrite !process_date_update_stored. repeat split.
Qed.

Lemma updateTask_stores_dates_witness :
  let before := run Reference.host Sample.demo initial_world in
  let call := updateTask Reference.host "1" (Calls.only_startDate (VString "soon")) in
  fst (call before) = Returned tt
  /\ map startDate (all_tasks (state (snd (call before))))
     = map startDate (all_tasks (state before)).
Proof.
  split; [|reflexivity].
  eapply (updateTask_stores_dates Reference.host "1"
            (Calls.only_startDate (VString "soon"))
            (run Reference.host Sample.demo initial_world)).
  vm_compute. reflexivity.
Defined.

(** ** The order of the dates over sequences of calls *)

Lemma all_tasks_install (cp' : Project) (s : State) (task : Task) :
  In task (all_tasks (install cp' s)) ->
  In task (tasks cp') \/ In task (all_tasks s).
Proof.
  unfold all_tasks, install. cbn [projects currentProject].
  intros Hin. apply in_app_or in Hin as [Hin|Hin]; [|now left].
  apply in_flat_map in Hin as (p' & Hp' & Htask).
  apply in_map_iff in Hp' as (p & Hp & Hin).
  destruct (p_id p =? p_id cp')%string; subst p'; [now left|].
  right. apply in_or_app. left. apply in_flat_map. now exists p.
Qed.

Lemma current_tasks_in_store (s : State) (cp : Project) (task : Task) :
  currentProject s = Some cp -> In task (tasks cp) -> In task (all_tasks s).
Proof.
  intros Hcur Hin. unfold all_tasks. rewrite Hcur. apply in_or_app. now right.
Qed.

(** What a call of [createTask] comes to: it throws, having changed
    [loading] and [error] only, or it returns and has installed the
    current project with one more task, whose dates are in order. *)
Lemma createTask_outcome (H : Host) (taskData : TaskData) (w : World) :
  (exists message w',
      createTask H taskData w = (Thrown message, w')
      /\ state w'
         = failed (template "Échec de création de la tâche: " message)
             (begin_loading (state w)))
  \/ (exists cp task now w',
         currentProject (state w) = Some cp
         /\ createTask H taskData w = (Returned tt, w')
         /\ state w'
            = install (rebuilt cp (tasks cp ++ [task]) now) (begin_loading (state w))
         /\ date_ordered task = true
         /\ t_id task = uuid H (ids w)
         /\ ids w' = S (ids w)).
Proof.
  remember (createTask H taskData w) as r eqn:Hr.
  unfold createTask, try_catch in Hr. unfold bind at 1 in Hr.
  destruct (currentProject (state w)) as [cp|] eqn:Hcur.
  - rewrite (require_current_some w cp Hcur) in Hr.
    destruct (resolve_dates_returns H taskData
                {| state := begin_loading (state w); tick := tick w; ids := ids w |})
      as ([d1 d2] & w' & Hres & Hstate & Hids).
    pose proof (fun s e => resolve_dates_ordered H taskData
                  {| state := begin_loading (state w); tick := tick w; ids := ids w |}
                  w' s e) as Hlt.
    unfold bind at 1 in Hr. rewrite Hres in *.
    unfold Date_toISOString, uuidv4, new_Date, Date_now, update_current, set_with,
      fail_with, set_failure, set_with, throw, get, put, bind, ret in Hr.
    destruct d1 as [t1|]; [destruct d2 as [t2|]|]; cbn in Hr; rewrite ?Hstate in Hr;
      cbn in Hr; rewrite ?Hcur in Hr; subst r.
    + right. eexists cp, _, _, _. split; [reflexivity|].
      split; [reflexivity|]. split; [reflexivity|]. split; [|split].
      * unfold date_ordered. cbn. apply Z.ltb_lt. now apply Hlt.
      * cbn. now rewrite Hids.
      * cbn. now rewrite Hids.
    + left. eexists _, _. split; reflexivity.
    + left. eexists _, _. split; reflexivity.
  - rewrite (require_current_none w Hcur) in Hr. cbn in Hr. subst r.
    left. eexists _, _. split; reflexivity.
Qed.

(** What a call of one of the other task operations comes to, when
    its change of the task list returns. *)
Lemma task_operation_outcome (H : Host) (prefix : string)
    (change : list Task -> M (list Task)) (R : list Task -> list Task -> Prop)
    (w : World) :
  (forall ts w0, exists ts' w', change ts w0 = (Returned ts', w') /\ R ts ts') ->
  let call := try_catch (bind require_current (fun _ => update_current H change))
                (fail_with prefix) in
  match currentProject (state w) with
  | None =>
      fst (call w) = Thrown "Aucun projet sélectionné"
      /\ state (snd (call w))
         = failed (template prefix "Aucun projet sélectionné")
             (begin_loading (state w))
  | Some cp =>
      exists ts' now,
        fst (call w) = Returned tt
        /\ state (snd (call w))
           = install (rebuilt cp ts' now) (begin_loading (state w))
        /\ R (tasks cp) ts'
  end.
Proof.
  intros Hchange call. subst call.
  destruct (currentProject (state w)) as [cp|] eqn:Hcur.
  - destruct (Hchange (tasks cp)
                {| state := begin_loading (state w); tick := tick w; ids := ids w |})
      as (ts' & w' & Hch & HR).
    rewrite (task_operation_some H prefix change w w' cp ts' Hcur Hch).
    eexists _, _. split; [reflexivity|]. split; [reflexivity|exact HR].
  - rewrite (task_operation_none prefix (fun _ => update_current H change) w Hcur).
    split; reflexivity.
Qed.

(** The change of the task list of each of the four operations
    returns, and each task of the new list has the dates of a task of the
    old one, when [updateTask] is given no date. *)
Lemma mapped_dates_from (f : Task -> M Task) :
  (forall x w0, exists y w',
      f x w0 = (Returned y, w') /\ ids w' = ids w0
      /\ (startDate y = startDate x /\ endDate y = endDate x)) ->
  forall ts w0, exists ts' w', mapM f ts w0 = (Returned ts', w') /\ dates_from ts ts'.
Proof.
  intros Hf ts w0.
  destruct (mapM_returns f _ Hf ts w0) as (ts' & w' & Hmap & _ & Hrel).
  exists ts', w'. split; [exact Hmap|]. intros task' Hin.
  destruct (Forall2_in_right _ _ _ _ Hrel Hin) as (task & Htask & Hs & He).
  now exists task.
Qed.

Lemma change_keeps_dates (H : Host) (op : Op) :
  leaves_dates op = true ->
  match op with
  | UpdateTask taskId updates =>
      forall ts w0, exists ts' w',
        mapM (updated_task H taskId updates) ts w0 = (Returned ts', w')
        /\ dates_from ts ts'
  | DeleteTask taskId =>
      forall ts (w0 : World), exists ts' w',
        ret (cleanedTasks taskId ts) w0 = (Returned ts', w') /\ dates_from ts ts'
  | AddDependency taskId dependency =>
      forall ts w0, exists ts' w',
        mapM (with_added_dependency H taskId dependency) ts w0 = (Returned ts', w')
        /\ dates_from ts ts'
  | RemoveDependency taskId dependencyTaskId =>
      forall ts w0, exists ts' w',
        mapM (without_dependency H taskId dependencyTaskId) ts w0 = (Returned ts', w')
        /\ dates_from ts ts'
  | _ => True
  end.
Proof.
  intros Hleaves. destruct op; try exact I.
  - apply mapped_dates_from. intros x w0.
    destruct (updated_task_merges H taskId updates x w0) as (y & w' & Hy & Hids & Hm).
    exists y, w'. split; [exact Hy|]. split; [exact Hids|].
    simpl in Hleaves.
    destruct (tu_startDate updates) eqn:Hs; [discriminate|].
    destruct (tu_endDate updates) eqn:He; [discriminate|].
    destruct (t_id x =? taskId)%string; [|now subst y].
    destruct Hm as (now & ->). unfold merge_task. cbn [startDate endDate].
    rewrite Hs, He. split; reflexivity.
  - intros ts w0. eexists _, _. split; [reflexivity|].
    intros task' Hin. unfold cleanedTasks in Hin.
    apply in_map_iff in Hin as (task & <- & Hin).
    apply filter_In in Hin as [Hin _]. exists task. repeat split. exact Hin.
  - apply mapped_dates_from. intros x w0.
    destruct (with_added_dependency_effect H taskId dependency x w0)
      as (y & w' & Hy & Hids & Hm).
    exists y, w'. split; [exact Hy|]. split; [exact Hids|].
    destruct (t_id x =? taskId)%string; [|now subst y].
    destruct (find _ _); [now subst y|]. destruct Hm as (now & ->). now split.
  - apply mapped_dates_from. intros x w0.
    destruct (without_dependency_effect H taskId dependencyTaskId x w0)
      as (y & w' & Hy & Hids & Hm).
    exists y, w'. split; [exact Hy|]. split; [exact Hids|].
    destruct (t_id x =? taskId)%string; [|now subst y].
    destruct Hm as (now & ->). now split.
Qed.

Lemma installed_dates_ordered (s : State) (cp : Project) (ts' : list Task)
    (now : date) :
  currentProject s = Some cp ->
  dates_ordered s ->
  (forall task', In task' ts' -> date_ordered task' = true) ->
  dates_ordered (install (rebuilt cp ts' now) (begin_loading s)).
Proof.
  intros Hcur Hordered Hnew task Hin.
  apply all_tasks_install in Hin as [Hin|Hin].
  - now apply Hnew.
  - now apply Hordered.
Qed.

Lemma dates_from_ordered (s : State) (cp : Project) (ts' : list Task) :
  currentProject s = Some cp ->
  dates_ordered s ->
  dates_from (tasks cp) ts' ->
  forall task', In task' ts' -> date_ordered task' = true.
Proof.
  intros Hcur Hordered Hfrom task' Hin.
  destruct (Hfrom task' Hin) as (task & Htask & Hs & He).
  unfold date_ordered. rewrite Hs, He.
  apply (Hordered task). now apply (current_tasks_in_store s cp).
Qed.

Lemma task_operation_keeps_order (H : Host) (prefix : string)
    (change : list Task -> M (list Task)) (w : World) :
  (forall ts w0, exists ts' w', change ts w0 = (Returned ts', w') /\ dates_from ts ts') ->
  dates_ordered (state w) ->
  dates_ordered
    (state (snd (try_catch (bind require_current (fun _ => update_current H change))
                   (fail_with prefix) w))).
Proof.
  intros Hchange Hordered.
  pose proof (task_operation_outcome H prefix change dates_from w Hchange) as Hout.
  cbn zeta in Hout.
  destruct (currentProject (state w)) as [cp|] eqn:Hcur.
  - destruct Hout as (ts' & now & _ & -> & Hfrom).
    apply installed_dates_ordered; [exact Hcur|exact Hordered|].
    now apply (dates_from_ordered (state w) cp).
  - destruct Hout as [_ ->]. exact Hordered.
Qed.

Lemma updated_project_keeps_tasks (H : Host) (projectId : string)
    (updates : ProjectUpdates) (p : Project) (w : World) :
  pu_tasks updates = None ->
  exists p' w', updated_project H projectId updates p w = (Returned p', w')
                /\ ids w' = ids w /\ tasks p' = tasks p.
Proof.
  intros Hnotasks. unfold updated_project, new_Date, Date_now, bind, ret.
  destruct (p_id p =? projectId)%string; eexists _, _;
    (split; [reflexivity|]); (split; [reflexivity|]); [|reflexivity].
  unfold merge_project. cbn [tasks]. now rewrite Hnotasks.
Qed.

Lemma after_keeps_order (H : Host) (op : Op) (w : World) :
  leaves_dates op = true ->
  dates_ordered (state w) -> dates_ordered (state (after H op w)).
Proof.
  intros Hleaves Hordered.
  pose proof (change_keeps_dates H op Hleaves) as Hchange.
  destruct op as [name description|pid updates|pid|pid|taskData|taskId updates
                 |taskId|taskId dependency|taskId dependencyTaskId|];
    unfold after, perform.
  - (* createProject *)
    destruct (createProject_effect H name description w)
      as (newProject & _ & Hps & Hcp & _).
    assert (Htasks : tasks newProject = []).
    { revert Hcp. unfold createProject, try_catch, set_loading_start, set_with, uuidv4,
        new_Date, Date_now, get, put, bind, ret. cbn. intros Heq.
      injection Heq as <-. reflexivity. }
    intros task Hin. unfold all_tasks in Hin. rewrite Hps, Hcp, Htasks in Hin.
    rewrite flat_map_app in Hin. simpl in Hin. rewrite Htasks in Hin.
    rewrite !app_nil_r in Hin. apply Hordered. unfold all_tasks.
    apply in_or_app. now left.
  - (* updateProject *)
    assert (Hnotasks : pu_tasks updates = None).
    { simpl in Hleaves. now destruct (pu_tasks updates). }
    destruct (mapM_returns _ _
                (fun p w0 => updated_project_keeps_tasks H pid updates p w0 Hnotasks)
                (projects (state w))
                {| state := begin_loading (state w); tick := tick w; ids := ids w |})
      as (ps' & w' & Hmap & _ & Hrel).
    unfold updateProject, try_catch, set_loading_start, set_with, get, put, bind, ret.
    cbn. unfold bind in Hmap. cbn in Hmap. rewrite Hmap. cbn.
    assert (Hps : forall p' task, In p' ps' -> In task (tasks p') ->
                                  date_ordered task = true).
    { intros p' task Hp' Htask.
      destruct (Forall2_in_right _ _ _ _ Hrel Hp') as (p & Hp & Heq).
      apply Hordered. unfold all_tasks. apply in_or_app. left.
      apply in_flat_map. exists p. split; [exact Hp|]. now rewrite <- Heq. }
    intros task Hin. unfold all_tasks in Hin. cbn [projects currentProject] in Hin.
    apply in_app_or in Hin as [Hin|Hin].
    + apply in_flat_map in Hin as (p' & Hp' & Htask). now apply (Hps p').
    + destruct (currentProject (state w)) as [cp|] eqn:Hcur; [|contradiction].
      destruct (p_id cp =? pid)%string.
      * destruct (find _ ps') as [q|] eqn:Hfind; [|contradiction].
        apply find_some in Hfind as [Hq _]. now apply (Hps q).
      * apply Hordered. now apply (current_tasks_in_store _ cp).
  - (* deleteProject *)
    unfold deleteProject, try_catch, set_loading_start, set_with, get, put, bind, ret.
    cbn. intros task Hin. unfold all_tasks in Hin. cbn [projects currentProject] in Hin.
    apply Hordered. unfold all_tasks. apply in_or_app.
    apply in_app_or in Hin as [Hin|Hin].
    + left. apply in_flat_map in Hin as (p & Hp & Htask).
      apply filter_In in Hp as [Hp _]. apply in_flat_map. now exists p.
    + right. destruct (currentProject (state w)) as [cp|]; [|contradiction].
      now destruct (p_id cp =? pid)%string.
  - (* selectProject *)
    unfold selectProject, try_catch, set_with, throw, get, put, bind, ret. cbn.
    destruct (find _ (projects (state w))) as [project|] eqn:Hfind; cbn.
    + intros task Hin. unfold all_tasks in Hin. cbn [projects currentProject] in Hin.
      apply Hordered. unfold all_tasks. apply in_or_app. left.
      apply find_some in Hfind as [Hp _].
      apply in_app_or in Hin as [Hin|Hin]; [exact Hin|].
      apply in_flat_map. now exists project.
    + exact Hordered.
  - (* createTask *)
    destruct (createTask_outcome H taskData w)
      as [(message & w' & -> & Hstate)
         |(cp & task & now & w' & Hcur & -> & Hstate & Htask & _)];
      cbn [snd]; rewrite Hstate.
    + exact Hordered.
    + apply installed_dates_ordered; [exact Hcur|exact Hordered|].
      intros task' Hin. apply in_app_or in Hin as [Hin|[<-|[]]]; [|exact Htask].
      apply Hordered. now apply (current_tasks_in_store _ cp).
  - now apply task_operation_keeps_order.
  - now apply task_operation_keeps_order.
  - now apply task_operation_keeps_order.
  - now apply task_operation_keeps_order.
  - exact Hordered.
Qed.

(** X9.  The order of the dates is an invariant of the store as long
    as [updateTask] is given no date and [updateProject] no list of
    tasks: when every task in the store has valid dates with
    [endDate > startDate], so has every task after any sequence of such
    calls, on every host, whether the calls return or throw. *)
Theorem dates_stay_ordered (H : Host) (ops : list Op) (w : World) :
  forallb leaves_dates ops = true ->
  dates_ordered (state w) ->
  dates_ordered (state (run H ops w)).
Proof.
  unfold run. revert w.
  induction ops as [|op ops IH]; intros w Hleaves Hordered; [exact Hordered|].
  simpl in Hleaves. apply andb_prop in Hleaves as [Hop Hops].
  simpl. apply IH; [exact Hops|]. now apply after_keeps_order.
Qed.

Lemma dates_stay_ordered_witness :
  map t_id (all_tasks (state (run Reference.host Calls.edits initial_world)))
  = ["2"; "2"]
  /\ dates_ordered (state (run Reference.host Calls.edits initial_world)).
Proof.
  split; [reflexivity|].
  apply (dates_stay_ordered Reference.host Calls.edits initial_world).
  - reflexivity.
  - intros task [].
Defined.

(** ** Failures *)

Lemma updated_project_total (H : Host) (projectId : string)
    (updates : ProjectUpdates) (p : Project) (w : World) :
  exists p' w', updated_project H projectId updates p w = (Returned p', w')
                /\ ids w' = ids w /\ True.
Proof.
  unfold updated_project, new_Date, Date_now, bind, ret.
  destruct (p_id p =? projectId)%string; eexists _, _; repeat split.
Qed.

(** The four operations that rewrite the tasks: without a current
    project the call throws and records the failure, with one it returns
    and installs a rebuilt project. *)
Lemma rewriting_operation_outcome (H : Host) (op : Op) (w : World) :
  rewrites_tasks op = true ->
  match currentProject (state w) with
  | None =>
      fst (perform H op w) = Thrown "Aucun projet sélectionné"
      /\ state (after H op w)
         = failed (template (failure_prefix op) "Aucun projet sélectionné")
             (begin_loading (state w))
  | Some cp =>
      exists ts' now,
        fst (perform H op w) = Returned tt
        /\ state (after H op w)
           = install (rebuilt cp ts' now) (begin_loading (state w))
        /\ True
  end.
Proof.
  intros Hop.
  destruct op as [name description|pid updates|pid|pid|taskData|taskId updates
                 |taskId|taskId dependency|taskId dependencyTaskId|];
    try discriminate; unfold after, perform, failure_prefix.
  - apply (task_operation_outcome H _ _ (fun _ _ => True)). intros ts w0.
    destruct (mapM_returns _ _ (updated_task_returns H taskId updates) ts w0)
      as (ys & w' & Hm & _ & _). now exists ys, w'.
  - apply (task_operation_outcome H _ _ (fun _ _ => True)). intros ts w0.
    eexists _, _. split; [reflexivity|exact I].
  - apply (task_operation_outcome H _ _ (fun _ _ => True)). intros ts w0.
    destruct (mapM_returns _ _ (with_added_dependency_total H taskId dependency) ts w0)
      as (ys & w' & Hm & _ & _). now exists ys, w'.
  - apply (task_operation_outcome H _ _ (fun _ _ => True)). intros ts w0.
    destruct (mapM_returns _ _ (without_dependency_returns H taskId dependencyTaskId) ts w0)
      as (ys & w' & Hm & _ & _). now exists ys, w'.
Qed.

(** X10.  [updateTask], [deleteTask], [addDependency] and
    [removeDependency] throw exactly when no project is selected: the
    call then throws "Aucun projet sélectionné", leaves [projects] as they
    were and [loading] false, and [error] is the message of the operation
    followed by that text; with a project selected the call returns and
    [error] is null. *)
Theorem rewriting_tasks_needs_a_project (H : Host) (op : Op) (w : World) :
  rewrites_tasks op = true ->
  (currentProject (state w) = None ->
   fst (perform H op w) = Thrown "Aucun projet sélectionné"
   /\ state (after H op w)
      = {| projects := projects (state w); currentProject := None;
           loading := false;
           error := Some (String.append (failure_prefix op)
                            "Aucun projet sélectionné") |})
  /\ (currentProject (state w) <> None ->
      fst (perform H op w) = Returned tt
      /\ error (state (after H op w)) = None
      /\ loading (state (after H op w)) = false).
Proof.
  intros Hop. pose proof (rewriting_operation_outcome H op w Hop) as Hout.
  destruct (currentProject (state w)) as [cp|] eqn:Hcur.
  - split; [discriminate|]. intros _.
    destruct Hout as (ts' & now & Hfst & Hstate & _).
    split; [exact Hfst|]. rewrite Hstate. split; reflexivity.
  - split; [|intros Hsome; now contradiction Hsome]. intros _.
    destruct Hout as [Hfst Hstate]. split; [exact Hfst|].
    rewrite Hstate. unfold failed, begin_loading, template. cbn. now rewrite Hcur.
Qed.

Lemma rewriting_tasks_needs_a_project_witness :
  currentProject (state initial_world) = None
  /\ fst (perform Reference.host (DeleteTask "1") initial_world)
     = Thrown "Aucun projet sélectionné".
Proof.
  split; [reflexivity|].
  apply (rewriting_tasks_needs_a_project Reference.host (DeleteTask "1") initial_world);
    reflexivity.
Defined.

(** X11.  How the operations end.  A call that throws is a call of a
    task operation; it has left [projects] and [currentProject] as they
    were, [loading] false, and in [error] the message of the operation
    followed by the message thrown.  A call that returns has left [error]
    null ([selectProject] apart, which returns when it records a failure)
    and, for the operations that raise it, [loading] false. *)
Theorem failures_are_recorded (H : Host) (op : Op) (w : World) :
  match fst (perform H op w) with
  | Thrown message =>
      task_operation op = true
      /\ error (state (after H op w))
         = Some (String.append (failure_prefix op) message)
      /\ loading (state (after H op w)) = false
      /\ projects (state (after H op w)) = projects (state w)
      /\ currentProject (state (after H op w)) = currentProject (state w)
  | Returned _ =>
      match op with
      | SelectProject _ => loading (state (after H op w)) = loading (state w)
      | ClearError =>
          error (state (after H op w)) = None
          /\ loading (state (after H op w)) = loading (state w)
      | _ =>
          error (state (after H op w)) = None
          /\ loading (state (after H op w)) = false
      end
  end.
Proof.
  pose proof (rewriting_operation_outcome H op w) as Hrewrites.
  destruct op as [name description|pid updates|pid|pid|taskData|taskId updates
                 |taskId|taskId dependency|taskId dependencyTaskId|].
  - unfold after, perform, createProject, try_catch, set_loading_start, set_with,
      uuidv4, new_Date, Date_now, get, put, bind, ret. cbn. now split.
  - destruct (mapM_returns _ _ (updated_project_total H pid updates)
                (projects (state w))
                {| state := begin_loading (state w); tick := tick w; ids := ids w |})
      as (ps' & w' & Hmap & _ & _).
    unfold after, perform, updateProject, try_catch, set_loading_start, set_with,
      get, put, bind, ret.
    cbn. unfold bind in Hmap. cbn in Hmap. rewrite Hmap. cbn. now split.
  - unfold after, perform, deleteProject, try_catch, set_loading_start, set_with,
      get, put, bind, ret. cbn. now split.
  - unfold after, perform, selectProject, try_catch, set_with, throw, get, put,
      bind, ret. cbn.
    destruct (find _ (projects (state w))); reflexivity.
  - unfold after, perform.
    destruct (createTask_outcome H taskData w)
      as [(message & w' & -> & Hstate)|(cp & task & now & w' & Hcur & -> & Hstate & _)];
      cbn [fst snd]; rewrite Hstate.
    + repeat split.
    + split; reflexivity.
  - specialize (Hrewrites eq_refl).
    destruct (currentProject (state w)) as [cp|] eqn:Hcur.
    + destruct Hrewrites as (ts' & now & -> & -> & _). split; reflexivity.
    + destruct Hrewrites as [-> ->]. cbn. rewrite Hcur. repeat split.
  - specialize (Hrewrites eq_refl).
    destruct (currentProject (state w)) as [cp|] eqn:Hcur.
    + destruct Hrewrites as (ts' & now & -> & -> & _). split; reflexivity.
    + destruct Hrewrites as [-> ->]. cbn. rewrite Hcur. repeat split.
  - specialize (Hrewrites eq_refl).
    destruct (currentProject (state w)) as [cp|] eqn:Hcur.
    + destruct Hrewrites as (ts' & now & -> & -> & _). split; reflexivity.
    + destruct Hrewrites as [-> ->]. cbn. rewrite Hcur. repeat split.
  - specialize (Hrewrites eq_refl).
    destruct (currentProject (state w)) as [cp|] eqn:Hcur.
    + destruct Hrewrites as (ts' & now & -> & -> & _). split; reflexivity.
    + destruct Hrewrites as [-> ->]. cbn. rewrite Hcur. repeat split.
  - unfold after, perform, clearError, set_with, get, put, bind, ret. cbn.
    now split.
Qed.

(** ** The Gantt formatter *)

Lemma safeDate_outcome (H : Host) (trim : string -> string) (v : value)
    (tk : nat) :
  safeDate H trim v tk = (Date_of_ms (clock H tk), S tk)
  \/ (snd (safeDate H trim v tk) = tk
      /\ (date_in_range v ->
          exists t, fst (safeDate H trim v tk) = Some t
                    /\ - MAX_TIME <= t <= MAX_TIME)).
Proof.
  unfold safeDate.
  destruct v as [| |b|n|s|d]; try (now left).
  - destruct (new_Date_of H (VBool b)) as [t|] eqn:Hd; cbn [invalid]; [|now left].
    right. split; [reflexivity|]. intros _. exists t. split; [reflexivity|].
    now apply (new_Date_of_range H (VBool b)).
  - destruct n as [| | |q]; try (now left).
    destruct (TimeClip (Fin q)) as [t|] eqn:Hclip; cbn [invalid]; [|now left].
    right. split; [reflexivity|]. intros _. exists t. split; [reflexivity|].
    now apply (TimeClip_range (Fin q)).
  - destruct (s =? "")%string; [now left|].
    destruct (trim s =? "")%string; [now left|].
    destruct (Date_of_string H (trim s)) as [t|] eqn:Hd; cbn [invalid]; [|now left].
    right. split; [reflexivity|]. intros _. exists t. split; [reflexivity|].
    unfold Date_of_string in Hd.
    destruct (Date_parse H (trim s)) as [t0|]; [|discriminate].
    now apply Date_of_ms_valid in Hd as [-> Hd].
  - destruct d as [t|]; cbn [invalid]; [|now left].
    right. split; [reflexivity|]. cbn [date_in_range fst getTime]. intros Hrange.
    exists t. split; [now apply Date_of_ms_in_range|exact Hrange].
Qed.

Lemma safeDate_tick (H : Host) (trim : string -> string) (v : value)
    (tk : nat) :
  (tk <= snd (safeDate H trim v tk) <= S tk)%nat.
Proof.
  destruct (safeDate_outcome H trim v tk) as [->|[-> _]]; cbn; lia.
Qed.

(** X12.  [safeDate] returns a valid Date: when the reading of the
    clock is a time value, the result is a valid Date within the range of
    time values, for every input; at most one reading of the clock is
    used; and a valid Date is returned as it is (a copy), without a
    reading of the clock. *)
Theorem safeDate_is_valid (H : Host) (trim : string -> string) (v : value)
    (tk : nat) :
  - MAX_TIME <= clock H tk <= MAX_TIME ->
  date_in_range v ->
  (exists t, fst (safeDate H trim v tk) = Some t
             /\ - MAX_TIME <= t <= MAX_TIME)
  /\ (tk <= snd (safeDate H trim v tk) <= S tk)%nat
  /\ (forall t, v = VDate (Some t) -> safeDate H trim v tk = (Some t, tk)).
Proof.
  intros Hclock Hrange. split; [|split].
  - destruct (safeDate_outcome H trim v tk) as [->|[_ Hvalid]].
    + exists (clock H tk). split; [now apply Date_of_ms_in_range|exact Hclock].
    + now apply Hvalid.
  - apply safeDate_tick.
  - intros t ->. unfold safeDate. cbn [invalid getTime].
    cbn [date_in_range] in Hrange.
    change (TimeClip (num t)) with (Date_of_ms t).
    now rewrite (Date_of_ms_in_range t Hrange).
Qed.

Lemma safeDate_is_valid_witness :
  safeDate Reference.host ReferenceStrings.trim (VString "   ") 5
  = (Some 1750000000005, 6%nat)
  /\ exists t, fst (safeDate Reference.host ReferenceStrings.trim (VString "   ") 5)
               = Some t
               /\ - MAX_TIME <= t <= MAX_TIME.
Proof.
  split; [reflexivity|].
  apply (safeDate_is_valid Reference.host ReferenceStrings.trim (VString "   ") 5).
  - vm_compute. split; discriminate.
  - exact I.
Defined.

(** [formatDependencies] joins the ids of the valid entries. *)
Lemma concat_not_empty (sep s : string) (rest : list string) :
  s <> "" -> String.concat sep (s :: rest) <> "".
Proof.
  intros Hs. destruct s as [|c s]; [now contradiction Hs|].
  destruct rest; simpl; discriminate.
Qed.

Lemma valid_entry_id (dep : dependency_entry) :
  valid_entry dep = true -> entry_id dep <> "".
Proof.
  destruct dep as [[| | | |s|]|[| | | |s|]]; simpl; try discriminate;
    intros Hvalid Hempty; rewrite Hempty in Hvalid; discriminate.
Qed.

(** X13.  [formatDependencies] returns [null] exactly when no entry of
    the array is valid, a valid entry being a non-empty string or an
    object whose [taskId] is a non-empty string; otherwise it returns the
    ids of the valid entries, in order, joined by commas.  It never
    returns the empty string.  For the dependencies of a task of the
    store these ids are the non-empty [taskId]s. *)
Theorem formatDependencies_joins_ids (dependencies : option (list dependency_entry)) :
  let ids := match dependencies with
             | Some entries => map entry_id (filter valid_entry entries)
             | None => []
             end in
  (ids = [] -> formatDependencies dependencies = None)
  /\ (ids <> [] -> formatDependencies dependencies = Some (String.concat "," ids))
  /\ formatDependencies dependencies <> Some ""
  /\ forall deps, dependencies = Some (entries_of deps) ->
       ids = filter (fun id => negb (String.eqb id "")) (map dep_taskId deps).
Proof.
  cbn zeta. split; [|split; [|split]].
  - destruct dependencies as [[|e entries]|]; try reflexivity.
    unfold formatDependencies. now intros ->.
  - destruct dependencies as [[|e entries]|]; try (intros Hne; now contradiction Hne).
    unfold formatDependencies.
    destruct (map entry_id (filter valid_entry (e :: entries)));
      [intros Hne; now contradiction Hne|reflexivity].
  - destruct dependencies as [[|e entries]|]; try discriminate.
    unfold formatDependencies.
    destruct (filter valid_entry (e :: entries)) as [|dep valid] eqn:Hfilter;
      [discriminate|].
    cbn [map]. intros Heq. injection Heq as Heq.
    apply (concat_not_empty "," (entry_id dep) (map entry_id valid)); [|exact Heq].
    apply valid_entry_id.
    assert (Hin : In dep (filter valid_entry (e :: entries)))
      by (rewrite Hfilter; now left).
    now apply filter_In in Hin.
  - intros deps ->. unfold entries_of.
    induction deps as [|dep deps IH]; [reflexivity|].
    cbn [map filter valid_entry].
    destruct (negb (dep_taskId dep =? "")%string); cbn [map entry_id]; now rewrite IH.
Qed.

(** The row [formatGanttData] makes of one task. *)
Lemma formatTask_row (H : Host) (trim : string -> string) (task : Task) (tk : nat) :
  steady_clock H tk 4 ->
  (t_id task = "" /\ formatTask H trim task tk = (None, tk))
  \/ (t_id task <> ""
      /\ exists row tk',
           formatTask H trim task tk = (Some row, tk')
           /\ (tk <= tk' <= tk + 4)%nat
           /\ row_id row = t_id task
           /\ exists s e, row_start row = Some s /\ row_end row = Some e /\ s < e).
Proof.
  intros Hclock. unfold formatTask.
  destruct (t_id task =? "")%string eqn:Hid.
  - left. apply String.eqb_eq in Hid. now split.
  - right. apply String.eqb_neq in Hid. split; [exact Hid|].
    pose proof (safeDate_tick H trim (startDate task) tk) as Htk1.
    destruct (safeDate H trim (startDate task) tk) as [d1 tk1]. cbn [snd] in Htk1.
    pose proof (safeDate_tick H trim (endDate task) tk1) as Htk2.
    destruct (safeDate H trim (endDate task) tk1) as [d2 tk2]. cbn [snd] in Htk2.
    set (finish := if Date_le d2 d1 then Date_plus d1 ONE_DAY else d2).
    destruct (invalid d1 || invalid finish || Date_le finish d1) eqn:Hbad.
    + eexists _, _. split; [reflexivity|]. split; [lia|]. split; [reflexivity|].
      cbn [row_start row_end].
      destruct (Hclock tk2) as [Hnow Hnext]; [lia|].
      destruct (Hclock (S tk2)) as [Hlater _]; [lia|].
      unfold ONE_DAY in *.
      exists (clock H tk2), (clock H (S tk2) + 24 * 60 * 60 * 1000).
      split; [apply Date_of_ms_in_range; lia|].
      split; [apply Date_of_ms_in_range; lia|lia].
    + eexists _, _. split; [reflexivity|]. split; [lia|]. split; [reflexivity|].
      cbn [row_start row_end].
      apply orb_false_elim in Hbad as [Hbad Hle].
      apply orb_false_elim in Hbad as [Hstart Hfinish].
      destruct d1 as [s|]; [|discriminate]. destruct finish as [e|]; [|discriminate].
      exists s, e. split; [reflexivity|]. split; [reflexivity|].
      cbn [Date_le] in Hle. now apply Z.leb_gt in Hle.
Qed.

Lemma steady_clock_shorter (H : Host) (tk tk' n n' : nat) :
  (tk <= tk')%nat -> (tk' + n' <= tk + n)%nat ->
  steady_clock H tk n -> steady_clock H tk' n'.
Proof.
  intros Hlow Hhigh Hclock k Hk. apply Hclock. lia.
Qed.

Lemma formatGanttData_sound (H : Host) (trim : string -> string)
    (tasks : list Task) (tk : nat) :
  steady_clock H tk (4 * List.length tasks) ->
  (tk <= snd (formatGanttData H trim tasks tk) <= tk + 4 * List.length tasks)%nat
  /\ map row_id (fst (formatGanttData H trim tasks tk))
     = filter (fun id => negb (String.eqb id "")) (map t_id tasks)
  /\ forall row, In row (fst (formatGanttData H trim tasks tk)) ->
       row_id row <> ""
       /\ exists s e, row_start row = Some s /\ row_end row = Some e /\ s < e.
Proof.
  revert tk. induction tasks as [|task rest IH]; intros tk Hclock.
  - cbn. split; [lia|]. split; [reflexivity|]. intros row [].
  - cbn [formatGanttData List.length map filter].
    assert (Hfirst : steady_clock H tk 4).
    { apply (steady_clock_shorter H tk tk _ 4 (le_n _)) in Hclock; [exact Hclock|].
      cbn [List.length]. lia. }
    destruct (formatTask_row H trim task tk Hfirst)
      as [[Hid ->]|(Hid & row & tk1 & -> & Htk1 & Hrow & Hdates)].
    + specialize (IH tk).
      destruct (formatGanttData H trim rest tk) as [rows tk2]. cbn [fst snd] in *.
      rewrite Hid. cbn [String.eqb negb].
      apply (steady_clock_shorter H tk tk _ (4 * List.length rest) (le_n _)) in Hclock;
        [|cbn [List.length]; lia].
      destruct (IH Hclock) as (Htk2 & Hids & Hrows).
      split; [cbn [List.length]; lia|]. split; [exact Hids|exact Hrows].
    + specialize (IH tk1).
      destruct (formatGanttData H trim rest tk1) as [rows tk2]. cbn [fst snd] in *.
      apply String.eqb_neq in Hid as Hid'. rewrite Hid'. cbn [negb map].
      apply (steady_clock_shorter H tk tk1 _ (4 * List.length rest)) in Hclock;
        [|lia|cbn [List.length]; lia].
      destruct (IH Hclock) as (Htk2 & Hids & Hrows).
      split; [cbn [List.length]; lia|]. split; [now rewrite Hrow, Hids|].
      intros r [<-|Hr]; [|now apply Hrows].
      split; [now rewrite Hrow|exact Hdates].
Qed.

(** The table of rows passes [validateGanttData] exactly when every
    row is accepted. *)
Lemma validateGanttData_chart_table (rows : list Row) :
  validateGanttData (chart_table rows) = forallb accepted_row rows.
Proof.
  unfold validateGanttData, chart_table. cbn [map getGanttColumns List.length Nat.ltb Nat.leb].
  induction rows as [|row rows IH]; [reflexivity|].
  cbn [map forallb]. rewrite IH. f_equal.
Qed.

(** X14.  The rows of [formatGanttData].  When the readings of the
    clock the call may use (at most four for each task) are time values
    with a day to spare and do not go back, the call makes one row for
    each task whose id is not empty, in order and with that id; every row
    has two valid dates with the end after the start, whatever dates the
    tasks hold; and the table made of the column headers and the rows
    passes [validateGanttData]. *)
Theorem formatGanttData_rows_are_valid (H : Host) (trim : string -> string)
    (tasks : list Task) (tk : nat) :
  steady_clock H tk (4 * List.length tasks) ->
  let rows := fst (formatGanttData H trim tasks tk) in
  map row_id rows = filter (fun id => negb (String.eqb id "")) (map t_id tasks)
  /\ (forall row, In row rows ->
        exists s e, row_start row = Some s /\ row_end row = Some e /\ s < e)
  /\ validateGanttData (chart_table rows) = true.
Proof.
  intros Hclock rows. subst rows.
  destruct (formatGanttData_sound H trim tasks tk Hclock) as (_ & Hids & Hrows).
  split; [exact Hids|]. split.
  - intros row Hrow. now apply Hrows.
  - rewrite validateGanttData_chart_table. apply forallb_forall. intros row Hrow.
    destruct (Hrows row Hrow) as (Hid & s & e & Hs & He & Hlt).
    unfold accepted_row. rewrite Hs, He. cbn [Date_le].
    apply String.eqb_neq in Hid. rewrite Hid. cbn [negb andb].
    apply negb_true_iff. now apply Z.leb_gt.
Qed.

Lemma reference_clock_is_steady (tk n : nat) :
  (tk + n <= 1000)%nat -> steady_clock Reference.host tk n.
Proof.
  intros Hbound k Hk. unfold Reference.host. cbn [clock].
  unfold MAX_TIME, ONE_DAY. lia.
Qed.

Lemma formatGanttData_rows_are_valid_witness :
  let tasks := all_tasks (state (run Reference.host Calls.broken_dates initial_world)) in
  forallb date_ordered tasks = false
  /\ validateGanttData
       (chart_table (fst (formatGanttData Reference.host ReferenceStrings.trim tasks 0)))
     = true.
Proof.
  split; [reflexivity|].
  apply (formatGanttData_rows_are_valid Reference.host ReferenceStrings.trim
           (all_tasks (state (run Reference.host Calls.broken_dates initial_world))) 0).
  apply reference_clock_is_steady. vm_compute. repeat constructor.
Defined.

(** X15.  On tasks whose dates are in order, as [createTask] leaves
    them, [formatGanttData] does not read the clock and changes no date:
    the row of each task with an id has the start and the end of the
    task, its name (or "Unnamed Task"), and its completion brought between
    0 and 100. *)
Theorem formatGanttData_keeps_ordered_dates (H : Host) (trim : string -> string)
    (tasks : list Task) (tk : nat) :
  (forall task, In task tasks ->
     date_ordered task = true
     /\ date_in_range (startDate task) /\ date_in_range (endDate task)) ->
  snd (formatGanttData H trim tasks tk) = tk
  /\ Forall2 (fun task row =>
                row_id row = t_id task
                /\ VDate (row_start row) = startDate task
                /\ VDate (row_end row) = endDate task
                /\ row_name row = string_or (Some (t_name task)) "Unnamed Task"
                /\ row_percent row = clamp_completion H (completion task))
             (filter (fun task => negb (String.eqb (t_id task) "")) tasks)
             (fst (formatGanttData H trim tasks tk)).
Proof.
  induction tasks as [|task rest IH]; intros Hordered; [now split|].
  cbn [formatGanttData filter].
  destruct IH as [Htk Hrows]; [intros t Ht; apply Hordered; now right|].
  destruct (Hordered task (or_introl eq_refl)) as (Horder & Hs & He).
  unfold formatTask, date_ordered in *.
  destruct (t_id task =? "")%string; cbn [negb].
  - destruct (formatGanttData H trim rest tk) as [rows tk2]. now split.
  - destruct (startDate task) as [| | | | |[s|]] eqn:Hstart; try discriminate.
    destruct (endDate task) as [| | | | |[e|]] eqn:Hend; try discriminate.
    cbn [date_in_range] in Hs, He. apply Z.ltb_lt in Horder.
    unfold safeDate. cbn [invalid getTime].
    change (TimeClip (num s)) with (Date_of_ms s).
    change (TimeClip (num e)) with (Date_of_ms e).
    rewrite (Date_of_ms_in_range s Hs), (Date_of_ms_in_range e He).
    cbn [Date_le invalid orb].
    replace (e <=? s) with false by (symmetry; apply Z.leb_gt; lia).
    cbn [invalid orb Date_le].
    replace (e <=? s) with false by (symmetry; apply Z.leb_gt; lia).
    destruct (formatGanttData H trim rest tk) as [rows tk2]. cbn [fst snd] in *.
    split; [exact Htk|]. constructor; [|exact Hrows].
    cbn [row_id row_start row_end row_name row_percent].
    repeat split; [now rewrite Hstart|now rewrite Hend].
Qed.

Lemma date_in_range_check (v : value) :
  match v with
  | VDate (Some t) => (- MAX_TIME <=? t) && (t <=? MAX_TIME)
  | _ => true
  end = true ->
  date_in_range v.
Proof.
  destruct v as [| | | | |[t|]]; try (intros _; exact I).
  cbn [date_in_range]. intros Hcheck. apply andb_prop in Hcheck as [Hlow Hhigh].
  apply Z.leb_le in Hlow, Hhigh. now split.
Qed.

Lemma ordered_tasks_check (tasks : list Task) :
  forallb (fun task =>
             date_ordered task
             && match startDate task with
                | VDate (Some t) => (- MAX_TIME <=? t) && (t <=? MAX_TIME)
                | _ => true
                end
             && match endDate task with
                | VDate (Some t) => (- MAX_TIME <=? t) && (t <=? MAX_TIME)
                | _ => true
                end)
          tasks = true ->
  forall task, In task tasks ->
    date_ordered task = true
    /\ date_in_range (startDate task) /\ date_in_range (endDate task).
Proof.
  intros Hcheck task Hin. rewrite forallb_forall in Hcheck.
  specialize (Hcheck task Hin). apply andb_prop in Hcheck as [Hcheck He].
  apply andb_prop in Hcheck as [Horder Hs].
  split; [exact Horder|]. split; now apply date_in_range_check.
Qed.

Lemma formatGanttData_keeps_ordered_dates_witness :
  let tasks := all_tasks (state (run Reference.host Calls.linked_tasks initial_world)) in
  map t_id tasks = ["1"; "2"; "1"; "2"]
  /\ snd (formatGanttData Reference.host ReferenceStrings.trim tasks 0) = 0%nat.
Proof.
  split; [reflexivity|].
  apply (formatGanttData_keeps_ordered_dates Reference.host ReferenceStrings.trim
           (all_tasks (state (run Reference.host Calls.linked_tasks initial_world))) 0).
  apply ordered_tasks_check. vm_compute. reflexivity.
Defined.

(** X16.  What [validateGanttData] checks in a table of the headers and
    rows: it accepts the table exactly when every row has a non-empty id
    and no row has two valid dates with the end at or before the start.
    A row with an Invalid Date as start or as end passes the check.  The
    empty array is rejected, and so is a table whose header row has fewer
    than four columns. *)
Theorem validateGanttData_checks (rows : list Row) :
  (validateGanttData (chart_table rows) = true <->
   forall row, In row rows ->
     row_id row <> ""
     /\ forall s e, row_start row = Some s -> row_end row = Some e -> s < e)
  /\ validateGanttData (JArray []) = false
  /\ forall headers data,
       (List.length headers < 4)%nat ->
       validateGanttData (JArray (JArray headers :: data)) = false.
Proof.
  split; [|split].
  - rewrite validateGanttData_chart_table, forallb_forall.
    split; intros Hrows row Hrow; specialize (Hrows row Hrow).
    + unfold accepted_row in Hrows. apply andb_prop in Hrows as [Hid Hle].
      apply negb_true_iff in Hid, Hle. split; [now apply String.eqb_neq|].
      intros s e Hs He. rewrite Hs, He in Hle. now apply Z.leb_gt in Hle.
    + destruct Hrows as [Hid Hdates]. unfold accepted_row.
      apply String.eqb_neq in Hid. rewrite Hid. cbn [negb andb].
      destruct (row_start row) as [s|], (row_end row) as [e|]; try reflexivity.
      cbn [Date_le]. apply negb_true_iff, Z.leb_gt. now apply Hdates.
  - reflexivity.
  - intros headers data Hshort. unfold validateGanttData.
    apply Nat.ltb_lt in Hshort. now rewrite Hshort.
Qed.

(** X17.  [validateTaskDates] on two valid task dates: the clock is
    not read; without both project bounds (one of them absent or falsy)
    the result is [end > start] and the other bound is not looked at;
    with two valid Dates as bounds the result is
    [end > start && start >= projectStart && end <= projectEnd]. *)
Theorem validateTaskDates_compares (H : Host) (trim : string -> string)
    (s e : Z) (projectStart projectEnd : value) (tk : nat) :
  - MAX_TIME <= s <= MAX_TIME ->
  - MAX_TIME <= e <= MAX_TIME ->
  let call := validateTaskDates H trim (VDate (Some s)) (VDate (Some e)) in
  (truthy projectStart = false \/ truthy projectEnd = false ->
   fst (call projectStart projectEnd tk) = (s <? e))
  /\ (truthy projectStart = false -> truthy projectEnd = false ->
      call projectStart projectEnd tk = (s <? e, tk))
  /\ (forall a b,
        - MAX_TIME <= a <= MAX_TIME -> - MAX_TIME <= b <= MAX_TIME ->
        call (VDate (Some a)) (VDate (Some b)) tk
        = ((s <? e) && (a <=? s) && (e <=? b), tk)).
Proof.
  intros Hs He call. subst call.
  assert (Hdate : forall t tk0, - MAX_TIME <= t <= MAX_TIME ->
                    safeDate H trim (VDate (Some t)) tk0 = (Some t, tk0)).
  { intros t tk0 Ht. unfold safeDate. cbn [invalid getTime].
    change (TimeClip (num t)) with (Date_of_ms t).
    now rewrite (Date_of_ms_in_range t Ht). }
  assert (Hgt : Date_gt (Some e) (Some s) = (s <? e)) by reflexivity.
  unfold validateTaskDates. rewrite !Hdate by assumption.
  split; [|split].
  - intros [Hno|Hno].
    + rewrite Hno.
      destruct (truthy projectEnd); [destruct (safeDate _ _ _ _)|]; reflexivity.
    + rewrite Hno.
      destruct (truthy projectStart); [destruct (safeDate _ _ _ _)|]; reflexivity.
  - intros -> ->. reflexivity.
  - intros a b Ha Hb. cbn [truthy]. rewrite !Hdate by assumption. reflexivity.
Qed.

Lemma validateTaskDates_compares_witness :
  fst (validateTaskDates Reference.host ReferenceStrings.trim
         (VDate (Some Sample.day0)) (VDate (Some Sample.day7))
         (VDate (Some Sample.day7)) VNull 0)
  = true.
Proof.
  refine (proj1 (validateTaskDates_compares Reference.host ReferenceStrings.trim
                   Sample.day0 Sample.day7 (VDate (Some Sample.day7)) VNull 0 _ _)
            (or_intror eq_refl));
    vm_compute; split; discriminate.
Defined.

(** ** The persisted form of a state without dates *)

Lemma lookup_of_json (field : string) (members : list (string * json)) :
  lookup field (map (fun '(k, x) => (k, of_json x)) members)
  = option_map of_json (lookup field members).
Proof.
  induction members as [|[k x] rest IH]; [reflexivity|].
  cbn [map lookup]. destruct (k =? field)%string; [reflexivity|exact IH].
Qed.

Lemma fix_invalid_dates_of_json (H : Host) (members : list (string * json))
    (tk : nat) :
  fix_invalid_dates H (map (fun '(k, x) => (k, of_json x)) members) tk = ([], tk).
Proof.
  assert (Hstep : forall field acc,
             match lookup field (map (fun '(k, x) => (k, of_json x)) members) with
             | Some (JDate None) => assign_default H field acc
             | _ => acc
             end = acc).
  { intros field acc. rewrite lookup_of_json.
    destruct (lookup field members) as [[| | | | |]|]; reflexivity. }
  unfold fix_invalid_dates, dateFields. cbn [fold_left]. now rewrite !Hstep.
Qed.

(** A value that is a JSON document is written as that document. *)
Lemma processForSerialization_of_json (H : Host) :
  forall (doc : json) (tk : nat),
    processForSerialization H (of_json doc) tk = (of_json doc, tk).
Proof.
  fix IH 1. intros doc tk. destruct doc as [| | | |items|members]; try reflexivity.
  - cbn [of_json processForSerialization].
    match goal with
    | |- context [(fix each (l : list jsval) (tk : nat) {struct l} := _) _ tk] =>
        set (each := fix each (l : list jsval) (tk : nat) {struct l}
                       : list jsval * nat := _)
    end.
    assert (Heach : forall tk0, each (map of_json items) tk0 = (map of_json items, tk0)).
    { induction items as [|x rest IHrest]; intros tk0; [reflexivity|].
      cbn [map each]. fold each. now rewrite (IH x tk0), (IHrest tk0). }
    now rewrite Heach.
  - cbn [of_json processForSerialization]. rewrite fix_invalid_dates_of_json.
    match goal with
    | |- context [(fix each (l : list (string * jsval)) (tk : nat) {struct l} := _) _ tk] =>
        set (each := fix each (l : list (string * jsval)) (tk : nat) {struct l}
                       : list (string * jsval) * nat := _)
    end.
    assert (Heach : forall tk0,
              each (map (fun '(k, x) => (k, of_json x)) members) tk0
              = (map (fun '(k, x) => (k, of_json x)) members, tk0)).
    { induction members as [|[key x] rest IHrest]; intros tk0; [reflexivity|].
      cbn [map each lookup]. fold each.
      destruct (truthy_js (of_json x) && is_object_js (of_json x)).
      - now rewrite (IH x tk0), (IHrest tk0).
      - now rewrite (IHrest tk0). }
    now rewrite Heach.
Qed.

Lemma SerializeJSONProperty_of_json (H : Host) :
  forall doc : json, SerializeJSONProperty H (of_json doc) = Returned (Some doc).
Proof.
  fix IH 1. intros doc. destruct doc as [| | | |items|members]; try reflexivity.
  - cbn [of_json SerializeJSONProperty].
    match goal with
    | |- context [(fix each (l : list jsval) {struct l} := _) _] =>
        set (each := fix each (l : list jsval) {struct l} : outcome (list json) := _)
    end.
    assert (Heach : each (map of_json items) = Returned items).
    { induction items as [|x rest IHrest]; [reflexivity|].
      cbn [map each]. fold each. now rewrite (IH x), IHrest. }
    now rewrite Heach.
  - cbn [of_json SerializeJSONProperty].
    match goal with
    | |- context [(fix each (l : list (string * jsval)) {struct l} := _) _] =>
        set (each := fix each (l : list (string * jsval)) {struct l}
                       : outcome (list (string * json)) := _)
    end.
    assert (Heach : each (map (fun '(k, x) => (k, of_json x)) members)
                    = Returned members).
    { induction members as [|[key x] rest IHrest]; [reflexivity|].
      cbn [map each]. fold each. now rewrite (IH x), IHrest. }
    now rewrite Heach.
Qed.

Lemma lookup_absent {A} (field : string) (members : list (string * A)) :
  forallb (fun '(key, _) => negb (key =? field)%string) members = true ->
  lookup field members = None.
Proof.
  induction members as [|[k x] rest IH]; [reflexivity|].
  cbn [forallb lookup]. intros Hall. apply andb_prop in Hall as [Hk Hrest].
  apply negb_true_iff in Hk. rewrite Hk. now apply IH.
Qed.

Lemma date_free_lookup (members : list (string * json)) (field : string) :
  date_free (Jobj members) = true ->
  In field dateFields ->
  lookup field members = None.
Proof.
  intros Hfree Hfield. apply lookup_absent.
  cbn [date_free] in Hfree. rewrite forallb_forall in *.
  intros [key x] Hin. specialize (Hfree (key, x) Hin). cbn beta iota in Hfree.
  apply andb_prop in Hfree as [Hkey _].
  apply negb_true_iff in Hkey. apply negb_true_iff.
  destruct (key =? field)%string eqn:Heq; [|reflexivity].
  apply String.eqb_eq in Heq. subst key.
  assert (Hex : existsb (String.eqb field) dateFields = true).
  { apply existsb_exists. exists field. split; [exact Hfield|apply String.eqb_refl]. }
  congruence.
Qed.

(** A document without date keys is read as it is. *)
Lemma convertDates_date_free (H : Host) :
  forall (doc : json) (tk : nat),
    date_free doc = true -> convertDates H doc tk = (of_json doc, tk).
Proof.
  fix IH 1. intros doc tk. destruct doc as [| | | |items|members]; try reflexivity.
  - cbn [of_json convertDates date_free]. intros Hfree.
    match goal with
    | |- context [(fix each (l : list json) (tk : nat) {struct l} := _) items tk] =>
        set (each := fix each (l : list json) (tk : nat) {struct l}
                       : list jsval * nat := _)
    end.
    assert (Heach : forall tk0, each items tk0 = (map of_json items, tk0)).
    { induction items as [|x rest IHrest]; intros tk0; [reflexivity|].
      cbn [forallb] in Hfree. apply andb_prop in Hfree as [Hx Hrest].
      cbn [map each]. fold each. now rewrite (IH x tk0 Hx), (IHrest Hrest tk0). }
    now rewrite Heach.
  - intros Hfree. cbn [of_json convertDates].
    assert (Hnone : forall field, In field dateFields -> lookup field members = None)
      by (intros field; now apply date_free_lookup).
    assert (Hstrings : convert_date_strings H members tk = ([], tk)).
    { unfold convert_date_strings, dateFields. cbn [fold_left].
      rewrite !Hnone by (cbn; tauto). reflexivity. }
    rewrite Hstrings.
    assert (Horder : order_dates H [] members = []).
    { unfold order_dates, converted_truthy. cbn [lookup].
      rewrite (Hnone "startDate") by (cbn; tauto). reflexivity. }
    rewrite Horder.
    match goal with
    | |- context [(fix each (l : list (string * json)) (tk : nat) {struct l} := _) members tk] =>
        set (each := fix each (l : list (string * json)) (tk : nat) {struct l}
                       : list (string * jsval) * nat := _)
    end.
    cbn [date_free] in Hfree. clear Hnone Hstrings Horder.
    assert (Heach : forall tk0,
              each members tk0 = (map (fun '(k, x) => (k, of_json x)) members, tk0)).
    { induction members as [|[key x] rest IHrest]; intros tk0; [reflexivity|].
      cbn [forallb] in Hfree. apply andb_prop in Hfree as [Hx Hrest].
      apply andb_prop in Hx as [_ Hx].
      cbn [map each lookup]. fold each.
      destruct (truthy_json (Some x) && is_object_json x).
      - now rewrite (IH x tk0 Hx), (IHrest Hrest tk0).
      - now rewrite (IHrest Hrest tk0). }
    now rewrite Heach.
Qed.

(** X18.  The round trip of a state without dates.  A state that is a
    JSON document with no key named [createdAt], [updatedAt], [startDate]
    or [endDate] is written by [serialize] as that document and read back
    by [deserialize] as the same state; neither call reads the clock. *)
Theorem round_trip_without_dates (H : Host) (doc : json) (tk tk' : nat) :
  date_free doc = true ->
  serialize H (of_json doc) tk = (JsonText doc, tk)
  /\ deserialize H (fst (serialize H (of_json doc) tk)) tk' = (of_json doc, tk').
Proof.
  intros Hfree.
  assert (Hwrite : serialize H (of_json doc) tk = (JsonText doc, tk)).
  { unfold serialize, JSON_stringify.
    now rewrite processForSerialization_of_json, SerializeJSONProperty_of_json. }
  split; [exact Hwrite|]. rewrite Hwrite. cbn [fst deserialize JSON_parse].
  now apply convertDates_date_free.
Qed.

Lemma round_trip_without_dates_witness :
  deserialize Reference.host
    (fst (serialize Reference.host (of_json Calls.plain_state) 0)) 0
  = (of_json Calls.plain_state, 0%nat).
Proof.
  apply (round_trip_without_dates Reference.host Calls.plain_state 0 0).
  reflexivity.
Defined.

(** ** The guard [migrateLegacyStorage] *)

Lemma check_fields_parsable (H : Host) (members : list (string * json))
    (fields : list string) :
  existsb (unparsable_field H (Jobj members)) fields = false ->
  check_fields H (Jobj members) fields false = Returned false.
Proof.
  induction fields as [|field rest IH]; [reflexivity|].
  cbn [existsb check_fields prop obind]. intros Hnone.
  apply orb_false_elim in Hnone as [Hfield Hrest].
  unfold unparsable_field in Hfield.
  destruct (lookup field members) as [[| | |s| |]|]; try (now apply IH).
  rewrite Hfield. now apply IH.
Qed.

Lemma check_tasks_parsable (H : Host) (ts : list json) :
  forallb shaped_task ts = true ->
  existsb (unparsable_task H) ts = false ->
  check_tasks H ts false = Returned false.
Proof.
  induction ts as [|task rest IH]; [reflexivity|].
  cbn [forallb existsb check_tasks]. intros Hshape Hnone.
  apply andb_prop in Hshape as [Htask Hshape].
  apply orb_false_elim in Hnone as [Hfields Hnone].
  destruct task as [| | | | |members]; try discriminate.
  unfold unparsable_task in Hfields.
  rewrite (check_fields_parsable H members _ Hfields). cbn [obind].
  now apply IH.
Qed.

Lemma check_projects_parsable (H : Host) (ps : list json) :
  forallb shaped_project ps = true ->
  existsb (unparsable_project H) ps = false ->
  check_projects H ps false = Returned false.
Proof.
  induction ps as [|project rest IH]; [reflexivity|].
  cbn [forallb existsb check_projects]. intros Hshape Hnone.
  apply andb_prop in Hshape as [Hproject Hshape].
  apply orb_false_elim in Hnone as [Hown Hnone].
  destruct project as [| | | | |members]; try discriminate.
  unfold unparsable_project in Hown. apply orb_false_elim in Hown as [Hfields Htasks].
  rewrite (check_fields_parsable H members _ Hfields). cbn [obind prop].
  cbn [shaped_project] in Hproject.
  destruct (lookup "tasks" members) as [[|b|q|s|ts|ms]|].
  - cbn. now apply IH.
  - cbn in Hproject. apply negb_true_iff in Hproject. cbn [truthy_json].
    rewrite Hproject. cbn [obind]. now apply IH.
  - cbn in Hproject. apply negb_true_iff in Hproject. cbn [truthy_json].
    rewrite Hproject. cbn [obind]. now apply IH.
  - cbn in Hproject. apply negb_true_iff in Hproject. cbn [truthy_json].
    rewrite Hproject. cbn [obind]. now apply IH.
  - cbn [truthy_json iterate obind].
    rewrite (check_tasks_parsable H ts Hproject Htasks). cbn [obind]. now apply IH.
  - discriminate.
  - cbn. now apply IH.
Qed.

(** X19.  What the guard keeps.  When the persisted payload is an
    object whose [state.projects] is an array of project objects (with
    [tasks] absent, falsy or an array of objects), the guard leaves the
    slot as it is exactly when no project has, in its own [createdAt] or
    [updatedAt] or in the four date fields of one of its tasks, a
    non-empty string that does not parse; otherwise it removes the slot.
    An empty array of projects is kept. *)
Theorem migrateLegacyStorage_keeps_parsable (H : Host)
    (members stateMembers : list (string * json)) (ps : list json) :
  lookup "state" members = Some (Jobj stateMembers) ->
  lookup "projects" stateMembers = Some (Jarr ps) ->
  forallb shaped_project ps = true ->
  migrateLegacyStorage H (Some (JsonText (Jobj members)))
  = if existsb (unparsable_project H) ps
    then None
    else Some (JsonText (Jobj members)).
Proof.
  intros Hstate Hprojects Hshape.
  unfold migrateLegacyStorage. simpl. rewrite Hstate. simpl.
  rewrite Hprojects. simpl.
  destruct (existsb (unparsable_project H) ps) eqn:Hbad.
  - pose proof (check_projects_unparsable H ps false Hbad) as Hloop.
    destruct (check_projects H ps false) as [[|]|e]; try reflexivity.
    now contradiction Hloop.
  - now rewrite (check_projects_parsable H ps Hshape Hbad).
Qed.

Lemma migrateLegacyStorage_keeps_parsable_witness :
  let stored :=
    Sample.payload [Sample.stored_project "2025-06-15T15:06:40.000Z"
                      [Sample.stored_task "2025-06-15T15:06:40.000Z"]] Jnull in
  migrateLegacyStorage Reference.host (Some (JsonText stored))
  = Some (JsonText stored).
Proof.
  set (ps := [Sample.stored_project "2025-06-15T15:06:40.000Z"
                [Sample.stored_task "2025-06-15T15:06:40.000Z"]]).
  refine (eq_trans
            (migrateLegacyStorage_keeps_parsable Reference.host
               [("state", Jobj [("projects", Jarr ps); ("currentProject", Jnull)]);
                ("version", Jnum (inject_Z 0))]
               [("projects", Jarr ps); ("currentProject", Jnull)]
               ps eq_refl eq_refl eq_refl) _).
  vm_compute. reflexivity.
Defined.

(** X20.  The guard only removes.  Whatever the slot holds,
    [migrateLegacyStorage] leaves it as it is or removes it, and a second
    run changes nothing more.  An absent slot and the empty string are
    left alone; a string that is no JSON text and the document [null] are
    removed; a document that is no object, or an object whose [state] is
    absent or falsy, is kept. *)
Theorem migrateLegacyStorage_only_removes (H : Host) (stored : slot) :
  (migrateLegacyStorage H stored = stored \/ migrateLegacyStorage H stored = None)
  /\ migrateLegacyStorage H (migrateLegacyStorage H stored)
     = migrateLegacyStorage H stored
  /\ (stored = None \/ stored = Some EmptyText ->
      migrateLegacyStorage H stored = stored)
  /\ (stored = Some NotJson \/ stored = Some (JsonText Jnull) ->
      migrateLegacyStorage H stored = None)
  /\ (forall doc,
        stored = Some (JsonText doc) ->
        match doc with
        | Jnull => False
        | Jobj members => truthy_json (lookup "state" members) = false
        | _ => True
        end ->
        migrateLegacyStorage H stored = stored).
Proof.
  assert (Hcases : migrateLegacyStorage H stored = stored
                   \/ migrateLegacyStorage H stored = None).
  { unfold migrateLegacyStorage.
    repeat match goal with
           | |- context [match ?x with _ => _ end] => destruct x
           end; auto. }
  split; [exact Hcases|]. split; [|split; [|split]].
  - destruct Hcases as [Hkept|Hremoved].
    + rewrite Hkept. exact Hkept.
    + rewrite Hremoved. reflexivity.
  - intros [->| ->]; reflexivity.
  - intros [->| ->]; reflexivity.
  - intros doc -> Hdoc. unfold migrateLegacyStorage. cbn [JSON_parse].
    destruct doc as [|b|q|s|items|members]; try reflexivity; [contradiction|].
    cbn [prop obind]. rewrite Hdoc. reflexivity.
Qed.

(** ** [validateAndFixDates] *)

(** No Date survives [fixDatesInObject]. *)
Lemma fixDatesInObject_erases_Dates (H : Host)
    (Array_toString : list jsval -> string) :
  forall (v : jsval) (tk : nat),
    has_Date (fst (fixDatesInObject H Array_toString v tk)) = false.
Proof.
  fix IH 1. intros v tk. destruct v as [| | | | | | |items|fields]; try reflexivity.
  - cbn [fixDatesInObject].
    match goal with
    | |- context [(fix each (l : list jsval) (tk : nat) {struct l} := _) items tk] =>
        set (each := fix each (l : list jsval) (tk : nat) {struct l}
                       : list jsval * nat := _)
    end.
    assert (Heach : forall tk0, existsb has_Date (fst (each items tk0)) = false).
    { induction items as [|x rest IHrest]; intros tk0; [reflexivity|].
      cbn [each]. fold each.
      pose proof (IH x tk0) as Hx.
      destruct (fixDatesInObject H Array_toString x tk0) as [x' tk1].
      pose proof (IHrest tk1) as Hrest.
      destruct (each rest tk1) as [rest' tk2].
      cbn in *. now rewrite Hx, Hrest. }
    specialize (Heach tk). destruct (each items tk) as [items' tk']. exact Heach.
  - cbn [fixDatesInObject].
    destruct (fix_date_fields H Array_toString fields tk) as [assigned0 tk0].
    generalize (fix_order assigned0 fields). intros assigned.
    match goal with
    | |- context [(fix each (l : list (string * jsval)) (tk : nat) {struct l} := _) fields tk0] =>
        set (each := fix each (l : list (string * jsval)) (tk : nat) {struct l}
                       : list (string * jsval) * nat := _)
    end.
    assert (Heach : forall tk1,
              existsb (fun '(_, x) => has_Date x) (fst (each fields tk1)) = false).
    { induction fields as [|[key x] rest IHrest]; intros tk1; [reflexivity|].
      cbn [each]. fold each.
      pose proof (IH x tk1) as Hx.
      destruct (lookup key assigned) as [d|].
      - pose proof (IHrest tk1) as Hrest.
        destruct (each rest tk1) as [rest' tk2]. cbn in *. exact Hrest.
      - destruct (truthy_js x && is_object_js x) eqn:Hobj.
        + destruct (fixDatesInObject H Array_toString x tk1) as [x' tk2].
          pose proof (IHrest tk2) as Hrest.
          destruct (each rest tk2) as [rest' tk3]. cbn in *. now rewrite Hx, Hrest.
        + pose proof (IHrest tk1) as Hrest.
          destruct (each rest tk1) as [rest' tk2]. cbn in *. rewrite Hrest.
          destruct x; try reflexivity; discriminate. }
    specialize (Heach tk0). destruct (each fields tk0) as [fixed tk']. exact Heach.
Qed.

(** X21.  [validateAndFixDates] leaves no Date in the store: whatever
    [projects] and [currentProject] hold, the values it puts in their
    place contain no Date object.  Every Date they held, and every Date
    the function itself makes for a date field, is replaced by the copy
    [{ ...date }] of its own properties, the empty object. *)
Theorem validateAndFixDates_leaves_no_Date (H : Host)
    (Array_toString : list jsval -> string)
    (projects currentProject : jsval) (tk : nat) :
  let fixed := fst (validateAndFixDates H Array_toString projects currentProject tk) in
  has_Date (fst fixed) = false
  /\ has_Date (snd fixed) = false
  /\ forall d, fixDatesInObject H Array_toString (JDate d) tk = (JObject [], tk).
Proof.
  cbn zeta. unfold validateAndFixDates.
  pose proof (fixDatesInObject_erases_Dates H Array_toString projects tk) as Hps.
  destruct (fixDatesInObject H Array_toString projects tk) as [projects' tk1].
  pose proof (fixDatesInObject_erases_Dates H Array_toString currentProject tk1) as Hcp.
  destruct (fixDatesInObject H Array_toString currentProject tk1)
    as [currentProject' tk2].
  cbn [fst snd] in *. split; [exact Hps|]. split; [exact Hcp|].
  intros d. reflexivity.
Qed.

(** ** The ids of the tasks *)

Lemma ids_kept_NoDup (ts ts' : list Task) :
  ids_kept ts ts' -> NoDup (map t_id ts) -> NoDup (map t_id ts').
Proof.
  intros (keep & ->). apply NoDup_filter.
Qed.

Lemma ids_kept_In (ts ts' : list Task) (task' : Task) :
  ids_kept ts ts' -> In task' ts' ->
  exists task, In task ts /\ t_id task' = t_id task.
Proof.
  intros (keep & Hids) Hin.
  assert (Hid : In (t_id task') (map t_id ts')) by now apply in_map.
  rewrite Hids in Hid. apply filter_In in Hid as [Hid _].
  apply in_map_iff in Hid as (task & Heq & Htask). now exists task.
Qed.

Lemma mapped_ids_kept (f : Task -> M Task) :
  (forall x w0, exists y w',
      f x w0 = (Returned y, w') /\ ids w' = ids w0 /\ t_id y = t_id x) ->
  forall ts w0, exists ts' w', mapM f ts w0 = (Returned ts', w') /\ ids_kept ts ts'.
Proof.
  intros Hf ts w0.
  destruct (mapM_returns f _ Hf ts w0) as (ts' & w' & Hmap & _ & Hrel).
  exists ts', w'. split; [exact Hmap|]. exists (fun _ => true).
  rewrite (Forall2_map_eq t_id t_id ts ts' Hrel).
  symmetry. now apply filter_all.
Qed.

Lemma change_keeps_ids (H : Host) (op : Op) :
  keeps_task_ids op = true ->
  match op with
  | UpdateTask taskId updates =>
      forall ts w0, exists ts' w',
        mapM (updated_task H taskId updates) ts w0 = (Returned ts', w')
        /\ ids_kept ts ts'
  | DeleteTask taskId =>
      forall ts (w0 : World), exists ts' w',
        ret (cleanedTasks taskId ts) w0 = (Returned ts', w') /\ ids_kept ts ts'
  | AddDependency taskId dependency =>
      forall ts w0, exists ts' w',
        mapM (with_added_dependency H taskId dependency) ts w0 = (Returned ts', w')
        /\ ids_kept ts ts'
  | RemoveDependency taskId dependencyTaskId =>
      forall ts w0, exists ts' w',
        mapM (without_dependency H taskId dependencyTaskId) ts w0 = (Returned ts', w')
        /\ ids_kept ts ts'
  | _ => True
  end.
Proof.
  intros Hkeeps.
  destruct op as [name description|pid updates|pid|pid|taskData|taskId updates
                 |taskId|taskId dependency|taskId dependencyTaskId|];
    try exact I.
  - apply mapped_ids_kept. intros x w0.
    destruct (updated_task_merges H taskId updates x w0) as (y & w' & Hy & Hids & Hm).
    exists y, w'. split; [exact Hy|]. split; [exact Hids|].
    simpl in Hkeeps. destruct (tu_id updates) eqn:Hid; [discriminate|].
    destruct (t_id x =? taskId)%string; [|now subst y].
    destruct Hm as (now & ->). unfold merge_task. cbn [t_id]. now rewrite Hid.
  - intros ts w0. eexists _, _. split; [reflexivity|].
    eexists. apply cleanedTasks_ids.
  - apply mapped_ids_kept. intros x w0.
    destruct (with_added_dependency_effect H taskId dependency x w0)
      as (y & w' & Hy & Hids & Hm).
    exists y, w'. split; [exact Hy|]. split; [exact Hids|].
    destruct (t_id x =? taskId)%string; [|now subst y].
    destruct (find _ _); [now subst y|]. now destruct Hm as (now & ->).
  - apply mapped_ids_kept. intros x w0.
    destruct (without_dependency_effect H taskId dependencyTaskId x w0)
      as (y & w' & Hy & Hids & Hm).
    exists y, w'. split; [exact Hy|]. split; [exact Hids|].
    destruct (t_id x =? taskId)%string; [|now subst y].
    now destruct Hm as (now & ->).
Qed.

(** The invariant after the installation of a rebuilt project. *)
Lemma installed_task_ids (H : Host) (w w' : World) (cp : Project)
    (ts' : list Task) (now : date) :
  currentProject (state w) = Some cp ->
  task_ids_distinct H w ->
  state w' = install (rebuilt cp ts' now) (begin_loading (state w)) ->
  (ids w <= ids w')%nat ->
  (forall task', In task' ts' -> exists k, (k < ids w')%nat /\ t_id task' = uuid H k) ->
  NoDup (map t_id ts') ->
  task_ids_distinct H w'.
Proof.
  intros Hcur (Hissued & Hprojects & Hcurrent) Hstate Hids Hnew Hnodup.
  unfold task_ids_distinct. rewrite Hstate. split; [|split].
  - intros task Hin. apply all_tasks_install in Hin as [Hin|Hin].
    + now apply Hnew.
    + destruct (Hissued task Hin) as (k & Hk & Hid). exists k. split; [lia|exact Hid].
  - intros p Hp. unfold install in Hp. cbn [projects begin_loading] in Hp.
    apply in_map_iff in Hp as (p0 & Hp0 & Hin).
    destruct (p_id p0 =? p_id (rebuilt cp ts' now))%string; subst p.
    + exact Hnodup.
    + now apply Hprojects.
  - intros cp' Hcp'. cbn in Hcp'. injection Hcp' as <-. exact Hnodup.
Qed.

(** The invariant when the projects and the current project are as
    they were. *)
Lemma unchanged_task_ids (H : Host) (w w' : World) :
  task_ids_distinct H w ->
  projects (state w') = projects (state w) ->
  currentProject (state w') = currentProject (state w) ->
  (ids w <= ids w')%nat ->
  task_ids_distinct H w'.
Proof.
  intros (Hissued & Hprojects & Hcurrent) Hps Hcp Hids.
  unfold task_ids_distinct, all_tasks. rewrite Hps, Hcp. split; [|split].
  - intros task Hin. destruct (Hissued task Hin) as (k & Hk & Hid).
    exists k. split; [lia|exact Hid].
  - exact Hprojects.
  - exact Hcurrent.
Qed.

Lemma rewriting_keeps_task_ids (H : Host) (prefix : string)
    (change : list Task -> M (list Task)) (w : World) :
  (forall ts w0, exists ts' w', change ts w0 = (Returned ts', w') /\ ids_kept ts ts') ->
  (ids w <= ids (snd (try_catch (bind require_current
                                   (fun _ => update_current H change))
                        (fail_with prefix) w)))%nat ->
  task_ids_distinct H w ->
  task_ids_distinct H
    (snd (try_catch (bind require_current (fun _ => update_current H change))
            (fail_with prefix) w)).
Proof.
  intros Hchange Hids Hdistinct.
  pose proof (task_operation_outcome H prefix change ids_kept w Hchange) as Hout.
  cbn zeta in Hout.
  destruct (currentProject (state w)) as [cp|] eqn:Hcur.
  - destruct Hout as (ts' & now & _ & Hstate & Hkept).
    apply (installed_task_ids H w _ cp ts' now Hcur Hdistinct Hstate Hids).
    + intros task' Hin. destruct (ids_kept_In _ _ _ Hkept Hin) as (task & Htask & ->).
      destruct Hdistinct as (Hissued & _).
      destruct (Hissued task (current_tasks_in_store _ cp task Hcur Htask))
        as (k & Hk & Hid).
      exists k. split; [lia|exact Hid].
    + apply (ids_kept_NoDup _ _ Hkept). destruct Hdistinct as (_ & _ & Hcurrent).
      now apply Hcurrent.
  - destruct Hout as [_ Hstate].
    apply (unchanged_task_ids H w); [exact Hdistinct| | |exact Hids];
      now rewrite Hstate.
Qed.

Lemma after_keeps_task_ids (H : Host) (op : Op) (w : World) :
  (forall i j, uuid H i = uuid H j -> i = j) ->
  keeps_task_ids op = true ->
  task_ids_distinct H w -> task_ids_distinct H (after H op w).
Proof.
  intros Hinj Hkeeps Hdistinct.
  pose proof (change_keeps_ids H op Hkeeps) as Hchange.
  pose proof (task_operation_effects H op w) as Heffect.
  destruct op as [name description|pid updates|pid|pid|taskData|taskId updates
                 |taskId|taskId dependency|taskId dependencyTaskId|].
  - (* createProject *)
    unfold after, perform.
    destruct (createProject_effect H name description w)
      as (newProject & _ & Hps & Hcp & Hids).
    assert (Htasks : tasks newProject = []).
    { revert Hcp. unfold createProject, try_catch, set_loading_start, set_with, uuidv4,
        new_Date, Date_now, get, put, bind, ret. cbn. intros Heq.
      injection Heq as <-. reflexivity. }
    destruct Hdistinct as (Hissued & Hprojects & Hcurrent).
    unfold task_ids_distinct, all_tasks. rewrite Hps, Hcp, Hids. split; [|split].
    + intros task Hin. rewrite flat_map_app in Hin. simpl in Hin.
      rewrite Htasks in Hin. rewrite !app_nil_r in Hin.
      destruct (Hissued task) as (k & Hk & Hid);
        [unfold all_tasks; apply in_or_app; now left|].
      exists k. split; [lia|exact Hid].
    + intros p Hp. apply in_app_or in Hp as [Hp|[<-|[]]]; [now apply Hprojects|].
      rewrite Htasks. constructor.
    + intros cp Heq. injection Heq as <-. rewrite Htasks. constructor.
  - (* updateProject *)
    unfold after, perform.
    assert (Hnotasks : pu_tasks updates = None).
    { simpl in Hkeeps. now destruct (pu_tasks updates). }
    destruct (mapM_returns _ _
                (fun p w0 => updated_project_keeps_tasks H pid updates p w0 Hnotasks)
                (projects (state w))
                {| state := begin_loading (state w); tick := tick w; ids := ids w |})
      as (ps' & w' & Hmap & Hids & Hrel).
    unfold updateProject, try_catch, set_loading_start, set_with, get, put, bind, ret.
    cbn. unfold bind in Hmap. cbn in Hmap. rewrite Hmap. cbn. cbn in Hids.
    destruct Hdistinct as (Hissued & Hprojects & Hcurrent).
    assert (Hps : forall p', In p' ps' ->
                    exists p, In p (projects (state w)) /\ tasks p' = tasks p).
    { intros p' Hp'. destruct (Forall2_in_right _ _ _ _ Hrel Hp') as (p & Hp & Heq).
      now exists p. }
    unfold task_ids_distinct, all_tasks. cbn [state projects currentProject ids].
    rewrite Hids. split; [|split].
    + intros task Hin. apply Hissued. unfold all_tasks.
      apply in_app_or in Hin as [Hin|Hin].
      * apply in_flat_map in Hin as (p' & Hp' & Htask).
        destruct (Hps p' Hp') as (p & Hp & Heq). rewrite Heq in Htask.
        apply in_or_app. left. apply in_flat_map. now exists p.
      * destruct (currentProject (state w)) as [cp|] eqn:Hcur; [|contradiction].
        destruct (p_id cp =? pid)%string.
        -- destruct (find _ ps') as [q|] eqn:Hfind; [|contradiction].
           apply find_some in Hfind as [Hq _].
           destruct (Hps q Hq) as (p & Hp & Heq). rewrite Heq in Hin.
           apply in_or_app. left. apply in_flat_map. now exists p.
        -- apply in_or_app. now right.
    + intros p' Hp'. destruct (Hps p' Hp') as (p & Hp & ->). now apply Hprojects.
    + intros cp' Hcp'.
      destruct (currentProject (state w)) as [cp|] eqn:Hcur; [|discriminate].
      destruct (p_id cp =? pid)%string.
      * apply find_some in Hcp' as [Hq _].
        destruct (Hps cp' Hq) as (p & Hp & ->). now apply Hprojects.
      * injection Hcp' as <-. now apply Hcurrent.
  - (* deleteProject *)
    unfold after, perform.
    unfold deleteProject, try_catch, set_loading_start, set_with, get, put, bind, ret.
    cbn. destruct Hdistinct as (Hissued & Hprojects & Hcurrent).
    unfold task_ids_distinct, all_tasks. cbn [state projects currentProject ids].
    split; [|split].
    + intros task Hin. apply Hissued. unfold all_tasks. apply in_or_app.
      apply in_app_or in Hin as [Hin|Hin].
      * left. apply in_flat_map in Hin as (p & Hp & Htask).
        apply filter_In in Hp as [Hp _]. apply in_flat_map. now exists p.
      * right. destruct (currentProject (state w)) as [cp|]; [|contradiction].
        now destruct (p_id cp =? pid)%string.
    + intros p Hp. apply filter_In in Hp as [Hp _]. now apply Hprojects.
    + intros cp' Hcp'.
      destruct (currentProject (state w)) as [cp|] eqn:Hcur; [|discriminate].
      destruct (p_id cp =? pid)%string; [discriminate|].
      injection Hcp' as <-. now apply Hcurrent.
  - (* selectProject *)
    unfold after, perform.
    unfold selectProject, try_catch, set_with, throw, get, put, bind, ret. cbn.
    destruct Hdistinct as (Hissued & Hprojects & Hcurrent).
    destruct (find _ (projects (state w))) as [project|] eqn:Hfind; cbn.
    + apply find_some in Hfind as [Hp _].
      unfold task_ids_distinct, all_tasks. cbn [state projects currentProject ids].
      split; [|split].
      * intros task Hin. apply Hissued. unfold all_tasks. apply in_or_app. left.
        apply in_app_or in Hin as [Hin|Hin]; [exact Hin|].
        apply in_flat_map. now exists project.
      * exact Hprojects.
      * intros cp' Hcp'. injection Hcp' as <-. now apply Hprojects.
    + repeat split; assumption.
  - (* createTask *)
    unfold after, perform in *.
    destruct Heffect as [Hids _].
    destruct (createTask_outcome H taskData w)
      as [(message & w' & Hcall & Hstate)
         |(cp & task & now & w' & Hcur & Hcall & Hstate & _ & Hid & Hnext)];
      rewrite Hcall in *; cbn [snd] in *.
    + apply (unchanged_task_ids H w); [exact Hdistinct| | |exact Hids];
        now rewrite Hstate.
    + apply (installed_task_ids H w w' cp _ now Hcur Hdistinct Hstate Hids).
      * intros task' Hin. apply in_app_or in Hin as [Hin|[<-|[]]].
        -- destruct Hdistinct as (Hissued & _).
           destruct (Hissued task' (current_tasks_in_store _ cp task' Hcur Hin))
             as (k & Hk & Hidk).
           exists k. split; [lia|exact Hidk].
        -- exists (ids w). split; [lia|exact Hid].
      * rewrite map_app. cbn [map].
        destruct Hdistinct as (Hissued & _ & Hcurrent).
        apply NoDup_app; [now apply Hcurrent|repeat constructor; intros []|].
        intros x Hx [Hx'|[]]. apply in_map_iff in Hx as (task0 & <- & Htask0).
        destruct (Hissued task0 (current_tasks_in_store _ cp task0 Hcur Htask0))
          as (k & Hk & Hidk).
        rewrite Hid, Hidk in Hx'. apply Hinj in Hx'. lia.
  - destruct Heffect as [Hids _]. now apply rewriting_keeps_task_ids.
  - destruct Heffect as [Hids _]. now apply rewriting_keeps_task_ids.
  - destruct Heffect as [Hids _]. now apply rewriting_keeps_task_ids.
  - destruct Heffect as [Hids _]. now apply rewriting_keeps_task_ids.
  - unfold after, perform, clearError, set_with, get, put, bind, ret. cbn.
    destruct Hdistinct as (Hissued & Hprojects & Hcurrent).
    repeat split; assumption.
Qed.

(** X23.  The ids of the tasks stay distinct.  When the identifiers
    the host issues are pairwise distinct, no call of [updateTask] passes
    an [id] and no call of [updateProject] a list of tasks, then in every
    state reached from the initial state no two tasks of a project (an
    entry of [projects] or the current project) have the same id, and
    every task id is an identifier the host has issued. *)
Theorem task_ids_stay_distinct (H : Host) (ops : list Op) :
  (forall i j, uuid H i = uuid H j -> i = j) ->
  forallb keeps_task_ids ops = true ->
  task_ids_distinct H (run H ops initial_world).
Proof.
  intros Hinj Hkeeps.
  assert (Hinitial : task_ids_distinct H initial_world).
  { split; [intros task []|]. split; [intros p []|discriminate]. }
  unfold run. revert Hinitial. generalize initial_world as w.
  induction ops as [|op ops IH]; intros w Hdistinct; [exact Hdistinct|].
  simpl in Hkeeps. apply andb_prop in Hkeeps as [Hop Hops].
  simpl. apply IH; [exact Hops|]. now apply after_keeps_task_ids.
Qed.

Lemma task_ids_stay_distinct_witness :
  map t_id (all_tasks (state (run Reference.host Calls.linked_tasks initial_world)))
  = ["1"; "2"; "1"; "2"]
  /\ task_ids_distinct Reference.host
       (run Reference.host Calls.linked_tasks initial_world).
Proof.
  split; [reflexivity|].
  apply (task_ids_stay_distinct Reference.host Calls.linked_tasks).
  - intros i j. apply reference_uuid_injective.
  - reflexivity.
Defined.
